(** * CanvasCode: tool host, input routing, pointer sessions, raster overlay

    A shallow embedding of the TypeScript sources
      - [tool-system.ts]      (class [ToolSystem])
      - [pointer-session.ts]  (class [PointerSessionManager])
      - [input-manager.ts]    (class [InputManager])
      - [overlay-canvas.ts]   (class [OverlayCanvas])
    together with the properties the specification states about them.

    JavaScript numbers are IEEE-754 doubles and are modelled by Rocq's
    primitive [float]; integral DOM attributes (pointer ids, button masks,
    tilt angles) are modelled by [Z].  A JavaScript [Map] is a [gmap]. *)

From Stdlib Require Import ZArith String List Bool Floats Lia.
From stdpp Require Import base option gmap strings list.

Local Open Scope string_scope.
Local Open Scope list_scope.

(** ** DOM vocabulary *)

(** The four event types [InputManager] subscribes [routePointer] to. *)
Inductive RawPointerType :=
  | RawPointerDown | RawPointerMove | RawPointerUp | RawPointerCancel.

(** What the handlers read of [ev.target]: the two [closest(...)] queries of
    [shouldIgnore] and whether the element offers [setPointerCapture]. *)
Record Target := {
  closest_draggable : bool;       (* target.closest('[draggable="true"]') *)
  closest_outline_panel : bool;   (* target.closest(".outline-panel") *)
  has_setPointerCapture : bool    (* target.setPointerCapture is defined *)
}.

(** A platform [PointerEvent].  [ev_pressure] is [None] when the property is
    [null] or [undefined] (the case the [??] operator tests for);
    [ev_target] is [None] when [ev.target] is [null]. *)
Record RawPointerEvent := {
  ev_type : RawPointerType;
  ev_target : option Target;
  ev_clientX : float;
  ev_clientY : float;
  ev_pressure : option float;
  ev_buttons : Z;
  ev_pointerId : Z;
  ev_pointerType : string;
  ev_tiltX : Z;
  ev_tiltY : Z
}.

Record RawKeyboardEvent := {
  kev_key : string;
  kev_code : string;
  kev_ctrlKey : bool;
  kev_shiftKey : bool;
  kev_altKey : bool;
  kev_metaKey : bool
}.

(** [paper.Point]. *)
Record Point := { pt_x : float; pt_y : float }.

(** ** Canonical events ([PointerData], [KeyData] of tool-system.ts) *)

Record PointerData := {
  point : Point;
  pressure : float;
  buttons : Z;
  pointerId : Z;
  pointerType : string;
  tiltX : Z;
  tiltY : Z;
  native : RawPointerEvent
}.

Record KeyData := {
  key : string;
  code : string;
  ctrl : bool;
  shift : bool;
  alt : bool;
  meta : bool;
  key_native : RawKeyboardEvent
}.

(** The [type] argument of [dispatchPointer] and of [dispatchKey]. *)
Inductive PointerKind := pointerdown | pointermove | pointerup.
Inductive KeyKind := keydown | keyup.

(** Values thrown by JavaScript code. *)
Inductive Exn :=
  | JsError (message : string)
  | JsTypeError (message : string).

(** ** PointerSessionManager (pointer-session.ts) *)

Module PointerSessionManager.

(** [private sessions: Map<number, PointerData[]>].  The arrays are
    modelled by value: [push] is [++ [data]]. *)
Abbreviation Sessions := (gmap Z (list PointerData)).

Definition new : Sessions := ∅.

(** [start(data)]: [this.sessions.set(data.pointerId, [data])]. *)
Definition start (data : PointerData) (sessions : Sessions) : Sessions :=
  <[pointerId data := [data]]> sessions.

(** [move(data)]: push onto the array of the pointer, if there is one. *)
Definition move (data : PointerData) (sessions : Sessions) : Sessions :=
  match sessions !! pointerId data with
  | Some arr => <[pointerId data := arr ++ [data]]> sessions
  | None => sessions
  end.

(** [end(data)]: push, delete the entry, return the array (or
    [undefined]). *)
Definition end_ (data : PointerData) (sessions : Sessions)
  : option (list PointerData) * Sessions :=
  match sessions !! pointerId data with
  | Some arr => (Some (arr ++ [data]), delete (pointerId data) sessions)
  | None => (None, sessions)
  end.

(** [get(pointerId)]. *)
Definition get (id : Z) (sessions : Sessions) : option (list PointerData) :=
  sessions !! id.

(** Calls the tracker receives between the [start] and the [end] of one
    contact: moves of that contact, and anything for other contacts. *)
Inductive Call :=
  | CStart (data : PointerData)
  | CMove (data : PointerData)
  | CEnd (data : PointerData).

Definition call_data (c : Call) : PointerData :=
  match c with CStart d | CMove d | CEnd d => d end.

Definition perform (c : Call) (sessions : Sessions) : Sessions :=
  match c with
  | CStart d => start d sessions
  | CMove d => move d sessions
  | CEnd d => snd (end_ d sessions)
  end.

Definition perform_all (cs : list Call) (sessions : Sessions) : Sessions :=
  foldl (fun ss c => perform c ss) sessions cs.

(** A call that neither opens nor closes the session of contact [id]. *)
Definition keeps_open (id : Z) (c : Call) : Prop :=
  match c with
  | CMove _ => True
  | CStart d | CEnd d => pointerId d ≠ id
  end.

(** The events a call sequence delivers for contact [id]. *)
Definition delivered (id : Z) (cs : list Call) : list PointerData :=
  call_data <$> filter (fun c => pointerId (call_data c) = id) cs.

End PointerSessionManager.

(** ** Tools, effects and the host machine (tool-system.ts) *)

(** The [name] property of a value handed to [register]. *)
Inductive JsName :=
  | NameString (s : string)   (* typeof name === "string" *)
  | NameNull
  | NameUndefined
  | NameOther (text : string). (* another value; [text] is its string form *)

(** A handler is tool-supplied code.  It runs on the state [W] it can reach
    outside the [ToolSystem]'s private fields (the tool's own state bag, the
    scene graph, ...) and either returns or throws, in both cases leaving a
    world behind.  Handlers are modelled as not calling back into [register]
    or [activate]. *)
Inductive HandlerResult (W : Type) :=
  | Returns (w : W)
  | Throws (err : Exn) (w : W).
Arguments Returns {W} w.
Arguments Throws {W} err w.

Record Colors := { primary : string; secondary : string }.

(** [interface Tool]: a name and a bag of optional handlers.  The name and
    the set of handlers of an instance are taken as fixed; what a tool keeps
    in its state bag is part of the world [W]. *)
Record Tool (W : Type) := {
  name : JsName;
  onPointerDown : option (PointerData -> W -> HandlerResult W);
  onPointerMove : option (PointerData -> W -> HandlerResult W);
  onPointerUp : option (PointerData -> W -> HandlerResult W);
  onKeyDown : option (KeyData -> W -> HandlerResult W);
  onKeyUp : option (KeyData -> W -> HandlerResult W);
  onActivate : option (W -> HandlerResult W);
  onDeactivate : option (W -> HandlerResult W);
  onColorChange : option (Colors -> W -> HandlerResult W)
}.
Arguments name {W} t.
Arguments onPointerDown {W} t.
Arguments onPointerMove {W} t.
Arguments onPointerUp {W} t.
Arguments onKeyDown {W} t.
Arguments onKeyUp {W} t.
Arguments onActivate {W} t.
Arguments onDeactivate {W} t.
Arguments onColorChange {W} t.

(** Which handler of a tool the host called, with its argument. *)
Inductive Hook :=
  | HActivate
  | HDeactivate
  | HPointer (type : PointerKind) (e : PointerData)
  | HKey (type : KeyKind) (e : KeyData).

(** The effects of the core on its surroundings, in the order they happen.
    [EvActiveSet] records the assignment [this.activeTool = next]. *)
Inductive Event (W : Type) :=
  | EvInvoke (t : Tool W) (h : Hook)
  | EvActiveSet (t : Tool W)
  | EvConsoleWarn (msg : string)
  | EvConsoleError (msg : string) (err : Exn)
  | EvPreventDefault
  | EvSetPointerCapture (id : Z)
  | EvProjectChanged.
Arguments EvInvoke {W} t h.
Arguments EvActiveSet {W} t.
Arguments EvConsoleWarn {W} msg.
Arguments EvConsoleError {W} msg err.
Arguments EvPreventDefault {W}.
Arguments EvSetPointerCapture {W} id.
Arguments EvProjectChanged {W}.

(** The object graph the input pipeline works on: the fields of the
    [ToolSystem] instance, the [PointerSessionManager] the [InputManager]
    owns (and installs as [toolSystem.sessionManager]), the world of the
    tools, and the effects so far (oldest first). *)
Record Machine (W : Type) := {
  tools : gmap string (Tool W);
  activeTool : option (Tool W);
  sessions : gmap Z (list PointerData);
  world : W;
  effects : list (Event W)
}.
Arguments tools {W} m.
Arguments activeTool {W} m.
Arguments sessions {W} m.
Arguments world {W} m.
Arguments effects {W} m.

(** How a call ends: normally with a value, or abruptly with a thrown
    value; either way in a machine state. *)
Inductive Completion (W A : Type) :=
  | Normal (a : A) (m : Machine W)
  | Abrupt (err : Exn) (m : Machine W).
Arguments Normal {W A} a m.
Arguments Abrupt {W A} err m.

Definition M (W A : Type) : Type := Machine W -> Completion W A.

Definition state_of {W A} (c : Completion W A) : Machine W :=
  match c with Normal _ m | Abrupt _ m => m end.

Section Monad.
Context {W : Type}.

Definition ret {A} (a : A) : M W A := fun m => Normal a m.

Definition bind {A B} (c : M W A) (k : A -> M W B) : M W B :=
  fun m => match c m with
           | Normal a m' => k a m'
           | Abrupt err m' => Abrupt err m'
           end.

(** [throw err]. *)
Definition throw {A} (err : Exn) : M W A := fun m => Abrupt err m.

(** [try { body } catch (err) { handler }]. *)
Definition try_catch {A} (body : M W A) (handler : Exn -> M W A) : M W A :=
  fun m => match body m with
           | Normal a m' => Normal a m'
           | Abrupt err m' => handler err m'
           end.

Definition read : M W (Machine W) := fun m => Normal m m.

Definition emit (e : Event W) : M W unit :=
  fun m => Normal tt
    {| tools := tools m; activeTool := activeTool m; sessions := sessions m;
       world := world m; effects := effects m ++ [e] |}.

Definition set_tools (ts : gmap string (Tool W)) : M W unit :=
  fun m => Normal tt
    {| tools := ts; activeTool := activeTool m; sessions := sessions m;
       world := world m; effects := effects m |}.

Definition set_activeTool (t : option (Tool W)) : M W unit :=
  fun m => Normal tt
    {| tools := tools m; activeTool := t; sessions := sessions m;
       world := world m; effects := effects m |}.

Definition set_sessions (ss : gmap Z (list PointerData)) : M W unit :=
  fun m => Normal tt
    {| tools := tools m; activeTool := activeTool m; sessions := ss;
       world := world m; effects := effects m |}.

Definition set_world (w : W) (m : Machine W) : Machine W :=
  {| tools := tools m; activeTool := activeTool m; sessions := sessions m;
     world := w; effects := effects m |}.

(** Running tool code: its effect on the world, and its completion. *)
Definition run_handler (h : W -> HandlerResult W) : M W unit :=
  fun m => match h (world m) with
           | Returns w => Normal tt (set_world w m)
           | Throws err w => Abrupt err (set_world w m)
           end.

End Monad.

Declare Scope js_scope.
Delimit Scope js_scope with js.
Notation "x <- c ;; k" := (bind c (fun x => k))
  (at level 100, c at next level, right associativity) : js_scope.
Notation "c ;; k" := (bind c (fun _ => k))
  (at level 100, right associativity) : js_scope.
Local Open Scope js_scope.

Definition dquote : string := String (Ascii.ascii_of_nat 34) EmptyString.

Module ToolSystem.
Section WithWorld.
Context {W : Type}.

(** [new ToolSystem()], in a given world. *)
Definition new (w : W) : Machine W :=
  {| tools := ∅; activeTool := None; sessions := ∅; world := w; effects := [] |}.

(** The host calls handler [h] of tool [t]. *)
Definition invoke (t : Tool W) (hook : Hook) (h : W -> HandlerResult W)
  : M W unit :=
  emit (EvInvoke t hook) ;; run_handler h.

(** [t.handler?.(e)]: call the handler if the tool has it. *)
Definition invoke_opt (t : Tool W) (hook : Hook)
    (h : option (W -> HandlerResult W)) : M W unit :=
  match h with
  | Some h => invoke t hook h
  | None => ret tt
  end.

(** [register(tool)].  The argument is [None] for a falsy [tool]. *)
Definition register (tool : option (Tool W)) : M W unit :=
  match tool with
  | Some t =>
      match name t with
      | NameString n =>
          if String.eqb n "" then
            throw (JsError "Tool must have a non-empty name property")
          else
            m <- read ;; set_tools (<[n := t]> (tools m))
      | _ => throw (JsError "Tool must have a non-empty name property")
      end
  | None => throw (JsError "Tool must have a non-empty name property")
  end.

(** [activate(name)]. *)
Definition activate (n : string) : M W unit :=
  m <- read ;;
  match tools m !! n with
  | None =>
      emit (EvConsoleWarn
              ("ToolSystem: Cannot activate unknown tool " +:+ dquote +:+ n
               +:+ dquote))
  | Some next =>
      (match activeTool m with
       | Some cur =>
           match onDeactivate cur with
           | Some h =>
               try_catch (invoke cur HDeactivate h)
                 (fun err => emit (EvConsoleError "Tool onDeactivate error" err))
           | None => ret tt
           end
       | None => ret tt
       end) ;;
      set_activeTool (Some next) ;;
      emit (EvActiveSet next) ;;
      match onActivate next with
      | Some h =>
          try_catch (invoke next HActivate h)
            (fun err => emit (EvConsoleError "Tool onActivate error" err))
      | None => ret tt
      end
  end.

(** [getActiveTool()]. *)
Definition getActiveTool (m : Machine W) : option (Tool W) := activeTool m.

(** [getActiveToolName()]: [this.activeTool?.name ?? null]. *)
Definition getActiveToolName (m : Machine W) : option JsName :=
  match activeTool m with
  | Some t =>
      match name t with
      | NameNull | NameUndefined => None
      | n => Some n
      end
  | None => None
  end.

(** [`${tool.name}`] in the messages of the dispatch helpers. *)
Definition name_text (t : Tool W) : string :=
  match name t with
  | NameString s => s
  | NameNull => "null"
  | NameUndefined => "undefined"
  | NameOther text => text
  end.

(** [dispatchPointer(type, e)]. *)
Definition dispatchPointer (type : PointerKind) (e : PointerData) : M W unit :=
  m <- read ;;
  match activeTool m with
  | None => ret tt
  | Some t =>
      try_catch
        (match type with
         | pointerdown =>
             invoke_opt t (HPointer type e) (option_map (fun h => h e) (onPointerDown t))
         | pointermove =>
             invoke_opt t (HPointer type e) (option_map (fun h => h e) (onPointerMove t))
         | pointerup =>
             invoke_opt t (HPointer type e) (option_map (fun h => h e) (onPointerUp t))
         end)
        (fun err =>
           emit (EvConsoleError
                   ("Tool (" +:+ name_text t +:+ ") pointer handler error") err))
  end.

(** [dispatchKey(type, e)]. *)
Definition dispatchKey (type : KeyKind) (e : KeyData) : M W unit :=
  m <- read ;;
  match activeTool m with
  | None => ret tt
  | Some t =>
      try_catch
        (match type with
         | keydown =>
             invoke_opt t (HKey type e) (option_map (fun h => h e) (onKeyDown t))
         | keyup =>
             invoke_opt t (HKey type e) (option_map (fun h => h e) (onKeyUp t))
         end)
        (fun err =>
           emit (EvConsoleError
                   ("Tool (" +:+ name_text t +:+ ") key handler error") err))
  end.

End WithWorld.
End ToolSystem.

(** ** InputManager (input-manager.ts) *)

Record DOMRect := {
  rect_left : float;
  rect_top : float;
  rect_width : float;
  rect_height : float
}.

(** What [InputManager] reads of its surroundings while it handles one
    event. *)
Record Window := {
  (* this.canvas.getBoundingClientRect() *)
  canvas_rect : DOMRect;
  (* window.view.viewToProject, when window.view is set *)
  view : option (Point -> Point);
  (* window.paperManager?.notifyProjectChanged is there to be called *)
  paperManager_notifies : bool
}.

Module InputManager.
Section WithWorld.
Context {W : Type}.

(** [makePointerData(ev)]. *)
Definition makePointerData (win : Window) (ev : RawPointerEvent) : PointerData :=
  let rect := canvas_rect win in
  let viewPoint :=
    {| pt_x := PrimFloat.sub (ev_clientX ev) (rect_left rect);
       pt_y := PrimFloat.sub (ev_clientY ev) (rect_top rect) |} in
  let projectPoint :=
    match view win with
    | Some viewToProject => viewToProject viewPoint
    | None => viewPoint
    end in
  {| point := projectPoint;
     pressure := match ev_pressure ev with Some p => p | None => 0%float end;
     buttons := ev_buttons ev;
     pointerId := ev_pointerId ev;
     pointerType := ev_pointerType ev;
     tiltX := ev_tiltX ev;
     tiltY := ev_tiltY ev;
     native := ev |}.

(** [shouldIgnore(ev)]. *)
Definition shouldIgnore (ev : RawPointerEvent) : bool :=
  match ev_target ev with
  | None => false
  | Some target => closest_draggable target || closest_outline_panel target
  end.

(** [ev.type === "pointercancel" ? "pointerup" : ev.type]. *)
Definition normalise (type : RawPointerType) : PointerKind :=
  match type with
  | RawPointerCancel => pointerup
  | RawPointerDown => pointerdown
  | RawPointerMove => pointermove
  | RawPointerUp => pointerup
  end.

(** [(ev.target as HTMLElement).setPointerCapture?.(ev.pointerId)]. *)
Definition capturePointer (ev : RawPointerEvent) : M W unit :=
  match ev_target ev with
  | None => throw (JsTypeError "Cannot read properties of null")
  | Some target =>
      if has_setPointerCapture target
      then emit (EvSetPointerCapture (ev_pointerId ev))
      else ret tt
  end.

(** The calls on [this.sessionManager]. *)
Definition sessionManager_start (data : PointerData) : M W unit :=
  m <- read ;; set_sessions (PointerSessionManager.start data (sessions m)).

Definition sessionManager_move (data : PointerData) : M W unit :=
  m <- read ;; set_sessions (PointerSessionManager.move data (sessions m)).

Definition sessionManager_end (data : PointerData)
  : M W (option (list PointerData)) :=
  m <- read ;;
  let r := PointerSessionManager.end_ data (sessions m) in
  set_sessions (snd r) ;; ret (fst r).

(** [window.paperManager?.notifyProjectChanged?.()]. *)
Definition notifyProjectChanged (win : Window) : M W unit :=
  if paperManager_notifies win then emit EvProjectChanged else ret tt.

(** [routePointer(ev)]. *)
Definition routePointer (win : Window) (ev : RawPointerEvent) : M W unit :=
  if shouldIgnore ev then ret tt
  else
    emit EvPreventDefault ;;
    (match ev_type ev with
     | RawPointerDown => capturePointer ev
     | _ => ret tt
     end) ;;
    let data := makePointerData win ev in
    let type := normalise (ev_type ev) in
    (match type with
     | pointerdown => sessionManager_start data
     | pointermove => sessionManager_move data
     | pointerup => sessionManager_end data ;; ret tt
     end) ;;
    ToolSystem.dispatchPointer type data ;;
    match type with
    | pointerdown | pointerup => notifyProjectChanged win
    | pointermove => ret tt
    end.

(** [makeKeyData(ev)]. *)
Definition makeKeyData (ev : RawKeyboardEvent) : KeyData :=
  {| key := kev_key ev;
     code := kev_code ev;
     ctrl := kev_ctrlKey ev;
     shift := kev_shiftKey ev;
     alt := kev_altKey ev;
     meta := kev_metaKey ev;
     key_native := ev |}.

Definition handleKeyDown (ev : RawKeyboardEvent) : M W unit :=
  ToolSystem.dispatchKey keydown (makeKeyData ev).

Definition handleKeyUp (ev : RawKeyboardEvent) : M W unit :=
  ToolSystem.dispatchKey keyup (makeKeyData ev).

End WithWorld.
End InputManager.

(** ** OverlayCanvas (overlay-canvas.ts) *)

(** The scene-graph items [importSVG] can produce. *)
#[warnings="-register-all"]
Inductive Item :=
  | Path (segments : list Point) (strokeColor fillColor : option string)
  | CompoundPath (children : list Item) (strokeColor fillColor : option string)
  | Group (children : list Item)
  | OtherItem.

Inductive ConsoleMsg :=
  | ConsoleLog (msg : string)
  | ConsoleWarn (msg : string)
  | ConsoleError (msg : string) (err : option Exn).

(** The overlay [<canvas>] element: its CSS box, the size of its bitmap and
    the bitmap itself, one RGBA word per pixel ([0] is transparent black). *)
Record CanvasElement := {
  style_box : option DOMRect;
  width : Z;
  height : Z;
  bitmap : list Z
}.

(** The state of a 2D context, as far as the overlay depends on it.
    [erasure] stands for the current transformation matrix and clipping
    region, through what they let [clearRect(0, 0, width, height)] do:
    [None] for the identity matrix and no clip, as in a new context, when
    the call covers the whole bitmap; [Some f] when the call leaves [f i v]
    in pixel number [i] (counted row by row) that held [v].  [origin_clean]
    is the flag of the bitmap that drawing a cross-origin image clears. *)
Record Context2D := {
  imageSmoothingEnabled : bool;
  erasure : option (nat -> Z -> Z);
  origin_clean : bool
}.

(** How a DOM call that can throw a [DOMException] ends. *)
Inductive Attempt (A : Type) :=
  | Got (a : A)
  | DOMException (name : string).
Arguments Got {A} a.
Arguments DOMException {A} name.

(** [window.potrace], as [traceToPaper] meets it. *)
Inductive PotraceFn :=
  | PotraceMissing                 (* typeof window.potrace !== "function" *)
  | PotraceThrows (err : Exn)      (* the call itself throws *)
  | PotracePromise.                (* the call returns a promise *)

(** How the awaited promise settles. *)
Inductive Settled :=
  | Resolved (svg : string)
  | Rejected (err : Exn).

(** [paper.project.importSVG(svg)]. *)
Inductive Import :=
  | Imported (item : option Item)
  | ImportThrows (err : Exn).

(** What [OverlayCanvas] reads of the page. *)
Record Page := {
  (* document.getElementById("paper-canvas")?.getBoundingClientRect() *)
  paper_canvas : option DOMRect;
  (* whether getContext("2d") yields a context for a new canvas *)
  context2d : bool;
  potrace : PotraceFn;
  importSVG : string -> Import;
  globalColors : option Colors
}.

Module OverlayCanvas.

(** The fields of an [OverlayCanvas], the project it imports into and the
    console. *)
Record State := {
  canvas : option CanvasElement;
  ctx : option Context2D;
  resizeListener : bool;
  scale : float;
  potraceOptions : string;
  project : list Item;
  console : list ConsoleMsg
}.

Definition with_console (msg : ConsoleMsg) (o : State) : State :=
  {| canvas := canvas o; ctx := ctx o; resizeListener := resizeListener o;
     scale := scale o; potraceOptions := potraceOptions o;
     project := project o; console := console o ++ [msg] |}.

Definition with_canvas (c : option CanvasElement) (o : State) : State :=
  {| canvas := c; ctx := ctx o; resizeListener := resizeListener o;
     scale := scale o; potraceOptions := potraceOptions o;
     project := project o; console := console o |}.

Definition with_ctx (c : option Context2D) (o : State) : State :=
  {| canvas := canvas o; ctx := c; resizeListener := resizeListener o;
     scale := scale o; potraceOptions := potraceOptions o;
     project := project o; console := console o |}.

Definition with_resizeListener (l : bool) (o : State) : State :=
  {| canvas := canvas o; ctx := ctx o; resizeListener := l;
     scale := scale o; potraceOptions := potraceOptions o;
     project := project o; console := console o |}.

Definition with_project (p : list Item) (o : State) : State :=
  {| canvas := canvas o; ctx := ctx o; resizeListener := resizeListener o;
     scale := scale o; potraceOptions := potraceOptions o;
     project := p; console := console o |}.

(** [new OverlayCanvas(scale, potraceOptions)]. *)
Definition new (scale : float) (potraceOptions : string) (project : list Item)
  : State :=
  {| canvas := None; ctx := None; resizeListener := false;
     scale := scale; potraceOptions := potraceOptions;
     project := project; console := [] |}.

(** Assigning a number to [canvas.width]: conversion to [unsigned long]
    (truncate, wrap modulo 2^32), with the attribute's default when the
    result exceeds 2^31 - 1. *)
Definition to_uint32 (x : float) : Z :=
  match Prim2SF x with
  | S754_finite s m e =>
      let mag := if (0 <=? e)%Z then (Z.pos m * 2 ^ e)%Z
                 else (Z.pos m / 2 ^ (- e))%Z in
      ((if s then - mag else mag) mod 2 ^ 32)%Z
  | _ => 0%Z
  end.

Definition dimension (default : Z) (x : float) : Z :=
  let n := to_uint32 x in
  if (2147483647 <? n)%Z then default else n.

Definition blank_bitmap (w h : Z) : list Z := repeat 0%Z (Z.to_nat (w * h)).

(** The context of a bitmap that was just created or resized (which resets
    the matrix, the clip and the origin-clean flag), once
    [imageSmoothingEnabled = false] is assigned. *)
Definition new_context : Context2D :=
  {| imageSmoothingEnabled := false; erasure := None; origin_clean := true |}.

(** [document.createElement("canvas")]. *)
Definition createElement_canvas : CanvasElement :=
  {| style_box := None; width := 300; height := 150;
     bitmap := blank_bitmap 300 150 |}.

(** [destroy()]. *)
Definition destroy (o : State) : State :=
  let o1 := match canvas o with
            | Some _ => with_ctx None (with_canvas None o)
            | None => o
            end in
  if resizeListener o1 then with_resizeListener false o1 else o1.

(** [updateSize()].  Assigning [width] or [height] resets the bitmap and
    the state of its context. *)
Definition updateSize (page : Page) (o : State) : State :=
  match paper_canvas page, canvas o with
  | Some rect, Some c =>
      let w := dimension 300 (PrimFloat.mul (rect_width rect) (scale o)) in
      let h := dimension 150 (PrimFloat.mul (rect_height rect) (scale o)) in
      let o1 := with_canvas
                  (Some {| style_box := Some rect; width := w; height := h;
                           bitmap := blank_bitmap w h |}) o in
      match ctx o1 with
      | Some _ => with_ctx (Some new_context) o1
      | None => o1
      end
  | _, _ => o
  end.

(** [create()]. *)
Definition create (page : Page) (o : State) : option Context2D * State :=
  match paper_canvas page with
  | None => (None, with_console (ConsoleWarn "Paper canvas not found") o)
  | Some _ =>
      let o1 := destroy o in
      let o2 := with_canvas (Some createElement_canvas) o1 in
      let o3 := updateSize page o2 in
      let o4 := if context2d page
                then with_ctx (Some new_context) o3
                else with_ctx None o3 in
      let o5 := with_resizeListener true o4 in
      let o6 := with_console (ConsoleLog "Overlay canvas created") o5 in
      (ctx o6, o6)
  end.

(** [paperToOverlay(point)]. *)
Definition paperToOverlay (o : State) (p : Point) : Point :=
  {| pt_x := PrimFloat.mul (pt_x p) (scale o);
     pt_y := PrimFloat.mul (pt_y p) (scale o) |}.

Definition getContext (o : State) : option Context2D := ctx o.
Definition getCanvas (o : State) : option CanvasElement := canvas o.
Definition getScale (o : State) : float := scale o.

(** [ctx.clearRect(0, 0, canvas.width, canvas.height)]: under the identity
    matrix and without a clip every pixel becomes transparent black;
    otherwise the pixels that the transformed and clipped rectangle does not
    cover stay. *)
Definition clearRect (c2d : Context2D) (c : CanvasElement) : CanvasElement :=
  {| style_box := style_box c; width := width c; height := height c;
     bitmap := match erasure c2d with
               | None => (fun _ => 0%Z) <$> bitmap c
               | Some f => imap f (bitmap c)
               end |}.

(** [clear()]. *)
Definition clear (o : State) : State :=
  match ctx o, canvas o with
  | Some c2d, Some c => with_canvas (Some (clearRect c2d c)) o
  | _, _ => o
  end.

(** [getImageData()].  [ctx.getImageData(0, 0, width, height)] throws an
    [IndexSizeError] when the width or the height is zero, and a
    [SecurityError] when the bitmap is not origin-clean; the bitmap is taken
    to fit into memory. *)
Definition getImageData (o : State) : Attempt (option (list Z)) :=
  match ctx o, canvas o with
  | Some c2d, Some c =>
      if (width c =? 0)%Z || (height c =? 0)%Z
      then DOMException "IndexSizeError"
      else if origin_clean c2d then Got (Some (bitmap c))
      else DOMException "SecurityError"
  | _, _ => Got None
  end.

(** A tool paints through the context it got from [create] or
    [getContext]: without a context nothing can be painted. *)
Definition paint (f : list Z -> list Z) (o : State) : State :=
  match ctx o, canvas o with
  | Some _, Some c =>
      with_canvas
        (Some {| style_box := style_box c; width := width c;
                 height := height c; bitmap := f (bitmap c) |}) o
  | _, _ => o
  end.

(** A tool changes the state of the context it holds ([translate],
    [scale], [clip], [drawImage] of a cross-origin image, ...). *)
Definition alter (c2d : Context2D) (o : State) : State :=
  match ctx o with
  | Some _ => with_ctx (Some c2d) o
  | None => o
  end.

(** [imported.scale(k, new paper.Point(0, 0))]. *)
Fixpoint scale_item (k : float) (it : Item) : Item :=
  let scale_point p :=
    {| pt_x := PrimFloat.mul (pt_x p) k; pt_y := PrimFloat.mul (pt_y p) k |} in
  match it with
  | Path segs sc fc => Path (scale_point <$> segs) sc fc
  | CompoundPath ch sc fc => CompoundPath (map (scale_item k) ch) sc fc
  | Group ch => Group (map (scale_item k) ch)
  | OtherItem => OtherItem
  end.

(** [applyColour(item)]. *)
Fixpoint applyColour (primary secondary : string) (it : Item) : Item :=
  match it with
  | Path segs _ _ => Path segs (Some primary) (Some secondary)
  | CompoundPath ch _ _ => CompoundPath ch (Some primary) (Some secondary)
  | Group ch => Group (map (applyColour primary secondary) ch)
  | OtherItem => OtherItem
  end.

(** [value || fallback] on strings: the empty string is falsy. *)
Definition or_default (value : option string) (fallback : string) : string :=
  match value with
  | Some s => if String.eqb s "" then fallback else s
  | None => fallback
  end.

(** How the [try] block of [traceToPaper] is left. *)
Inductive Outcome :=
  | Return (imported : option Item)
  | Raise (err : Exn).

(** The [try] block up to the [await]: [inl] when it is left before
    suspending, [inr] when the call is suspended on the promise. *)
Definition trace_until_await (page : Page) (o : State)
  : (Outcome * State) + State :=
  match getCanvas o with
  | None =>
      inl (Return None,
           with_console (ConsoleWarn "OverlayCanvas: No canvas to trace") o)
  | Some canvasEl =>
      match potrace page with
      | PotraceMissing =>
          inl (Return None,
               with_console
                 (ConsoleError "OverlayCanvas: Potrace is not initialised" None) o)
      | PotraceThrows err => inl (Raise err, o)
      | PotracePromise => inr o
      end
  end.

(** The [try] block from the settled promise on. *)
Definition trace_after_await (page : Page) (settled : Settled) (o : State)
  : Outcome * State :=
  match settled with
  | Rejected err => (Raise err, o)
  | Resolved svg =>
      match importSVG page svg with
      | ImportThrows err => (Raise err, o)
      | Imported None => (Return None, o)
      | Imported (Some imported) =>
          let scaled := scale_item (PrimFloat.div 1 (getScale o)) imported in
          let primary :=
            or_default (primary <$> globalColors page) "#007acc" in
          let secondary :=
            or_default (secondary <$> globalColors page) "#ff6b6b" in
          let coloured := applyColour primary secondary scaled in
          (Return (Some coloured), with_project (project o ++ [coloured]) o)
      end
  end.

(** [catch (err) { console.error(...); return null; } finally { this.clear(); }] *)
Definition catch_finally (r : Outcome * State) : option Item * State :=
  match r with
  | (Return imported, o) => (imported, clear o)
  | (Raise err, o) =>
      (None,
       clear (with_console
                (ConsoleError "OverlayCanvas: Potrace vectorisation failed"
                   (Some err)) o))
  end.

(** [traceToPaper()].  [settled] is how the promise of the tracer settles
    and [meanwhile] what happens to the overlay while the call is
    suspended. *)
Definition traceToPaper (page : Page) (settled : Settled)
    (meanwhile : State -> State) (o : State) : option Item * State :=
  match trace_until_await page o with
  | inl r => catch_finally r
  | inr o1 => catch_finally (trace_after_await page settled (meanwhile o1))
  end.

(** What can happen to an overlay: the calls of its interface, a resize
    notification, what a tool does with the context it holds (painting,
    changing the state of the context), and whole trace calls. *)
Inductive Step :=
  | SCreate (page : Page)
  | SResize (page : Page)
  | SClear
  | SDestroy
  | SPaint (f : list Z -> list Z)
  | SAlter (c2d : Context2D)
  | STrace (page : Page) (settled : Settled).

Definition step (s : Step) (o : State) : State :=
  match s with
  | SCreate page => snd (create page o)
  | SResize page => if resizeListener o then updateSize page o else o
  | SClear => clear o
  | SDestroy => destroy o
  | SPaint f => paint f o
  | SAlter c2d => alter c2d o
  | STrace page settled => snd (traceToPaper page settled id o)
  end.

Definition steps (l : list Step) (o : State) : State :=
  foldl (fun o s => step s o) o l.

(** The overlay shows nothing: it has no canvas, or every pixel of its
    bitmap is transparent black. *)
Definition cleared (o : State) : Prop :=
  match canvas o with
  | Some c => Forall (fun px => px = 0%Z) (bitmap c)
  | None => True
  end.



(** The context of the overlay, if it has one, has the matrix and the clip
    of a new context. *)
Definition untransformed (o : State) : Prop :=
  forall c2d, ctx o = Some c2d -> erasure c2d = None.


End OverlayCanvas.

(** ** Vocabulary of the properties *)

Section Observations.
Context {W : Type}.

(** The handler calls among a list of effects. *)
Definition invoked (e : Event W) : option (Tool W * Hook) :=
  match e with
  | EvInvoke t h => Some (t, h)
  | _ => None
  end.

Definition invocations (es : list (Event W)) : list (Tool W * Hook) :=
  omap invoked es.

Definition is_projectChanged (e : Event W) : bool :=
  match e with EvProjectChanged => true | _ => false end.

(** The effects added between machine state [m] and a later state [m']. *)
Definition new_effects (m m' : Machine W) : list (Event W) :=
  drop (length (effects m)) (effects m').

(** What the host is seen to do when it calls an optional handler [h] of
    tool [t] in world [w] inside a [try] whose [catch] reports on the
    console with [msg]: nothing without a handler; otherwise the call, and
    the report if the handler throws. *)
Definition guarded_call (t : Tool W) (hook : Hook) (msg : string)
    (h : option (W -> HandlerResult W)) (w : W) : list (Event W) :=
  match h with
  | None => []
  | Some h =>
      EvInvoke t hook ::
      match h w with
      | Returns _ => []
      | Throws err _ => [EvConsoleError msg err]
      end
  end.

(** The world an optional handler leaves behind. *)
Definition world_after (h : option (W -> HandlerResult W)) (w : W) : W :=
  match h with
  | None => w
  | Some h => match h w with Returns w' | Throws _ w' => w' end
  end.

(** The handler of a tool for a kind of pointer or key event. *)
Definition pointer_handler (t : Tool W) (type : PointerKind)
  : option (PointerData -> W -> HandlerResult W) :=
  match type with
  | pointerdown => onPointerDown t
  | pointermove => onPointerMove t
  | pointerup => onPointerUp t
  end.

Definition key_handler (t : Tool W) (type : KeyKind)
  : option (KeyData -> W -> HandlerResult W) :=
  match type with
  | keydown => onKeyDown t
  | keyup => onKeyUp t
  end.

(** Every registry entry sits under its own name: the invariant that
    [register] is the only writer of the registry gives. *)
Definition well_keyed (m : Machine W) : Prop :=
  forall n t, tools m !! n = Some t -> name t = NameString n.

(** [def.uniqueName] is a non-empty string. *)
Definition registrable (tool : option (Tool W)) : Prop :=
  exists t n, tool = Some t /\ name t = NameString n /\ n <> "".

(** Two canonical events that agree on everything but the raw event they
    pass through. *)
Definition same_canonical (d d' : PointerData) : Prop :=
  point d = point d' /\ pressure d = pressure d' /\ buttons d = buttons d' /\
  pointerId d = pointerId d' /\ pointerType d = pointerType d' /\
  tiltX d = tiltX d' /\ tiltY d = tiltY d'.

(** Two effects that are the same up to the raw event carried along. *)
Definition same_effect (e e' : Event W) : Prop :=
  match e, e' with
  | EvInvoke t (HPointer k d), EvInvoke t' (HPointer k' d') =>
      t = t' /\ k = k' /\ same_canonical d d'
  | _, _ => e = e'
  end.

(** A tool whose pointer-up handler treats the raw event as opaque. *)
Definition native_opaque (t : Tool W) : Prop :=
  forall h d d' w,
    onPointerUp t = Some h -> same_canonical d d' -> h d w = h d' w.

End Observations.

Section Expectations.
Context {W : Type}.

(** Machine [m] with active tool [a] and world [w], after the further
    effects [es]. *)
Definition evolved (m : Machine W) (a : option (Tool W)) (w : W)
    (es : list (Event W)) : Machine W :=
  {| tools := tools m; activeTool := a; sessions := sessions m;
     world := w; effects := effects m ++ es |}.

(** The handler call to expect for an optional handler. *)
Definition expected_call {H : Type} (t : Tool W) (hook : Hook) (h : option H)
  : list (Tool W * Hook) :=
  match h with
  | Some _ => [(t, hook)]
  | None => []
  end.

(** What deactivating the active tool of [m] (if any) is seen to do, and
    the world it leaves. *)
Definition deactivation_effects (m : Machine W) : list (Event W) :=
  match activeTool m with
  | Some cur =>
      guarded_call cur HDeactivate "Tool onDeactivate error"
        (onDeactivate cur) (world m)
  | None => []
  end.

Definition world_deactivated (m : Machine W) : W :=
  match activeTool m with
  | Some cur => world_after (onDeactivate cur) (world m)
  | None => world m
  end.

(** What activating [next] is seen to do in world [w]. *)
Definition activation_effects (next : Tool W) (w : W) : list (Event W) :=
  guarded_call next HActivate "Tool onActivate error" (onActivate next) w.

Definition unknown_tool_warning (n : string) : Event W :=
  EvConsoleWarn
    ("ToolSystem: Cannot activate unknown tool " +:+ dquote +:+ n +:+ dquote).

End Expectations.

Section Routing.
Context {W : Type}.

(** The pointer capture [routePointer] is seen to request for [ev]. *)
Definition capture_effects (ev : RawPointerEvent) : list (Event W) :=
  match ev_type ev, ev_target ev with
  | RawPointerDown, Some target =>
      if has_setPointerCapture target
      then [EvSetPointerCapture (ev_pointerId ev)] else []
  | _, _ => []
  end.

(** The call on the session tracker for a canonical event of a kind. *)
Definition session_update (type : PointerKind) (data : PointerData)
    (ss : gmap Z (list PointerData)) : gmap Z (list PointerData) :=
  match type with
  | pointerdown => PointerSessionManager.start data ss
  | pointermove => PointerSessionManager.move data ss
  | pointerup => snd (PointerSessionManager.end_ data ss)
  end.

(** The machine at the moment [routePointer] calls [dispatchPointer]. *)
Definition before_dispatch (win : Window) (ev : RawPointerEvent)
    (m : Machine W) : Machine W :=
  {| tools := tools m; activeTool := activeTool m;
     sessions :=
       session_update (InputManager.normalise (ev_type ev))
         (InputManager.makePointerData win ev) (sessions m);
     world := world m;
     effects := effects m ++ EvPreventDefault :: capture_effects ev |}.

(** The notification to expect after the dispatch of an event of a kind. *)
Definition expected_notification (type : PointerKind) : list (Event W) :=
  match type with
  | pointerdown | pointerup => [EvProjectChanged]
  | pointermove => []
  end.

End Routing.

(** The raw event [ev] with another [type]. *)
Definition with_type (type : RawPointerType) (ev : RawPointerEvent)
  : RawPointerEvent :=
  {| ev_type := type; ev_target := ev_target ev;
     ev_clientX := ev_clientX ev; ev_clientY := ev_clientY ev;
     ev_pressure := ev_pressure ev; ev_buttons := ev_buttons ev;
     ev_pointerId := ev_pointerId ev; ev_pointerType := ev_pointerType ev;
     ev_tiltX := ev_tiltX ev; ev_tiltY := ev_tiltY ev |}.

(** [0 <= x <= 1] on doubles. *)
Definition in_unit_interval (x : float) : bool :=
  PrimFloat.leb 0 x && PrimFloat.leb x 1.

(** The raw pressure reading, when there is one, is within the range the
    platform documents for it. *)
Definition raw_pressure_in_range (ev : RawPointerEvent) : Prop :=
  match ev_pressure ev with
  | Some p => in_unit_interval p = true
  | None => True
  end.

(** ** Sample inputs *)

Module Samples.

Definition canvas_target : Target :=
  {| closest_draggable := false; closest_outline_panel := false;
     has_setPointerCapture := true |}.

Definition raw (type : RawPointerType) (id : Z) (x y : float)
    (p : option float) : RawPointerEvent :=
  {| ev_type := type; ev_target := Some canvas_target;
     ev_clientX := x; ev_clientY := y; ev_pressure := p;
     ev_buttons := 1; ev_pointerId := id; ev_pointerType := "pen";
     ev_tiltX := 0; ev_tiltY := 0 |}.

Definition win : Window :=
  {| canvas_rect := {| rect_left := 10; rect_top := 20;
                       rect_width := 800; rect_height := 600 |};
     view := None;
     paperManager_notifies := true |}.

Definition data (type : RawPointerType) (id : Z) (x y : float) : PointerData :=
  InputManager.makePointerData win (raw type id x y (Some 0.5%float)).

(** A world that counts the handler calls that reached it. *)
Definition counting (_ : PointerData) (w : nat) : HandlerResult nat :=
  Returns (S w).

Definition failing (_ : PointerData) (w : nat) : HandlerResult nat :=
  Throws (JsError "boom") w.

Definition brush : Tool nat :=
  {| name := NameString "Brush";
     onPointerDown := Some counting;
     onPointerMove := Some counting;
     onPointerUp := Some counting;
     onKeyDown := None; onKeyUp := None;
     onActivate := Some (fun w => Returns (w + 100));
     onDeactivate := Some (fun w => Returns (w + 1000));
     onColorChange := None |}.

(** A second instance under the same name, with other handlers. *)
Definition brush2 : Tool nat :=
  {| name := NameString "Brush";
     onPointerDown := Some failing;
     onPointerMove := None;
     onPointerUp := Some counting;
     onKeyDown := None; onKeyUp := None;
     onActivate := Some (fun w => Throws (JsError "activation failed") w);
     onDeactivate := Some (fun w => Throws (JsError "deactivation failed") w);
     onColorChange := None |}.

Definition nameless : Tool nat :=
  {| name := NameString "";
     onPointerDown := None; onPointerMove := None; onPointerUp := None;
     onKeyDown := None; onKeyUp := None;
     onActivate := None; onDeactivate := None; onColorChange := None |}.

(** A host with [brush] registered and active. *)
Definition host : Machine nat :=
  {| tools := {[ "Brush" := brush ]}; activeTool := Some brush;
     sessions := ∅; world := 0; effects := [] |}.

(** A host with [brush2] registered and active. *)
Definition host2 : Machine nat :=
  {| tools := {[ "Brush" := brush2 ]}; activeTool := Some brush2;
     sessions := ∅; world := 0; effects := [] |}.

Definition down7 : PointerData := data RawPointerDown 7 30 40.
Definition move7 : PointerData := data RawPointerMove 7 31 42.
Definition up7 : PointerData := data RawPointerUp 7 33 45.

Definition host_rect : DOMRect :=
  {| rect_left := 0; rect_top := 0; rect_width := 16; rect_height := 8 |}.

Definition traced_item : Item :=
  Group [Path [ {| pt_x := 1; pt_y := 2 |} ] None None; OtherItem].

(** A page with a host canvas and an initialised tracer. *)
Definition page : Page :=
  {| paper_canvas := Some host_rect; context2d := true;
     potrace := PotracePromise;
     importSVG := fun _ => Imported (Some traced_item);
     globalColors := None |}.

Definition scribble (bm : list Z) : list Z := (fun _ => 255%Z) <$> bm.

(** An overlay that was created and painted on. *)
Definition painted_overlay : list OverlayCanvas.Step :=
  [OverlayCanvas.SCreate page; OverlayCanvas.SPaint scribble].

End Samples.

(** ** Further vocabulary: what the tracker is expected to hold *)

Module SessionModel.
Import PointerSessionManager.

(** The contacts that are down after a call, given those down before it:
    a start brings one down, an end lifts it, a move changes nothing. *)
Definition live_after (c : Call) (ids : gset Z) : gset Z :=
  match c with
  | CStart d => {[pointerId d]} ∪ ids
  | CMove _ => ids
  | CEnd d => ids ∖ {[pointerId d]}
  end.

Definition live (cs : list Call) (ids : gset Z) : gset Z :=
  foldl (fun ids c => live_after c ids) ids cs.

(** A well-formed history of contact [id]: at least one event, and every
    event is of that contact. *)
Definition session_ok (id : Z) (arr : list PointerData) : Prop :=
  arr ≠ [] /\ Forall (fun e => pointerId e = id) arr.

Definition sessions_ok (ss : Sessions) : Prop :=
  forall id arr, ss !! id = Some arr -> session_ok id arr.

(** A call that is not about contact [id]. *)
Definition about_other (id : Z) (c : Call) : Prop :=
  pointerId (call_data c) ≠ id.

End SessionModel.

(** ** Further vocabulary: histories of calls on the tool host *)

Section HostCalls.
Context {W : Type}.

(** A call on the public interface of [ToolSystem]. *)
Inductive HostCall :=
  | CallRegister (tool : option (Tool W))
  | CallActivate (n : string)
  | CallDispatchPointer (type : PointerKind) (e : PointerData)
  | CallDispatchKey (type : KeyKind) (e : KeyData).

Definition host_call (c : HostCall) : M W unit :=
  match c with
  | CallRegister tool => ToolSystem.register tool
  | CallActivate n => ToolSystem.activate n
  | CallDispatchPointer type e => ToolSystem.dispatchPointer type e
  | CallDispatchKey type e => ToolSystem.dispatchKey type e
  end.

(** A history of calls; a call that throws leaves the host in the state it
    threw in, and the next call goes on from there. *)
Definition host_calls (cs : list HostCall) (m : Machine W) : Machine W :=
  foldl (fun m c => state_of (host_call c m)) m cs.

End HostCalls.

(** ** The colour panel's deferred notification (components/color-panel.ts) *)

Module ColorPanel.
Section WithWorld.
Context {W : Type}.

(** The body of the timer callback of [notifyColorChange]: the active
    tool's [onColorChange], if it has one, is called directly, and then the
    project-changed notification is sent. *)
Definition colorChangeCallback (win : Window) (colors : Colors) : M W unit :=
  m <- read ;;
  (match ToolSystem.getActiveTool m with
   | Some tool =>
       match onColorChange tool with
       | Some h => run_handler (h colors)
       | None => ret tt
       end
   | None => ret tt
   end) ;;
  InputManager.notifyProjectChanged win.

End WithWorld.
End ColorPanel.

(** ** Further vocabulary: streams of pointer events *)

Section Streams.
Context {W : Type}.

(** The listener runs once per event; an event whose handling throws
    leaves the machine in the state it threw in, and later events are
    handled from there. *)
Definition route_stream (win : Window) (evs : list RawPointerEvent)
    (m : Machine W) : Machine W :=
  foldl (fun m ev => state_of (InputManager.routePointer win ev m)) m evs.

(** An event that reaches the tracker and the tool: it is not ignored and,
    if it is a pointerdown, it has a target to capture the pointer on. *)
Definition deliverable (ev : RawPointerEvent) : Prop :=
  InputManager.shouldIgnore ev = false /\
  (ev_type ev = RawPointerDown -> ev_target ev <> None).

(** The call on the tracker that an event stands for. *)
Definition tracker_call (win : Window) (ev : RawPointerEvent)
  : PointerSessionManager.Call :=
  match InputManager.normalise (ev_type ev) with
  | pointerdown =>
      PointerSessionManager.CStart (InputManager.makePointerData win ev)
  | pointermove =>
      PointerSessionManager.CMove (InputManager.makePointerData win ev)
  | pointerup =>
      PointerSessionManager.CEnd (InputManager.makePointerData win ev)
  end.

(** The handler call of tool [t] that an event stands for. *)
Definition routed_call (t : Tool W) (win : Window) (ev : RawPointerEvent)
  : list (Tool W * Hook) :=
  expected_call t
    (HPointer (InputManager.normalise (ev_type ev))
       (InputManager.makePointerData win ev))
    (pointer_handler t (InputManager.normalise (ev_type ev))).

Definition routed_calls (active : option (Tool W)) (win : Window)
    (evs : list RawPointerEvent) : list (Tool W * Hook) :=
  match active with
  | Some t => concat (map (routed_call t win) evs)
  | None => []
  end.

(** What the dispatch of an event adds to the effects, and the world it
    leaves, in machine [m]. *)
Definition dispatch_effects (type : PointerKind) (data : PointerData)
    (m : Machine W) : list (Event W) :=
  match activeTool m with
  | Some t =>
      guarded_call t (HPointer type data)
        ("Tool (" +:+ ToolSystem.name_text t +:+ ") pointer handler error")
        (option_map (fun h => h data) (pointer_handler t type)) (world m)
  | None => []
  end.

Definition dispatch_world (type : PointerKind) (data : PointerData)
    (m : Machine W) : W :=
  match activeTool m with
  | Some t =>
      world_after (option_map (fun h => h data) (pointer_handler t type))
        (world m)
  | None => world m
  end.

(** The number of project-changed notifications among some effects. *)
Definition notifications (es : list (Event W)) : nat :=
  length (List.filter is_projectChanged es).

(** The number of pointerdown, pointerup and pointercancel events. *)
Definition presses_and_releases (evs : list RawPointerEvent) : nat :=
  length (List.filter
            (fun ev => match ev_type ev with
                       | RawPointerMove => false
                       | _ => true
                       end) evs).

End Streams.

(** One contact, from press to release: a pointerdown, any number of
    pointermoves and a pointerup or pointercancel, all deliverable and all
    of pointer [id]. *)
Definition gesture (id : Z) (down : RawPointerEvent)
    (moves : list RawPointerEvent) (fin : RawPointerEvent) : Prop :=
  Forall (fun ev => deliverable ev /\ ev_pointerId ev = id)
    (down :: moves ++ [fin]) /\
  ev_type down = RawPointerDown /\
  Forall (fun ev => ev_type ev = RawPointerMove) moves /\
  (ev_type fin = RawPointerUp \/ ev_type fin = RawPointerCancel).

(** ** Further vocabulary: imported items and overlay histories *)

(** The stroke and fill colours of the nodes [applyColour] is after: the
    paths and compound paths reached from the root through groups. *)
Fixpoint paint_targets (it : Item) : list (option string * option string) :=
  match it with
  | Path _ sc fc => [(sc, fc)]
  | CompoundPath _ sc fc => [(sc, fc)]
  | Group ch => concat (map paint_targets ch)
  | OtherItem => []
  end.

(** The item without the colours of those nodes: its shape and geometry,
    and whatever lies inside compound paths. *)
Fixpoint uncoloured (it : Item) : Item :=
  match it with
  | Path segs _ _ => Path segs None None
  | CompoundPath ch _ _ => CompoundPath ch None None
  | Group ch => Group (map uncoloured ch)
  | OtherItem => OtherItem
  end.

(** The colours [traceToPaper] applies on a page. *)
Definition page_primary (page : Page) : string :=
  OverlayCanvas.or_default (primary <$> globalColors page) "#007acc".

Definition page_secondary (page : Page) : string :=
  OverlayCanvas.or_default (secondary <$> globalColors page) "#ff6b6b".

(** An overlay is set up or torn down as a whole. *)
Definition overlay_consistent (o : OverlayCanvas.State) : Prop :=
  (OverlayCanvas.canvas o = None -> OverlayCanvas.ctx o = None) /\
  (OverlayCanvas.resizeListener o = true <-> OverlayCanvas.canvas o <> None).

(** The pixel size of the overlay, if it has a canvas. *)
Definition overlay_size (o : OverlayCanvas.State) : option (Z * Z) :=
  (fun c => (width c, height c)) <$> OverlayCanvas.canvas o.

(** ** PaperManager (paper-manager.ts): listeners and the tool loader *)

(** [interface ToolTemplate] of types.ts. *)
Record ToolTemplate := {
  template_name : string;
  template_description : string;
  template_code : string
}.

(** What the manager holds as the code of a tool: a string, or [undefined]
    when it took the [code] property of a value that has none. *)
Inductive JsCode :=
  | Code (text : string)
  | CodeUndefined.
Coercion Code : string >-> JsCode.

Module PaperManager.

(** [PaperManagerEventType] and the event objects handed to listeners. *)
Inductive EventType := toolChanged | codeChanged | error | projectChanged.

Inductive Payload :=
  | ToolChanged (toolName : string) (code : JsCode)
  | CodeChanged (code : string)
  | Error (message : string)
  | ProjectChanged.

Definition type_eqb (a b : EventType) : bool :=
  match a, b with
  | toolChanged, toolChanged | codeChanged, codeChanged
  | error, error | projectChanged, projectChanged => true
  | _, _ => false
  end.

(** An entry of [eventListeners]: the object [{ type, callback }].  The
    callback is a function of the page; [callback_id] stands for its
    identity, the thing [===] compares, and [callback] is what it does: it
    changes the world and returns or throws.  Callbacks are taken not to
    call back into the manager or the tool host. *)
Record Listener (W : Type) := {
  listener_type : EventType;
  callback_id : nat;
  callback : Payload -> W -> HandlerResult W
}.
Arguments listener_type {W} l.
Arguments callback_id {W} l.
Arguments callback {W} l.

(** What the function compiled from a tool's source returns. *)
Inductive Produced (W : Type) :=
  | NoObject                                  (* not an object, or null *)
  | AnObject (t : Tool W) (other_name_truthy : bool).
Arguments NoObject {W}.
Arguments AnObject {W} t other_name_truthy.

(** Compiling and running a tool's source ([new Function(...)] and the call
    of the result): it may change the world, and returns or throws.  The
    source is handed [toolSystem]; it is taken not to register or activate
    tools itself, as the templates of the repository do not. *)
Inductive FactoryResult (W : Type) :=
  | Built (v : Produced W) (w : W)
  | FactoryThrows (err : Exn) (w : W).
Arguments Built {W} v w.
Arguments FactoryThrows {W} err w.

(** What [PaperManager] reads of its surroundings: the object
    [TOOL_TEMPLATES] and the JavaScript engine.  [templates] holds the
    templates, which are the object's own properties.  [inherited n] says
    that [n] is none of them but names a property the object inherits from
    [Object.prototype] ([toString], [constructor], ...), so that
    [TOOL_TEMPLATES[n]] is that value: it is truthy and has no [code]. *)
Record Loader (W : Type) := {
  templates : string -> option ToolTemplate;
  inherited : string -> bool;
  compile : string -> W -> FactoryResult W
}.
Arguments templates {W} l.
Arguments inherited {W} l.
Arguments compile {W} l.

(** The fields of a [PaperManager], the tool host it shares, and the
    callbacks called so far (oldest first). *)
Record State (W : Type) := {
  host : Machine W;
  currentToolName : option string;
  currentCode : JsCode;
  eventListeners : list (Listener W);
  calls : list (nat * Payload)
}.
Arguments host {W} s.
Arguments currentToolName {W} s.
Arguments currentCode {W} s.
Arguments eventListeners {W} s.
Arguments calls {W} s.

Inductive Outcome (W A : Type) :=
  | Completed (a : A) (s : State W)
  | Thrown (err : Exn) (s : State W).
Arguments Completed {W A} a s.
Arguments Thrown {W A} err s.

Definition PM (W A : Type) : Type := State W -> Outcome W A.

Definition final {W A} (r : Outcome W A) : State W :=
  match r with Completed _ s | Thrown _ s => s end.

Section WithWorld.
Context {W : Type}.

Definition pm_ret {A} (a : A) : PM W A := fun s => Completed a s.

Definition pm_bind {A B} (c : PM W A) (k : A -> PM W B) : PM W B :=
  fun s => match c s with
           | Completed a s' => k a s'
           | Thrown err s' => Thrown err s'
           end.

Definition pm_throw {A} (err : Exn) : PM W A := fun s => Thrown err s.

Definition pm_try {A} (body : PM W A) (handler : Exn -> PM W A) : PM W A :=
  fun s => match body s with
           | Completed a s' => Completed a s'
           | Thrown err s' => handler err s'
           end.

Definition with_host (m : Machine W) (s : State W) : State W :=
  {| host := m; currentToolName := currentToolName s;
     currentCode := currentCode s; eventListeners := eventListeners s;
     calls := calls s |}.

(** A call on the tool host or on the world, from inside the manager. *)
Definition on_host {A} (c : M W A) : PM W A :=
  fun s => match c (host s) with
           | Normal a m => Completed a (with_host m s)
           | Abrupt err m => Thrown err (with_host m s)
           end.

Definition set_currentToolName (n : option string) : PM W unit :=
  fun s => Completed tt
    {| host := host s; currentToolName := n; currentCode := currentCode s;
       eventListeners := eventListeners s; calls := calls s |}.

Definition set_currentCode (code : JsCode) : PM W unit :=
  fun s => Completed tt
    {| host := host s; currentToolName := currentToolName s;
       currentCode := code; eventListeners := eventListeners s;
       calls := calls s |}.

Definition set_eventListeners (ls : list (Listener W)) (s : State W) : State W :=
  {| host := host s; currentToolName := currentToolName s;
     currentCode := currentCode s; eventListeners := ls; calls := calls s |}.

Definition record_call (id : nat) (p : Payload) : PM W unit :=
  fun s => Completed tt
    {| host := host s; currentToolName := currentToolName s;
       currentCode := currentCode s; eventListeners := eventListeners s;
       calls := calls s ++ [(id, p)] |}.

(** [new PaperManager(canvas)] on a tool host. *)
Definition new (m : Machine W) : State W :=
  {| host := m; currentToolName := None; currentCode := "";
     eventListeners := []; calls := [] |}.

(** [addEventListener(type, callback)]: a new entry, also when the same
    callback is already registered for the type. *)
Definition addEventListener (type : EventType) (id : nat)
    (cb : Payload -> W -> HandlerResult W) (s : State W) : State W :=
  set_eventListeners
    (eventListeners s ++
     [{| listener_type := type; callback_id := id; callback := cb |}]) s.

(** [removeEventListener(type, callback)]: every entry of that type with
    that callback goes. *)
Definition removeEventListener (type : EventType) (id : nat) (s : State W)
  : State W :=
  set_eventListeners
    (List.filter
       (fun l => negb (type_eqb (listener_type l) type &&
                       Nat.eqb (callback_id l) id))
       (eventListeners s)) s.

(** [listener.callback(event)]. *)
Definition call_listener (l : Listener W) (p : Payload) : PM W unit :=
  pm_bind (record_call (callback_id l) p)
    (fun _ => on_host (run_handler (callback l p))).

(** [this.eventListeners.forEach(listener => { if (listener.type === type)
    listener.callback(event) })]. *)
Fixpoint notify_each (type : EventType) (p : Payload) (ls : list (Listener W))
  : PM W unit :=
  match ls with
  | [] => pm_ret tt
  | l :: ls =>
      pm_bind
        (if type_eqb (listener_type l) type then call_listener l p
         else pm_ret tt)
        (fun _ => notify_each type p ls)
  end.

Definition notify (type : EventType) (p : Payload) : PM W unit :=
  fun s => notify_each type p (eventListeners s) s.

Definition notifyToolChanged (toolName : string) (code : JsCode) : PM W unit :=
  notify toolChanged (ToolChanged toolName code).

Definition notifyCodeChanged (code : string) : PM W unit :=
  notify codeChanged (CodeChanged code).

Definition notifyError (message : string) : PM W unit :=
  notify error (Error message).

Definition notifyProjectChanged : PM W unit :=
  notify projectChanged ProjectChanged.

(** [error instanceof Error ? error.message : "Unknown error"]; the thrown
    values of the model are all errors. *)
Definition error_message (err : Exn) : string :=
  match err with
  | JsError message | JsTypeError message => message
  end.

(** Whether [toolObj.name] is truthy; [other] says so for a value that is
    neither a string nor null nor undefined. *)
Definition name_truthy (n : JsName) (other : bool) : bool :=
  match n with
  | NameString s => negb (String.eqb s "")
  | NameNull | NameUndefined => false
  | NameOther _ => other
  end.

(** Running the compiled source. *)
Definition run_factory (f : W -> FactoryResult W) : PM W (Produced W) :=
  fun s => match f (world (host s)) with
           | Built v w => Completed v (with_host (set_world w (host s)) s)
           | FactoryThrows err w =>
               Thrown err (with_host (set_world w (host s)) s)
           end.

(** [new Function("paper", "project", "view", "toolSystem", `${code}`)] and
    the call of the function.  The text of [undefined] is the program
    [undefined], which does nothing and returns [undefined]. *)
Definition compile_source (ld : Loader W) (code : JsCode)
  : W -> FactoryResult W :=
  match code with
  | Code text => compile ld text
  | CodeUndefined => fun w => Built NoObject w
  end.

(** [executeCode(code)]. *)
Definition executeCode (ld : Loader W) (code : JsCode) : PM W unit :=
  pm_try
    (pm_bind (set_currentCode code) (fun _ =>
     pm_bind (run_factory (compile_source ld code)) (fun maybeTool =>
     match maybeTool with
     | AnObject toolObj other =>
         if name_truthy (name toolObj) other then
           pm_bind (on_host (ToolSystem.register (Some toolObj))) (fun _ =>
           pm_bind
             (match name toolObj with
              | NameString n => on_host (ToolSystem.activate n)
              | _ => pm_ret tt
              end) (fun _ =>
           notifyProjectChanged))
         else pm_ret tt
     | NoObject => pm_ret tt
     end)))
    (fun err =>
       pm_bind
         (on_host (emit (EvConsoleError "Error executing custom tool code:" err)))
         (fun _ => notifyError (error_message err))).

(** [updateCode(code)]. *)
Definition updateCode (ld : Loader W) (code : string) : PM W unit :=
  pm_bind (executeCode ld code) (fun _ => notifyCodeChanged code).

(** [TOOL_TEMPLATES[toolName]], by the [code] of what it yields: [None]
    when the lookup yields [undefined]. *)
Definition template_found (ld : Loader W) (toolName : string)
  : option JsCode :=
  match templates ld toolName with
  | Some template => Some (Code (template_code template))
  | None => if inherited ld toolName then Some CodeUndefined else None
  end.

(** [loadTool(toolName)].  [cleanup()] removes the tools of the scene-graph
    library, which are not part of this state. *)
Definition loadTool (ld : Loader W) (toolName : string) : PM W unit :=
  pm_try
    (match template_found ld toolName with
     | None =>
         pm_throw
           (JsError ("Tool " +:+ dquote +:+ toolName +:+ dquote +:+ " not found"))
     | Some code =>
         pm_bind (set_currentToolName (Some toolName)) (fun _ =>
         pm_bind (set_currentCode code) (fun _ =>
         pm_bind (fun s => executeCode ld (currentCode s) s) (fun _ =>
         fun s => notifyToolChanged toolName (currentCode s) s)))
     end)
    (fun err =>
       pm_bind (on_host (emit (EvConsoleError "Error loading tool:" err)))
         (fun _ => notifyError (error_message err))).

Definition getCurrentCode (s : State W) : JsCode := currentCode s.
Definition getCurrentToolName (s : State W) : option string := currentToolName s.

(** The callbacks a notification is to reach: those registered for the
    type, in the order of registration. *)
Definition deliveries (type : EventType) (p : Payload)
    (ls : list (Listener W)) : list (nat * Payload) :=
  (fun l => (callback_id l, p)) <$>
  List.filter (fun l => type_eqb (listener_type l) type) ls.

(** The callbacks called between state [s] and a later state [s']. *)
Definition new_calls (s s' : State W) : list (nat * Payload) :=
  drop (length (calls s)) (calls s').

(** State [s] once [code] is stored and the host has become [m]. *)
Definition loaded (s : State W) (code : JsCode) (m : Machine W) : State W :=
  {| host := m; currentToolName := currentToolName s; currentCode := code;
     eventListeners := eventListeners s; calls := calls s |}.

(** A listener entry for callback [id] and events of [type]. *)
Definition registered_for (type : EventType) (id : nat) (l : Listener W)
  : Prop :=
  listener_type l = type /\ callback_id l = id.

(** What a state keeps while callbacks run: everything but the world and
    the record of calls. *)
Definition same_but_world (s s' : State W) : Prop :=
  tools (host s') = tools (host s) /\
  activeTool (host s') = activeTool (host s) /\
  sessions (host s') = sessions (host s) /\
  effects (host s') = effects (host s) /\
  currentToolName s' = currentToolName s /\
  currentCode s' = currentCode s /\
  eventListeners s' = eventListeners s.

(** State [s'] comes after [s] by callbacks and console reports only:
    fields, registry, active tool and sessions are the same, and the host
    effects added are console errors. *)
Definition reported_after (s s' : State W) : Prop :=
  tools (host s') = tools (host s) /\
  activeTool (host s') = activeTool (host s) /\
  sessions (host s') = sessions (host s) /\
  currentToolName s' = currentToolName s /\
  currentCode s' = currentCode s /\
  eventListeners s' = eventListeners s /\
  exists es,
    effects (host s') = effects (host s) ++ es /\
    Forall (fun e => exists msg err, e = EvConsoleError msg err) es.

End WithWorld.
End PaperManager.

(** ** Further sample inputs *)

Module Samples2.

(** Registering and activating the brush on a new host. *)
Definition history : list (HostCall (W:=nat)) :=
  [CallRegister (Some Samples.brush); CallActivate "Brush";
   CallDispatchPointer pointerdown Samples.down7].

(** A tool that cannot take a colour change. *)
Definition tinted : Tool nat :=
  {| name := NameString "Tinted";
     onPointerDown := None; onPointerMove := None; onPointerUp := None;
     onKeyDown := None; onKeyUp := None;
     onActivate := None; onDeactivate := None;
     onColorChange := Some (fun _ w => Throws (JsError "no colour") w) |}.

Definition host_tinted : Machine nat :=
  {| tools := {[ "Tinted" := tinted ]}; activeTool := Some tinted;
     sessions := ∅; world := 0; effects := [] |}.

Definition colors : Colors := {| primary := "#000000"; secondary := "" |}.

Definition down : RawPointerEvent := Samples.raw RawPointerDown 7 30 40 None.
Definition move : RawPointerEvent := Samples.raw RawPointerMove 7 31 42 None.
Definition cancel : RawPointerEvent := Samples.raw RawPointerCancel 7 33 45 None.

(** A pointerdown that has no target. *)
Definition stray_down : RawPointerEvent :=
  {| ev_type := RawPointerDown; ev_target := None;
     ev_clientX := 0; ev_clientY := 0; ev_pressure := None;
     ev_buttons := 1; ev_pointerId := 9; ev_pointerType := "mouse";
     ev_tiltX := 0; ev_tiltY := 0 |}.

(** A page without the host canvas. *)
Definition bare_page : Page :=
  {| paper_canvas := None; context2d := true; potrace := PotracePromise;
     importSVG := fun _ => Imported None; globalColors := None |}.

Definition painted : OverlayCanvas.State :=
  OverlayCanvas.steps Samples.painted_overlay (OverlayCanvas.new 0.25 "" []).


Definition eraser : Tool nat :=
  {| name := NameString "Eraser";
     onPointerDown := None; onPointerMove := Some Samples.counting;
     onPointerUp := None; onKeyDown := None; onKeyUp := None;
     onActivate := Some (fun w => Returns (w + 1));
     onDeactivate := None; onColorChange := None |}.

(** An engine that knows three sources and rejects every other one. *)
Definition loader : PaperManager.Loader nat :=
  {| PaperManager.templates := fun n =>
       if String.eqb n "brush"
       then Some {| template_name := "Brush";
                    template_description := "Free-hand drawing tool";
                    template_code := "brush" |}
       else None;
     PaperManager.inherited := fun n =>
       String.eqb n "toString" || String.eqb n "constructor";
     PaperManager.compile := fun code w =>
       if String.eqb code "brush"
       then PaperManager.Built (PaperManager.AnObject Samples.brush true) w
       else if String.eqb code "eraser"
       then PaperManager.Built (PaperManager.AnObject eraser true) w
       else if String.eqb code "nothing"
       then PaperManager.Built PaperManager.NoObject (S w)
       else PaperManager.FactoryThrows (JsError "Unexpected token") w |}.

(** A manager on the sample host with one listener of each type. *)
Definition manager : PaperManager.State nat :=
  PaperManager.addEventListener PaperManager.toolChanged 4
    (fun _ w => Returns w)
    (PaperManager.addEventListener PaperManager.codeChanged 3
       (fun _ w => Returns w)
       (PaperManager.addEventListener PaperManager.projectChanged 2
          (fun _ w => Returns w)
          (PaperManager.addEventListener PaperManager.error 1
             (fun _ w => Returns (w + 10))
             (PaperManager.new Samples.host)))).

(** [manager] once [loadTool] has stored a template's name and code. *)
Definition manager_with (toolName code : string) : PaperManager.State nat :=
  {| PaperManager.host := PaperManager.host manager;
     PaperManager.currentToolName := Some toolName;
     PaperManager.currentCode := code;
     PaperManager.eventListeners := PaperManager.eventListeners manager;
     PaperManager.calls := PaperManager.calls manager |}.


(** A page whose host canvas is 3 x 3 pixels: at a quarter of the
    resolution the overlay has no pixel. *)
Definition tiny_rect : DOMRect :=
  {| rect_left := 0; rect_top := 0; rect_width := 3; rect_height := 3 |}.

Definition tiny_page : Page :=
  {| paper_canvas := Some tiny_rect; context2d := true;
     potrace := PotracePromise;
     importSVG := fun _ => Imported None; globalColors := None |}.


(** An error listener that throws, and one registered after it. *)
Definition failing_listener : PaperManager.Listener nat :=
  {| PaperManager.listener_type := PaperManager.error;
     PaperManager.callback_id := 5;
     PaperManager.callback := fun _ w => Throws (JsError "listener failed") w |}.

Definition later_listener : PaperManager.Listener nat :=
  {| PaperManager.listener_type := PaperManager.error;
     PaperManager.callback_id := 6;
     PaperManager.callback := fun _ w => Returns (w + 1) |}.

Definition manager_failing : PaperManager.State nat :=
  PaperManager.set_eventListeners [failing_listener; later_listener]
    (PaperManager.new Samples.host).

(** A tool whose pointer-up handler looks at the raw event it is handed:
    [if (e.native.type === "pointercancel") ... else ...]. *)
Definition native_reader : Tool nat :=
  {| name := NameString "Reader";
     onPointerDown := Some Samples.counting;
     onPointerMove := None;
     onPointerUp :=
       Some (fun e w =>
               match ev_type (native e) with
               | RawPointerCancel => Returns (w + 1000)
               | _ => Returns (w + 1)
               end);
     onKeyDown := None; onKeyUp := None;
     onActivate := None; onDeactivate := None; onColorChange := None |}.

Definition host_reader : Machine nat :=
  {| tools := {[ "Reader" := native_reader ]};
     activeTool := Some native_reader;
     sessions := ∅; world := 0; effects := [] |}.

End Samples2.

(** * Properties *)

(** ** Pointer sessions *)

Module PointerSessionFacts.
Import PointerSessionManager.

Lemma perform_all_cons c cs (ss : Sessions) :
  perform_all (c :: cs) ss = perform_all cs (perform c ss).
Proof. reflexivity. Qed.

Lemma delivered_cons id c cs :
  delivered id (c :: cs) =
  if decide (pointerId (call_data c) = id)
  then call_data c :: delivered id cs else delivered id cs.
Proof.
  unfold delivered. rewrite filter_cons.
  destruct (decide (pointerId (call_data c) = id)); reflexivity.
Qed.

(** While no call opens or closes the session of contact [id], the tracked
    array grows by exactly the events delivered for [id], in order. *)
Lemma perform_all_open id cs : forall (ss : Sessions) arr,
  Forall (keeps_open id) cs ->
  ss !! id = Some arr ->
  perform_all cs ss !! id = Some (arr ++ delivered id cs).
Proof.
  induction cs as [|c cs IH]; intros ss arr Hopen Hid.
  - cbn. rewrite app_nil_r. exact Hid.
  - inversion Hopen as [|? ? Hc Hcs]; subst.
    rewrite perform_all_cons, delivered_cons.
    destruct c as [d|d|d]; cbn [call_data perform keeps_open] in *.
    + rewrite decide_False by exact Hc.
      apply IH; [exact Hcs|].
      unfold start. rewrite lookup_insert_ne by exact Hc. exact Hid.
    + destruct (decide (pointerId d = id)) as [Heq|Hne].
      * unfold move. rewrite Heq, Hid.
        rewrite (IH _ (arr ++ [d])); [|exact Hcs|apply lookup_insert_eq].
        rewrite <- app_assoc. reflexivity.
      * apply IH; [exact Hcs|].
        unfold move. destruct (ss !! pointerId d); [|exact Hid].
        rewrite lookup_insert_ne by exact Hne. exact Hid.
    + rewrite decide_False by exact Hc.
      apply IH; [exact Hcs|].
      unfold end_. destruct (ss !! pointerId d); cbn [snd]; [|exact Hid].
      rewrite lookup_delete_ne by exact Hc. exact Hid.
Qed.

Lemma moves_as_calls (moves : list PointerData) : forall ss : Sessions,
  foldl (fun ss e => move e ss) ss moves = perform_all (CMove <$> moves) ss.
Proof.
  induction moves as [|e moves IH]; intros ss; [reflexivity|].
  cbn. rewrite IH. reflexivity.
Qed.

Lemma delivered_moves id (moves : list PointerData) :
  Forall (fun e => pointerId e = id) moves ->
  delivered id (CMove <$> moves) = moves.
Proof.
  induction 1 as [|e moves He _ IH]; [reflexivity|].
  rewrite fmap_cons, delivered_cons. cbn [call_data].
  rewrite decide_True by exact He. rewrite IH. reflexivity.
Qed.

Lemma moves_keep_open id (moves : list PointerData) :
  Forall (keeps_open id) (CMove <$> moves).
Proof. apply Forall_fmap, Forall_forall. intros; exact I. Qed.

(** The same holds when events of other contacts are interleaved: the
    session handed back holds the events of its own contact only. *)
Theorem end_returns_session_interleaved id e0 cs en (ss : Sessions) :
  pointerId e0 = id -> pointerId en = id ->
  Forall (keeps_open id) cs ->
  let tracked := perform_all cs (start e0 ss) in
  fst (end_ en tracked) = Some (e0 :: delivered id cs ++ [en]) /\
  get id (snd (end_ en tracked)) = None.
Proof.
  intros H0 Hn Hopen tracked.
  assert (Htr : tracked !! id = Some ([e0] ++ delivered id cs)).
  { apply perform_all_open; [exact Hopen|].
    unfold start. rewrite H0. apply lookup_insert_eq. }
  unfold end_, get. rewrite Hn, Htr. cbn [fst snd]. split.
  - reflexivity.
  - apply lookup_delete_eq.
Qed.

(** C2: [start(e0)], [move(e1)] ... [move(e_{n-1})], [end(e_n)] for one
    pointer id makes [end] return exactly [e0; e1; ...; e_n], terminal event
    last, and [get] of that id is absent afterwards; [end] without a session
    returns absent and leaves the tracked state as it was. *)
Theorem end_returns_whole_session id e0 (moves : list PointerData) en
    (ss : Sessions) :
  pointerId e0 = id ->
  Forall (fun e => pointerId e = id) moves ->
  pointerId en = id ->
  let tracked := foldl (fun ss e => move e ss) (start e0 ss) moves in
  fst (end_ en tracked) = Some (e0 :: moves ++ [en]) /\
  get id (snd (end_ en tracked)) = None /\
  (forall e (ss' : Sessions),
     get (pointerId e) ss' = None -> end_ e ss' = (None, ss')).
Proof.
  intros H0 Hmoves Hn tracked.
  assert (Htr : tracked !! id = Some ([e0] ++ moves)).
  { unfold tracked. rewrite moves_as_calls.
    rewrite <- (delivered_moves id moves Hmoves) at 2.
    apply perform_all_open; [apply moves_keep_open|].
    unfold start. rewrite H0. apply lookup_insert_eq. }
  repeat split.
  - unfold end_. rewrite Hn, Htr. reflexivity.
  - unfold end_, get. rewrite Hn, Htr. cbn [snd]. apply lookup_delete_eq.
  - intros e ss' Hnone. unfold end_, get in *. rewrite Hnone. reflexivity.
Qed.

Lemma end_returns_whole_session_witness :
  fst (end_ Samples.up7
         (foldl (fun ss e => move e ss) (start Samples.down7 new)
            [Samples.move7])) =
    Some [Samples.down7; Samples.move7; Samples.up7] /\
  get 7 (snd (end_ Samples.up7
                (foldl (fun ss e => move e ss) (start Samples.down7 new)
                   [Samples.move7]))) = None /\
  end_ Samples.up7 new = (None, new).
Proof.
  destruct (end_returns_whole_session 7 Samples.down7 [Samples.move7]
              Samples.up7 new)
    as (Hseq & Hgone & Hnone);
    [reflexivity | repeat constructor | reflexivity |].
  split; [exact Hseq|]. split; [exact Hgone|].
  apply Hnone. reflexivity.
Defined.

End PointerSessionFacts.

(** ** The tool host *)

Module ToolSystemFacts.
Import ToolSystem.

Ltac run_js :=
  unfold try_catch, invoke_opt, invoke, bind, emit, run_handler, read, ret,
    throw, set_tools, set_activeTool, set_sessions, set_world, evolved;
  cbn.

Section WithWorld.
Context {W : Type}.
Implicit Types (m : Machine W) (t next cur : Tool W).

Lemma evolved_nothing m : evolved m (activeTool m) (world m) [] = m.
Proof. destruct m. unfold evolved. cbn. rewrite app_nil_r. reflexivity. Qed.

Lemma evolved_twice m a w es a' w' es' :
  evolved (evolved m a w es) a' w' es' = evolved m a' w' (es ++ es').
Proof. unfold evolved. cbn. rewrite app_assoc. reflexivity. Qed.

Lemma new_effects_evolved m a w es : new_effects m (evolved m a w es) = es.
Proof. unfold new_effects, evolved. cbn. apply drop_app_length. Qed.

Lemma new_effects_since m m1 a w es :
  effects m1 = effects m -> new_effects m (evolved m1 a w es) = es.
Proof.
  intros He. unfold new_effects, evolved. cbn. rewrite He.
  apply drop_app_length.
Qed.

Lemma invocations_app (es es' : list (Event W)) :
  invocations (es ++ es') = invocations es ++ invocations es'.
Proof. unfold invocations. apply omap_app. Qed.

Lemma invocations_guarded_call t hook msg h (w : W) :
  invocations (guarded_call t hook msg h w) = expected_call t hook h.
Proof.
  destruct h as [h|]; [|reflexivity].
  unfold guarded_call. destruct (h w); reflexivity.
Qed.

(** A handler call under [try]/[catch] always completes normally. *)
Lemma guarded_run t hook msg (h : W -> HandlerResult W) m :
  try_catch (invoke t hook h) (fun err => emit (EvConsoleError msg err)) m =
  Normal tt
    (evolved m (activeTool m) (world_after (Some h) (world m))
       (guarded_call t hook msg (Some h) (world m))).
Proof.
  run_js. destruct (h (world m)) as [w|err w]; cbn.
  - reflexivity.
  - rewrite <- app_assoc. reflexivity.
Qed.

Lemma guarded_opt_run t hook msg (h : option (W -> HandlerResult W)) m :
  match h with
  | Some h =>
      try_catch (invoke t hook h) (fun err => emit (EvConsoleError msg err))
  | None => ret tt
  end m =
  Normal tt
    (evolved m (activeTool m) (world_after h (world m))
       (guarded_call t hook msg h (world m))).
Proof.
  destruct h as [h|].
  - apply guarded_run.
  - unfold ret. cbn. rewrite evolved_nothing. reflexivity.
Qed.

(** [activate] of a registered name, step by step. *)
Lemma activate_known n next m :
  tools m !! n = Some next ->
  activate n m =
  Normal tt
    (evolved m (Some next)
       (world_after (onActivate next) (world_deactivated m))
       (deactivation_effects m ++ [EvActiveSet next] ++
        activation_effects next (world_deactivated m))).
Proof.
  intros Hn.
  unfold activate, deactivation_effects, world_deactivated,
    activation_effects, guarded_call, world_after.
  run_js. rewrite Hn.
  destruct (activeTool m) as [cur|];
    [destruct (onDeactivate cur) as [hd|]; [destruct (hd (world m))|]|];
    cbn;
    (destruct (onActivate next) as [ha|]; cbn;
     [match goal with |- context [ha ?w] => destruct (ha w) end; cbn|]);
    rewrite <- ?app_assoc; reflexivity.
Qed.

Lemma activate_unknown n m :
  tools m !! n = None ->
  activate n m =
  Normal tt (evolved m (activeTool m) (world m) [unknown_tool_warning n]).
Proof.
  intros Hn. unfold activate, bind, read. rewrite Hn. reflexivity.
Qed.

Lemma register_valid t n m :
  name t = NameString n -> n <> "" ->
  register (Some t) m =
  Normal tt
    {| tools := <[n := t]> (tools m); activeTool := activeTool m;
       sessions := sessions m; world := world m; effects := effects m |}.
Proof.
  intros Hname Hne. unfold register. rewrite Hname.
  destruct (String.eqb_spec n ""); [contradiction|]. reflexivity.
Qed.

Lemma register_invalid tool m :
  ~ registrable tool ->
  register tool m =
  Abrupt (JsError "Tool must have a non-empty name property") m.
Proof.
  intros Hbad. unfold register.
  destruct tool as [t|]; [|reflexivity].
  destruct (name t) as [n| | |] eqn:Hname; try reflexivity.
  destruct (String.eqb_spec n ""); [reflexivity|].
  exfalso. apply Hbad. exists t, n. auto.
Qed.

(** [dispatchPointer] and [dispatchKey] with an active tool. *)
Lemma dispatchPointer_active t type e m :
  activeTool m = Some t ->
  dispatchPointer type e m =
  Normal tt
    (evolved m (Some t)
       (world_after (option_map (fun h => h e) (pointer_handler t type)) (world m))
       (guarded_call t (HPointer type e)
          ("Tool (" +:+ name_text t +:+ ") pointer handler error")
          (option_map (fun h => h e) (pointer_handler t type)) (world m))).
Proof.
  intros Ht. unfold dispatchPointer, bind at 1, read. rewrite Ht.
  rewrite <- Ht.
  destruct type; cbn [pointer_handler];
    match goal with
    | |- context [option_map ?f ?o] => destruct o as [h|]; cbn [option_map]
    end;
    try apply guarded_run;
    unfold try_catch, invoke_opt, ret; cbn; rewrite evolved_nothing;
    reflexivity.
Qed.

Lemma dispatchKey_active t type e m :
  activeTool m = Some t ->
  dispatchKey type e m =
  Normal tt
    (evolved m (Some t)
       (world_after (option_map (fun h => h e) (key_handler t type)) (world m))
       (guarded_call t (HKey type e)
          ("Tool (" +:+ name_text t +:+ ") key handler error")
          (option_map (fun h => h e) (key_handler t type)) (world m))).
Proof.
  intros Ht. unfold dispatchKey, bind at 1, read. rewrite Ht.
  rewrite <- Ht.
  destruct type; cbn [key_handler];
    match goal with
    | |- context [option_map ?f ?o] => destruct o as [h|]; cbn [option_map]
    end;
    try apply guarded_run;
    unfold try_catch, invoke_opt, ret; cbn; rewrite evolved_nothing;
    reflexivity.
Qed.

Lemma dispatchPointer_idle type e m :
  activeTool m = None -> dispatchPointer type e m = Normal tt m.
Proof. intros Ht. unfold dispatchPointer, bind, read. rewrite Ht. reflexivity. Qed.

Lemma dispatchKey_idle type e m :
  activeTool m = None -> dispatchKey type e m = Normal tt m.
Proof. intros Ht. unfold dispatchKey, bind, read. rewrite Ht. reflexivity. Qed.

Lemma getActiveToolName_named t n m :
  activeTool m = Some t -> name t = NameString n ->
  getActiveToolName m = Some (NameString n).
Proof. intros Ht Hn. unfold getActiveToolName. rewrite Ht, Hn. reflexivity. Qed.

(** [well_keyed] is an invariant of the host. *)
Lemma well_keyed_new (w : W) : well_keyed (new w).
Proof. intros n t H. cbn in H. rewrite lookup_empty in H. discriminate. Qed.

Lemma well_keyed_register tool m :
  well_keyed m -> well_keyed (state_of (register tool m)).
Proof.
  intros Hwk. unfold register.
  destruct tool as [t|]; [|exact Hwk].
  destruct (name t) as [n| | |] eqn:Hname; try exact Hwk.
  destruct (String.eqb n ""); [exact Hwk|].
  cbn. intros n' t'. cbn. rewrite lookup_insert.
  destruct (decide (n = n')) as [->|Hne]; cbn.
  - intros [= <-]. exact Hname.
  - apply Hwk.
Qed.

Lemma well_keyed_activate n m :
  well_keyed m -> well_keyed (state_of (activate n m)).
Proof.
  intros Hwk. destruct (tools m !! n) as [next|] eqn:Hn.
  - rewrite (activate_known _ _ _ Hn). exact Hwk.
  - rewrite (activate_unknown _ _ Hn). exact Hwk.
Qed.

Lemma well_keyed_dispatchPointer type e m :
  well_keyed m -> well_keyed (state_of (ToolSystem.dispatchPointer type e m)).
Proof.
  intros Hwk. destruct (activeTool m) as [t|] eqn:Ht.
  - rewrite (dispatchPointer_active t) by exact Ht. exact Hwk.
  - rewrite dispatchPointer_idle by exact Ht. exact Hwk.
Qed.

Lemma well_keyed_dispatchKey type e m :
  well_keyed m -> well_keyed (state_of (ToolSystem.dispatchKey type e m)).
Proof.
  intros Hwk. destruct (activeTool m) as [t|] eqn:Ht.
  - rewrite (dispatchKey_active t) by exact Ht. exact Hwk.
  - rewrite dispatchKey_idle by exact Ht. exact Hwk.
Qed.

(** C3: [activate] of a registered name calls the deactivation handler of
    the currently active tool (if any), then sets the active slot, then
    calls the activation handler of the new tool; after re-registering a
    tool under the active tool's name, [activate] of that name calls
    deactivation then activation exactly once each, and
    [getActiveToolName] then returns that name. *)
Theorem activate_cycles_lifecycle :
  (forall n next m,
     tools m !! n = Some next ->
     exists m',
       activate n m = Normal tt m' /\
       new_effects m m' =
         deactivation_effects m ++ [EvActiveSet next] ++
         activation_effects next (world_deactivated m) /\
       invocations (new_effects m m') =
         match activeTool m with
         | Some cur => expected_call cur HDeactivate (onDeactivate cur)
         | None => []
         end ++ expected_call next HActivate (onActivate next) /\
       activeTool m' = Some next) /\
  (forall n old new m,
     activeTool m = Some old -> name old = NameString n ->
     name new = NameString n -> n <> "" ->
     exists m1 m2,
       register (Some new) m = Normal tt m1 /\
       activate n m1 = Normal tt m2 /\
       invocations (new_effects m m2) =
         expected_call old HDeactivate (onDeactivate old) ++
         expected_call new HActivate (onActivate new) /\
       getActiveToolName m2 = Some (NameString n)).
Proof.
  split.
  - intros n next m Hn. eexists. split; [apply activate_known, Hn|].
    rewrite new_effects_evolved. repeat split.
    rewrite !invocations_app. unfold deactivation_effects, activation_effects.
    rewrite invocations_guarded_call.
    destruct (activeTool m) as [cur|]; [|reflexivity].
    rewrite invocations_guarded_call. reflexivity.
  - intros n old new m Hold Hnold Hnnew Hne.
    eexists. eexists. split; [apply register_valid; eassumption|].
    split; [apply activate_known; cbn; apply lookup_insert_eq|].
    split.
    + rewrite new_effects_since by reflexivity.
      rewrite !invocations_app.
      unfold deactivation_effects, activation_effects.
      cbn [activeTool world]. rewrite Hold.
      rewrite !invocations_guarded_call. reflexivity.
    + eapply getActiveToolName_named; [reflexivity|exact Hnnew].
Qed.

(** C7: [activate] of a name that is not in the registry reports an
    error, leaves the active slot as it was ([getActiveToolName] returns
    what it returned before) and calls no handler. *)
Theorem activate_unknown_name n m :
  tools m !! n = None ->
  exists m',
    activate n m = Normal tt m' /\
    new_effects m m' = [unknown_tool_warning n] /\
    getActiveToolName m' = getActiveToolName m /\
    getActiveTool m' = getActiveTool m /\
    tools m' = tools m /\
    world m' = world m /\
    invocations (new_effects m m') = [].
Proof.
  intros Hn. eexists. split; [apply activate_unknown, Hn|].
  rewrite new_effects_evolved. repeat split.
Qed.

(** C10: once the name is found in the registry the switch completes:
    the active slot holds the new tool, and [getActiveTool] and
    [getActiveToolName] return it and its name, also when its activation
    handler throws (the slot is set before the call, the error is reported)
    and also when the deactivation handler of the outgoing tool throws. *)
Theorem activate_survives_throwing_hooks n next m :
  well_keyed m ->
  tools m !! n = Some next ->
  exists m',
    activate n m = Normal tt m' /\
    getActiveTool m' = Some next /\
    getActiveToolName m' = Some (NameString n) /\
    (forall h err w,
       onActivate next = Some h ->
       h (world_deactivated m) = Throws err w ->
       new_effects m m' =
         deactivation_effects m ++
         [EvActiveSet next; EvInvoke next HActivate;
          EvConsoleError "Tool onActivate error" err]) /\
    (forall cur h err w,
       activeTool m = Some cur ->
       onDeactivate cur = Some h ->
       h (world m) = Throws err w ->
       new_effects m m' =
         [EvInvoke cur HDeactivate;
          EvConsoleError "Tool onDeactivate error" err;
          EvActiveSet next] ++ activation_effects next w).
Proof.
  intros Hwk Hn. eexists. split; [apply activate_known, Hn|].
  rewrite new_effects_evolved. split; [reflexivity|]. split.
  - eapply getActiveToolName_named; [reflexivity|]. exact (Hwk _ _ Hn).
  - split.
    + intros h err w Hh Hthrow.
      unfold activation_effects, guarded_call. rewrite Hh, Hthrow.
      reflexivity.
    + intros cur h err w Hcur Hh Hthrow.
      unfold deactivation_effects, world_deactivated, guarded_call, world_after.
      rewrite Hcur, Hh, Hthrow. reflexivity.
Qed.

(** C4: [dispatchPointer] and [dispatchKey] never let an exception of the
    tool's handler through; after a handler has thrown the same tool is
    still active and the next dispatch reaches its handler; without an
    active tool both do nothing. *)
Theorem dispatch_isolates_handler_errors :
  (forall m type e,
     exists m', dispatchPointer type e m = Normal tt m' /\
       activeTool m' = activeTool m /\ tools m' = tools m) /\
  (forall m type e,
     exists m', dispatchKey type e m = Normal tt m' /\
       activeTool m' = activeTool m /\ tools m' = tools m) /\
  (forall m t type e h err w,
     activeTool m = Some t ->
     pointer_handler t type = Some h ->
     h e (world m) = Throws err w ->
     exists m',
       dispatchPointer type e m = Normal tt m' /\
       getActiveTool m' = Some t /\
       new_effects m m' =
         [EvInvoke t (HPointer type e);
          EvConsoleError
            ("Tool (" +:+ name_text t +:+ ") pointer handler error") err] /\
       forall type2 e2 h2,
         pointer_handler t type2 = Some h2 ->
         exists m'',
           dispatchPointer type2 e2 m' = Normal tt m'' /\
           invocations (new_effects m' m'') = [(t, HPointer type2 e2)] /\
           world m'' = world_after (Some (h2 e2)) (world m')) /\
  (forall m t type e h err w,
     activeTool m = Some t ->
     key_handler t type = Some h ->
     h e (world m) = Throws err w ->
     exists m',
       dispatchKey type e m = Normal tt m' /\
       getActiveTool m' = Some t /\
       new_effects m m' =
         [EvInvoke t (HKey type e);
          EvConsoleError
            ("Tool (" +:+ name_text t +:+ ") key handler error") err] /\
       forall type2 e2 h2,
         key_handler t type2 = Some h2 ->
         exists m'',
           dispatchKey type2 e2 m' = Normal tt m'' /\
           invocations (new_effects m' m'') = [(t, HKey type2 e2)] /\
           world m'' = world_after (Some (h2 e2)) (world m')) /\
  (forall m,
     activeTool m = None ->
     (forall type e, dispatchPointer type e m = Normal tt m) /\
     (forall type e, dispatchKey type e m = Normal tt m)).
Proof.
  repeat split.
  - intros m type e. destruct (activeTool m) as [t|] eqn:Ht.
    + eexists. split; [apply dispatchPointer_active, Ht|]. split; reflexivity.
    + eexists. split; [apply dispatchPointer_idle, Ht|]. split; [|reflexivity].
      exact Ht.
  - intros m type e. destruct (activeTool m) as [t|] eqn:Ht.
    + eexists. split; [apply dispatchKey_active, Ht|]. split; reflexivity.
    + eexists. split; [apply dispatchKey_idle, Ht|]. split; [|reflexivity].
      exact Ht.
  - intros m t type e h err w Ht Hh Hthrow.
    eexists. split; [apply dispatchPointer_active, Ht|].
    rewrite new_effects_evolved, Hh. cbn [option_map guarded_call].
    rewrite Hthrow. repeat split.
    intros type2 e2 h2 Hh2.
    eexists. split; [apply dispatchPointer_active; reflexivity|].
    rewrite new_effects_evolved, invocations_guarded_call, Hh2.
    split; reflexivity.
  - intros m t type e h err w Ht Hh Hthrow.
    eexists. split; [apply dispatchKey_active, Ht|].
    rewrite new_effects_evolved, Hh. cbn [option_map guarded_call].
    rewrite Hthrow. repeat split.
    intros type2 e2 h2 Hh2.
    eexists. split; [apply dispatchKey_active; reflexivity|].
    rewrite new_effects_evolved, invocations_guarded_call, Hh2.
    split; reflexivity.
  - intros type e. apply dispatchPointer_idle. assumption.
  - intros type e. apply dispatchKey_idle. assumption.
Qed.

(** C9: [register] of a value whose name is not a non-empty string fails
    with a validation error and changes nothing; with a valid name it
    writes the registry entry and nothing else: the active slot is the same,
    also when the overwritten name is that of the active tool, and dispatch
    keeps reaching the handlers of the instance that was active. *)
Theorem register_validates_and_keeps_active :
  (forall tool m,
     ~ registrable tool ->
     register tool m =
       Abrupt (JsError "Tool must have a non-empty name property") m) /\
  (forall t n m,
     name t = NameString n -> n <> "" ->
     exists m',
       register (Some t) m = Normal tt m' /\
       tools m' = <[n := t]> (tools m) /\
       getActiveTool m' = getActiveTool m /\
       sessions m' = sessions m /\ world m' = world m /\
       effects m' = effects m /\
       (forall old type e,
          getActiveTool m = Some old ->
          exists m1 m1',
            dispatchPointer type e m = Normal tt m1 /\
            dispatchPointer type e m' = Normal tt m1' /\
            new_effects m' m1' = new_effects m m1 /\
            invocations (new_effects m' m1') =
              expected_call old (HPointer type e) (pointer_handler old type) /\
            world m1' = world m1 /\
            getActiveTool m1' = Some old) /\
       (forall old type e,
          getActiveTool m = Some old ->
          exists m1 m1',
            dispatchKey type e m = Normal tt m1 /\
            dispatchKey type e m' = Normal tt m1' /\
            new_effects m' m1' = new_effects m m1 /\
            invocations (new_effects m' m1') =
              expected_call old (HKey type e) (key_handler old type) /\
            world m1' = world m1 /\
            getActiveTool m1' = Some old)).
Proof.
  split; [apply register_invalid|].
  intros t n m Hname Hne.
  eexists. split; [exact (register_valid t n m Hname Hne)|].
  repeat split.
  - intros old type e Hold. unfold getActiveTool in Hold.
    eexists. eexists.
    split; [apply dispatchPointer_active, Hold|].
    split; [apply dispatchPointer_active; exact Hold|].
    rewrite !new_effects_evolved, invocations_guarded_call.
    repeat split.
    destruct (pointer_handler old type); reflexivity.
  - intros old type e Hold. unfold getActiveTool in Hold.
    eexists. eexists.
    split; [apply dispatchKey_active, Hold|].
    split; [apply dispatchKey_active; exact Hold|].
    rewrite !new_effects_evolved, invocations_guarded_call.
    repeat split.
    destruct (key_handler old type); reflexivity.
Qed.

End WithWorld.

Lemma well_keyed_host2 : well_keyed Samples.host2.
Proof.
  intros n t H. unfold Samples.host2 in H. cbn [tools] in H.
  apply lookup_singleton_Some in H as [<- <-]. reflexivity.
Qed.

Lemma activate_cycles_lifecycle_witness :
  (exists m',
     activate "Brush" Samples.host = Normal tt m' /\
     new_effects Samples.host m' =
       [EvInvoke Samples.brush HDeactivate; EvActiveSet Samples.brush;
        EvInvoke Samples.brush HActivate]) /\
  (exists m1 m2,
     register (Some Samples.brush2) Samples.host = Normal tt m1 /\
     activate "Brush" m1 = Normal tt m2 /\
     invocations (new_effects Samples.host m2) =
       [(Samples.brush, HDeactivate); (Samples.brush2, HActivate)] /\
     getActiveToolName m2 = Some (NameString "Brush")).
Proof.
  destruct (@activate_cycles_lifecycle nat) as [Hcycle Hagain]. split.
  - destruct (Hcycle "Brush" Samples.brush Samples.host)
      as (m' & Hrun & Heff & _); [vm_compute; reflexivity|].
    exists m'. split; [exact Hrun|exact Heff].
  - apply (Hagain "Brush" Samples.brush Samples.brush2 Samples.host);
      [reflexivity|reflexivity|reflexivity|discriminate].
Defined.

Lemma activate_unknown_name_witness :
  exists m',
    activate "Eraser" Samples.host = Normal tt m' /\
    new_effects Samples.host m' = [unknown_tool_warning "Eraser"] /\
    getActiveToolName m' = Some (NameString "Brush") /\
    invocations (new_effects Samples.host m') = [].
Proof.
  destruct (@activate_unknown_name nat "Eraser" Samples.host)
    as (m' & Hrun & Heff & Hname & _ & _ & _ & Hnone);
    [vm_compute; reflexivity|].
  exists m'. repeat split; assumption.
Defined.

Lemma activate_survives_throwing_hooks_witness :
  exists m',
    activate "Brush" Samples.host2 = Normal tt m' /\
    getActiveTool m' = Some Samples.brush2 /\
    getActiveToolName m' = Some (NameString "Brush") /\
    new_effects Samples.host2 m' =
      [EvInvoke Samples.brush2 HDeactivate;
       EvConsoleError "Tool onDeactivate error" (JsError "deactivation failed");
       EvActiveSet Samples.brush2;
       EvInvoke Samples.brush2 HActivate;
       EvConsoleError "Tool onActivate error" (JsError "activation failed")].
Proof.
  destruct (@activate_survives_throwing_hooks nat "Brush" Samples.brush2
              Samples.host2 well_keyed_host2)
    as (m' & Hrun & Htool & Hname & Hact & _); [vm_compute; reflexivity|].
  exists m'. repeat split; try assumption.
  exact (Hact _ (JsError "activation failed") 0 eq_refl eq_refl).
Defined.

Lemma dispatch_isolates_handler_errors_witness :
  exists m',
    dispatchPointer pointerdown Samples.down7 Samples.host2 = Normal tt m' /\
    getActiveTool m' = Some Samples.brush2 /\
    exists m'',
      dispatchPointer pointerup Samples.up7 m' = Normal tt m'' /\
      invocations (new_effects m' m'') =
        [(Samples.brush2, HPointer pointerup Samples.up7)].
Proof.
  destruct (@dispatch_isolates_handler_errors nat) as (_ & _ & Hthrow & _).
  destruct (Hthrow Samples.host2 Samples.brush2 pointerdown Samples.down7
              Samples.failing (JsError "boom") 0 eq_refl eq_refl eq_refl)
    as (m' & Hrun & Htool & _ & Hnext).
  destruct (Hnext pointerup Samples.up7 Samples.counting eq_refl)
    as (m'' & Hrun2 & Hcalls & _).
  exists m'. split; [exact Hrun|]. split; [exact Htool|].
  exists m''. split; [exact Hrun2|exact Hcalls].
Defined.

Lemma register_validates_and_keeps_active_witness :
  register (Some Samples.nameless) Samples.host =
    Abrupt (JsError "Tool must have a non-empty name property") Samples.host /\
  exists m',
    register (Some Samples.brush2) Samples.host = Normal tt m' /\
    getActiveTool m' = Some Samples.brush /\
    exists m1',
      dispatchPointer pointerdown Samples.down7 m' = Normal tt m1' /\
      invocations (new_effects m' m1') =
        [(Samples.brush, HPointer pointerdown Samples.down7)].
Proof.
  destruct (@register_validates_and_keeps_active nat) as [Hbad Hgood]. split.
  - apply Hbad. intros (t & n & Ht & Hn & Hne).
    injection Ht as <-. injection Hn as <-. apply Hne. reflexivity.
  - destruct (Hgood Samples.brush2 "Brush" Samples.host eq_refl)
      as (m' & Hrun & _ & Htool & _ & _ & _ & Hptr & _); [discriminate|].
    destruct (Hptr Samples.brush pointerdown Samples.down7 eq_refl)
      as (m1 & m1' & _ & Hrun' & _ & Hcalls & _).
    exists m'. split; [exact Hrun|]. split; [exact Htool|].
    exists m1'. split; [exact Hrun'|exact Hcalls].
Defined.

End ToolSystemFacts.

(** ** The input normalizer *)

Module InputManagerFacts.
Import InputManager.

(** An available reading is passed through as it is, also outside of
    [0, 1]: [makePointerData] does not clamp. *)
Lemma pressure_not_clamped :
  pressure (makePointerData Samples.win
              (Samples.raw RawPointerMove 1 0 0 (Some 1.5%float)))
  = 1.5%float.
Proof. reflexivity. Qed.

(** C1 as stated does not hold: for a raw event without a pressure reading
    the canonical pressure is 0, not 0.5. *)
Lemma pressure_default_is_not_half :
  ~ (forall win ev,
       in_unit_interval (pressure (makePointerData win ev)) = true /\
       (ev_pressure ev = None ->
        pressure (makePointerData win ev) = 0.5%float)).
Proof.
  intros H.
  destruct (H Samples.win (Samples.raw RawPointerDown 1 30 40 None))
    as [_ Hhalf].
  specialize (Hhalf eq_refl). cbn in Hhalf.
  apply (f_equal (fun x => PrimFloat.eqb x 0)) in Hhalf.
  vm_compute in Hhalf. discriminate.
Qed.

(** C1 (amended): the canonical pressure is the raw reading, unchanged,
    whenever there is one, whatever its value, and 0 when there is none; so
    it lies in [0, 1] exactly when the raw reading, if any, does. *)
Theorem makePointerData_pressure win ev :
  (forall p, ev_pressure ev = Some p -> pressure (makePointerData win ev) = p) /\
  (ev_pressure ev = None -> pressure (makePointerData win ev) = 0%float) /\
  (in_unit_interval (pressure (makePointerData win ev)) = true <->
   raw_pressure_in_range ev).
Proof.
  unfold raw_pressure_in_range, makePointerData. cbn [pressure].
  destruct (ev_pressure ev) as [p|].
  - split; [intros q [= ->]; reflexivity|]. split; [discriminate|].
    split; intros H; exact H.
  - split; [discriminate|]. split; [reflexivity|].
    split; [intros _; exact I|intros _; reflexivity].
Qed.

Lemma makePointerData_pressure_witness :
  pressure (makePointerData Samples.win
              (Samples.raw RawPointerMove 1 0 0 (Some 1.5%float))) =
    1.5%float /\
  pressure (makePointerData Samples.win
              (Samples.raw RawPointerDown 1 30 40 None)) = 0%float /\
  in_unit_interval
    (pressure (makePointerData Samples.win
                 (Samples.raw RawPointerDown 1 30 40 (Some 0.5%float)))) =
    true.
Proof.
  split; [|split].
  - destruct (makePointerData_pressure Samples.win
                (Samples.raw RawPointerMove 1 0 0 (Some 1.5%float)))
      as (Hsome & _).
    exact (Hsome 1.5%float eq_refl).
  - destruct (makePointerData_pressure Samples.win
                (Samples.raw RawPointerDown 1 30 40 None))
      as (_ & Hnone & _).
    exact (Hnone eq_refl).
  - destruct (makePointerData_pressure Samples.win
                (Samples.raw RawPointerDown 1 30 40 (Some 0.5%float)))
      as (_ & _ & Hrange).
    apply Hrange. reflexivity.
Defined.

Section WithWorld.
Context {W : Type}.
Implicit Types (m : Machine W).

Lemma routePointer_ignored win ev m :
  shouldIgnore ev = true -> routePointer win ev m = Normal tt m.
Proof. intros Hig. unfold routePointer. rewrite Hig. reflexivity. Qed.

(** [routePointer] up to and including the update of the session
    tracker. *)
Lemma routePointer_dispatches win ev m :
  shouldIgnore ev = false ->
  (ev_type ev = RawPointerDown -> ev_target ev <> None) ->
  routePointer win ev m =
  bind (ToolSystem.dispatchPointer (normalise (ev_type ev))
          (makePointerData win ev))
       (fun _ =>
          match normalise (ev_type ev) with
          | pointerdown | pointerup => notifyProjectChanged win
          | pointermove => ret tt
          end)
       (before_dispatch win ev m).
Proof.
  intros Hig Htarget. unfold routePointer. rewrite Hig.
  unfold before_dispatch, capture_effects, session_update.
  destruct (ev_type ev) eqn:Htype; cbn [normalise].
  - destruct (ev_target ev) as [target|] eqn:Htg;
      [|exfalso; apply Htarget; reflexivity].
    unfold capturePointer, sessionManager_start. rewrite Htg.
    destruct (has_setPointerCapture target);
      unfold bind, emit, read, ret, set_sessions; cbn;
      rewrite <- ?app_assoc; reflexivity.
  - unfold sessionManager_move, bind, emit, read, ret, set_sessions; cbn.
    destruct (ev_target ev); reflexivity.
  - unfold sessionManager_end, bind, emit, read, ret, set_sessions; cbn.
    destruct (ev_target ev); reflexivity.
  - unfold sessionManager_end, bind, emit, read, ret, set_sessions; cbn.
    destruct (ev_target ev); reflexivity.
Qed.

Lemma new_effects_app m m' es :
  effects m' = effects m ++ es -> new_effects m m' = es.
Proof. intros He. unfold new_effects. rewrite He. apply drop_app_length. Qed.

Lemma guarded_call_silent (t : Tool W) hook msg h (w : W) :
  Forall (fun e => is_projectChanged e = false) (guarded_call t hook msg h w).
Proof.
  destruct h as [h|]; [|constructor].
  unfold guarded_call. destruct (h w); repeat constructor.
Qed.

Lemma capture_effects_silent ev :
  Forall (fun e : Event W => is_projectChanged e = false) (capture_effects ev).
Proof.
  unfold capture_effects.
  destruct (ev_type ev), (ev_target ev) as [target|]; try constructor.
  destruct (has_setPointerCapture target); repeat constructor.
Qed.



Lemma same_canonical_refl d : same_canonical d d.
Proof. repeat split. Qed.

Lemma same_effect_refl (e : Event W) : same_effect e e.
Proof.
  destruct e as [t h| | | | | |]; try reflexivity.
  destruct h; try reflexivity. cbn. auto using same_canonical_refl.
Qed.

Lemma same_effects_refl (es : list (Event W)) : Forall2 same_effect es es.
Proof. induction es; constructor; auto using same_effect_refl. Qed.

Lemma makePointerData_with_type win type ev :
  same_canonical (makePointerData win ev) (makePointerData win (with_type type ev)).
Proof. repeat split. Qed.

Lemma session_closed_alike win type ev (ss : gmap Z (list PointerData)) :
  session_update pointerup (makePointerData win ev) ss =
  session_update pointerup (makePointerData win (with_type type ev)) ss.
Proof.
  unfold session_update, PointerSessionManager.end_.
  cbn [pointerId makePointerData with_type ev_pointerId].
  destruct (ss !! ev_pointerId ev); reflexivity.
Qed.

(** What [routePointer] does with an event that is not ignored and is
    normalised to pointerup. *)
Lemma routePointer_release win ev m :
  shouldIgnore ev = false ->
  normalise (ev_type ev) = pointerup ->
  routePointer win ev m =
  Normal tt
    {| tools := tools m; activeTool := activeTool m;
       sessions :=
         snd (PointerSessionManager.end_ (makePointerData win ev) (sessions m));
       world := dispatch_world pointerup (makePointerData win ev) m;
       effects :=
         effects m ++
         EvPreventDefault ::
         dispatch_effects pointerup (makePointerData win ev) m ++
         (if paperManager_notifies win then [EvProjectChanged] else []) |}.
Proof.
  intros Hig Hup.
  assert (Hnotdown : ev_type ev = RawPointerDown -> ev_target ev <> None)
    by (intros Hd; rewrite Hd in Hup; discriminate).
  rewrite (routePointer_dispatches win ev m Hig Hnotdown). rewrite Hup.
  assert (Hcap : capture_effects (W:=W) ev = []).
  { unfold capture_effects. destruct (ev_type ev); try reflexivity.
    discriminate. }
  unfold before_dispatch. rewrite Hup, Hcap. cbn [session_update].
  unfold bind, notifyProjectChanged, dispatch_world, dispatch_effects.
  destruct (activeTool m) as [t|] eqn:Ht.
  - rewrite (ToolSystemFacts.dispatchPointer_active t) by reflexivity.
    unfold evolved. cbn [tools activeTool sessions world effects].
    destruct (paperManager_notifies win); unfold emit, ret; cbn;
      rewrite <- ?app_assoc, ?app_nil_r; cbn; reflexivity.
  - rewrite ToolSystemFacts.dispatchPointer_idle by reflexivity.
    destruct (paperManager_notifies win); unfold emit, ret; cbn;
      rewrite <- ?app_assoc, ?app_nil_r; reflexivity.
Qed.

(** C5 (amended): a cancel event that is not ignored is routed as a
    pointerup: after [preventDefault] and without a pointer capture, the
    tracker's [end] is called with its canonical event, which closes the
    session of the pointer; the tool host is called with kind [pointerup],
    so that [onPointerUp] of the active tool runs and no other handler; and
    the project-changed notification follows.  The canonical event agrees
    with that of the up event differing in the type only on every field but
    [native], which holds the raw event, of type [pointercancel].  Registry,
    active tool and sessions therefore end up as for that up event; world
    and effects do so as well when the handler does not read [native]. *)
Theorem cancel_is_routed_as_up win ev m :
  ev_type ev = RawPointerCancel ->
  let d := makePointerData win ev in
  let up := with_type RawPointerUp ev in
  normalise (ev_type ev) = pointerup /\
  same_canonical d (makePointerData win up) /\
  native d = ev /\
  (shouldIgnore ev = false ->
   routePointer win ev m =
   Normal tt
     {| tools := tools m; activeTool := activeTool m;
        sessions := snd (PointerSessionManager.end_ d (sessions m));
        world := dispatch_world pointerup d m;
        effects :=
          effects m ++
          EvPreventDefault ::
          dispatch_effects pointerup d m ++
          (if paperManager_notifies win then [EvProjectChanged] else []) |} /\
   PointerSessionManager.get (ev_pointerId ev)
     (snd (PointerSessionManager.end_ d (sessions m))) = None) /\
  exists m1 m2,
    routePointer win ev m = Normal tt m1 /\
    routePointer win up m = Normal tt m2 /\
    tools m1 = tools m2 /\
    activeTool m1 = activeTool m2 /\
    sessions m1 = sessions m2 /\
    ((forall t, activeTool m = Some t -> native_opaque t) ->
     world m1 = world m2 /\
     Forall2 same_effect (effects m1) (effects m2)).
Proof.
  intros Hcancel d up.
  assert (Hnorm : normalise (ev_type ev) = pointerup)
    by (rewrite Hcancel; reflexivity).
  split; [exact Hnorm|].
  split; [apply makePointerData_with_type|].
  split; [reflexivity|].
  split.
  - intros Hig. split; [apply routePointer_release; assumption|].
    unfold PointerSessionManager.end_, PointerSessionManager.get.
    cbn [pointerId d makePointerData].
    destruct (sessions m !! ev_pointerId ev) eqn:Hs; cbn [snd].
    + apply lookup_delete_eq.
    + exact Hs.
  - destruct (shouldIgnore ev) eqn:Hig.
    + exists m, m. rewrite !routePointer_ignored by exact Hig.
      repeat split. apply same_effects_refl.
    + rewrite (routePointer_release win ev m Hig Hnorm).
      rewrite (routePointer_release win up m Hig eq_refl).
      fold d. set (d' := makePointerData win up).
      eexists. eexists. split; [reflexivity|]. split; [reflexivity|].
      cbn [tools activeTool sessions world effects].
      split; [reflexivity|]. split; [reflexivity|].
      split; [apply (session_closed_alike win RawPointerUp ev)|].
      intros Hopaque.
      unfold dispatch_world, dispatch_effects.
      destruct (activeTool m) as [t|] eqn:Ht;
        [|split; [reflexivity|apply same_effects_refl]].
      cbn [pointer_handler].
      destruct (onPointerUp t) as [h|] eqn:Hh; cbn [option_map];
        [|split; [reflexivity|apply same_effects_refl]].
      assert (Hsame : h d (world m) = h d' (world m)).
      { apply (Hopaque t eq_refl h); [exact Hh|].
        apply makePointerData_with_type. }
      unfold world_after, guarded_call. rewrite <- Hsame.
      split; [reflexivity|].
      apply Forall2_app; [apply same_effects_refl|].
      constructor; [reflexivity|].
      constructor.
      { cbn. split; [reflexivity|]. split; [reflexivity|].
        apply makePointerData_with_type. }
      apply same_effects_refl.
Qed.

End WithWorld.


(** C5 as stated does not hold: the canonical event hands the raw event
    on in [native], so a handler can tell a cancel from an up. *)
Lemma cancel_is_visible_through_native :
  ~ (forall (win : Window) (ev : RawPointerEvent) (m : Machine nat),
       ev_type ev = RawPointerCancel ->
       world (state_of (routePointer win ev m)) =
       world (state_of (routePointer win (with_type RawPointerUp ev) m))).
Proof.
  intros H.
  specialize (H Samples.win Samples2.cancel Samples2.host_reader eq_refl).
  vm_compute in H. discriminate.
Qed.

Lemma cancel_is_routed_as_up_witness :
  exists m',
    routePointer Samples.win Samples2.cancel
      (state_of (routePointer Samples.win Samples2.down Samples.host)) =
      Normal tt m' /\
    sessions m' = ∅ /\
    world m' = 2.
Proof.
  destruct (@cancel_is_routed_as_up nat Samples.win Samples2.cancel
              (state_of (routePointer Samples.win Samples2.down Samples.host))
              eq_refl)
    as (_ & _ & _ & Hrouted & _).
  destruct (Hrouted eq_refl) as [Hrun _].
  eexists. split; [exact Hrun|]. split; vm_compute; reflexivity.
Defined.

End InputManagerFacts.

(** ** The raster overlay *)

Module OverlayCanvasFacts.
Import OverlayCanvas.

(** The example of the specification: at a quarter of the resolution the
    point (100, 40) of the scene lands on pixel (25, 10). *)
Example paperToOverlay_quarter :
  paperToOverlay (new 0.25 "" []) {| pt_x := 100; pt_y := 40 |} =
  {| pt_x := 25; pt_y := 10 |}.
Proof. reflexivity. Qed.


Lemma cleared_blank_bitmap w h : Forall (fun px => px = 0%Z) (blank_bitmap w h).
Proof. unfold blank_bitmap. apply Forall_forall. intros x Hx.
  apply list_elem_of_In, repeat_spec in Hx. exact Hx. Qed.


Lemma clear_ctx o : ctx (clear o) = ctx o.
Proof.
  unfold clear. destruct (ctx o) eqn:Hx, (canvas o); cbn; congruence.
Qed.




Lemma clear_project o : project (clear o) = project o.
Proof. unfold clear. destruct (ctx o), (canvas o); reflexivity. Qed.


Lemma destroy_no_canvas o : canvas (destroy o) = None.
Proof.
  unfold destroy. destruct (canvas o) eqn:Hc; cbn;
    destruct (resizeListener o); cbn; auto.
Qed.




















End OverlayCanvasFacts.

(** * Further properties *)

(** ** The session tracker as a whole *)

Module PointerSessionMore.
Import PointerSessionManager SessionModel.

Lemma dom_perform c (ss : Sessions) :
  dom (perform c ss) = live_after c (dom ss).
Proof.
  destruct c as [d|d|d]; cbn [perform live_after].
  - unfold start. apply dom_insert_L.
  - unfold move. destruct (ss !! pointerId d) as [arr|] eqn:Hd; [|reflexivity].
    rewrite dom_insert_L.
    apply subseteq_union_1_L, singleton_subseteq_l, elem_of_dom. eauto.
  - unfold end_. destruct (ss !! pointerId d) as [arr|] eqn:Hd; cbn [snd].
    + apply dom_delete_L.
    + symmetry. apply difference_disjoint_L, disjoint_singleton_r.
      apply not_elem_of_dom. exact Hd.
Qed.

(** X1: the tracker holds a session for exactly the contacts that are
    down: whatever calls arrive, in whatever order, a session exists for an
    id iff its latest start was not followed by an end.  Moves and ends
    never create a session and every end frees one. *)
Theorem tracked_ids_are_live_contacts cs : forall ss : Sessions,
  dom (perform_all cs ss) = live cs (dom ss).
Proof.
  induction cs as [|c cs IH]; intros ss; [reflexivity|].
  change (dom (perform_all cs (perform c ss)) =
          live cs (live_after c (dom ss))).
  rewrite IH, dom_perform. reflexivity.
Qed.

Lemma sessions_ok_perform c (ss : Sessions) :
  sessions_ok ss -> sessions_ok (perform c ss).
Proof.
  intros Hok id arr. destruct c as [d|d|d]; cbn [perform].
  - unfold start. rewrite lookup_insert.
    destruct (decide (pointerId d = id)) as [Heq|Hne]; cbn.
    + intros [= <-]. split; [discriminate|]. repeat constructor. exact Heq.
    + apply Hok.
  - unfold move. destruct (ss !! pointerId d) as [old|] eqn:Hd; [|apply Hok].
    rewrite lookup_insert.
    destruct (decide (pointerId d = id)) as [Heq|Hne]; cbn; [|apply Hok].
    intros [= <-]. destruct (Hok _ _ Hd) as [_ Hall]. split.
    + intros Hnil. apply app_eq_nil in Hnil as [_ Hnil]. discriminate.
    + rewrite <- Heq. apply Forall_app. split; [exact Hall|].
      repeat constructor.
  - unfold end_. destruct (ss !! pointerId d) as [old|] eqn:Hd; cbn [snd];
      [|apply Hok].
    rewrite lookup_delete.
    destruct (decide (pointerId d = id)); cbn; [discriminate|apply Hok].
Qed.

Lemma sessions_ok_perform_all cs : forall ss : Sessions,
  sessions_ok ss -> sessions_ok (perform_all cs ss).
Proof.
  induction cs as [|c cs IH]; intros ss Hok; [exact Hok|].
  change (sessions_ok (perform_all cs (perform c ss))).
  apply IH, sessions_ok_perform, Hok.
Qed.

Lemma sessions_ok_new : sessions_ok new.
Proof. intros id arr H. unfold new in H. rewrite lookup_empty in H. discriminate. Qed.

(** X2: after any calls on a new tracker, a session that [get] shows is
    never empty and holds events of its own pointer id only; and a session
    that [end] hands back has at least two events, all of the id of the
    terminal event, which comes last. *)
Theorem sessions_are_well_formed cs id e :
  (forall arr,
     get id (perform_all cs new) = Some arr ->
     arr ≠ [] /\ Forall (fun ev => pointerId ev = id) arr) /\
  (forall session,
     fst (end_ e (perform_all cs new)) = Some session ->
     last session = Some e /\
     2 <= length session /\
     Forall (fun ev => pointerId ev = pointerId e) session).
Proof.
  pose proof (sessions_ok_perform_all cs new sessions_ok_new) as Hok.
  split.
  - intros arr Hget. exact (Hok id arr Hget).
  - intros session Hend. unfold end_ in Hend.
    destruct (perform_all cs new !! pointerId e) as [arr|] eqn:Harr;
      cbn [fst] in Hend; [|discriminate].
    injection Hend as <-.
    destruct (Hok _ _ Harr) as [Hne Hall].
    split; [apply last_snoc|]. split.
    + rewrite length_app. cbn. destruct arr; [contradiction|]. cbn. lia.
    + apply Forall_app. split; [exact Hall|]. repeat constructor.
Qed.

Lemma sessions_are_well_formed_witness :
  last [Samples.down7; Samples.move7; Samples.up7] = Some Samples.up7 /\
  2 <= length [Samples.down7; Samples.move7; Samples.up7].
Proof.
  destruct (sessions_are_well_formed
              [CStart Samples.down7; CMove Samples.move7] 7 Samples.up7)
    as [_ Hend].
  destruct (Hend [Samples.down7; Samples.move7; Samples.up7])
    as (Hlast & Hlen & _); [vm_compute; reflexivity|].
  split; assumption.
Defined.

Lemma perform_other id c (ss : Sessions) :
  about_other id c -> perform c ss !! id = ss !! id.
Proof.
  unfold about_other. intros Hne.
  destruct c as [d|d|d]; cbn [perform call_data] in *.
  - unfold start. apply lookup_insert_ne, Hne.
  - unfold move. destruct (ss !! pointerId d); [|reflexivity].
    apply lookup_insert_ne, Hne.
  - unfold end_. destruct (ss !! pointerId d); cbn [snd]; [|reflexivity].
    apply lookup_delete_ne, Hne.
Qed.

(** X3: contacts do not interfere: calls for other pointer ids, however
    many and of whatever kind, leave what [get] shows for an id as it
    was. *)
Theorem other_contacts_do_not_interfere id cs : forall ss : Sessions,
  Forall (about_other id) cs ->
  get id (perform_all cs ss) = get id ss.
Proof.
  induction cs as [|c cs IH]; intros ss Hother; [reflexivity|].
  inversion Hother as [|? ? Hc Hcs]; subst.
  change (get id (perform_all cs (perform c ss)) = get id ss).
  rewrite IH by exact Hcs. apply perform_other, Hc.
Qed.

Lemma other_contacts_do_not_interfere_witness :
  get 7 (perform_all
           [CStart (Samples.data RawPointerDown 8 1 1);
            CEnd (Samples.data RawPointerUp 8 2 2)]
           (start Samples.down7 new)) =
  get 7 (start Samples.down7 new).
Proof.
  apply other_contacts_do_not_interfere.
  repeat constructor; unfold about_other; cbn; lia.
Defined.

End PointerSessionMore.

(** ** Histories of the tool host *)

Module ToolSystemMore.
Import ToolSystem.

Section WithWorld.
Context {W : Type}.
Implicit Types (m : Machine W).

Lemma host_calls_snoc cs c m :
  host_calls (cs ++ [c]) m = state_of (host_call c (host_calls cs m)).
Proof. unfold host_calls. rewrite foldl_app. reflexivity. Qed.

(** Calls other than [activate] leave the active slot as it is. *)
Lemma slot_kept_call c m :
  (forall n, c <> CallActivate n) ->
  activeTool (state_of (host_call c m)) = activeTool m.
Proof.
  intros Hc. destruct c as [tool|n|type e|type e]; cbn [host_call].
  - unfold register. destruct tool as [t|]; [|reflexivity].
    destruct (name t) as [k| | |]; try reflexivity.
    destruct (String.eqb k ""); reflexivity.
  - exfalso. apply (Hc n). reflexivity.
  - destruct (activeTool m) as [t|] eqn:Ht.
    + rewrite (ToolSystemFacts.dispatchPointer_active t) by exact Ht.
      cbn. congruence.
    + rewrite ToolSystemFacts.dispatchPointer_idle by exact Ht. exact Ht.
  - destruct (activeTool m) as [t|] eqn:Ht.
    + rewrite (ToolSystemFacts.dispatchKey_active t) by exact Ht.
      cbn. congruence.
    + rewrite ToolSystemFacts.dispatchKey_idle by exact Ht. exact Ht.
Qed.

Lemma slot_kept_calls cs : forall m,
  Forall (fun c => forall n, c <> CallActivate n) cs ->
  activeTool (host_calls cs m) = activeTool m.
Proof.
  induction cs as [|c cs IH]; intros m Hcs; [reflexivity|].
  apply Forall_cons in Hcs as [Hc Hcs].
  change (host_calls (c :: cs) m)
    with (host_calls cs (state_of (host_call c m))).
  rewrite (IH _ Hcs). apply slot_kept_call, Hc.
Qed.

(** The registry holds, and the slot points at, only what was handed to
    [register]; and the slot is empty until [activate] is called. *)
Lemma host_makes_up_no_tool cs (w : W) :
  let m := host_calls cs (new w) in
  (forall n t, tools m !! n = Some t -> In (CallRegister (Some t)) cs) /\
  (forall t, activeTool m = Some t ->
     In (CallRegister (Some t)) cs /\ exists n, In (CallActivate n) cs).
Proof.
  induction cs as [|c cs IH] using rev_ind; cbn zeta.
  - split.
    + intros n t Hn. cbn in Hn. rewrite lookup_empty in Hn. discriminate.
    + intros t Ht. discriminate.
  - cbn zeta in IH. destruct IH as [Hreg Hact].
    rewrite host_calls_snoc. set (m := host_calls cs (new w)) in *.
    assert (Hreg' : forall n t, tools m !! n = Some t ->
                      In (CallRegister (Some t)) (cs ++ [c]))
      by (intros n t Hn; apply in_or_app; left; eapply Hreg, Hn).
    assert (Hact' : forall t, activeTool m = Some t ->
                      In (CallRegister (Some t)) (cs ++ [c]) /\
                      exists n, In (CallActivate n) (cs ++ [c])).
    { intros t Ht. destruct (Hact t Ht) as [Hin [n Hn]].
      split; [apply in_or_app; left; exact Hin|].
      exists n. apply in_or_app. left. exact Hn. }
    destruct c as [tool|n|type e|type e]; cbn [host_call].
    + split.
      * unfold register. destruct tool as [t|]; [|exact Hreg'].
        destruct (name t) as [k| | |]; try exact Hreg'.
        destruct (String.eqb k ""); [exact Hreg'|].
        cbn. intros n t' Hn. rewrite lookup_insert in Hn.
        destruct (decide (k = n)); cbn in Hn; [|eapply Hreg', Hn].
        injection Hn as <-. apply in_or_app. right. left. reflexivity.
      * intros t' Ht'. apply Hact'. rewrite <- Ht'. symmetry.
        apply (slot_kept_call (CallRegister tool)). discriminate.
    + destruct (tools m !! n) as [next|] eqn:Hn.
      * rewrite (ToolSystemFacts.activate_known _ _ _ Hn). cbn. split.
        -- exact Hreg'.
        -- intros t [= <-]. split; [eapply Hreg', Hn|].
           exists n. apply in_or_app. right. left. reflexivity.
      * rewrite (ToolSystemFacts.activate_unknown _ _ Hn). cbn.
        split; [exact Hreg'|exact Hact'].
    + split.
      * destruct (activeTool m) as [t|] eqn:Ht.
        -- rewrite (ToolSystemFacts.dispatchPointer_active t) by exact Ht.
           exact Hreg'.
        -- rewrite ToolSystemFacts.dispatchPointer_idle by exact Ht.
           exact Hreg'.
      * intros t' Ht'. apply Hact'. rewrite <- Ht'. symmetry.
        apply (slot_kept_call (CallDispatchPointer type e)). discriminate.
    + split.
      * destruct (activeTool m) as [t|] eqn:Ht.
        -- rewrite (ToolSystemFacts.dispatchKey_active t) by exact Ht.
           exact Hreg'.
        -- rewrite ToolSystemFacts.dispatchKey_idle by exact Ht.
           exact Hreg'.
      * intros t' Ht'. apply Hact'. rewrite <- Ht'. symmetry.
        apply (slot_kept_call (CallDispatchKey type e)). discriminate.
Qed.

(** X4: the host makes up no tool and only [activate] writes the active
    slot.  In every state reached from [new ToolSystem()] through the
    interface, the registry entries and the active tool are objects that were
    handed to [register], and a tool is active only after a call of
    [activate]; once [activate(n)] has found a tool, that instance stays
    active through any further [register] and dispatch calls, also when
    another instance is registered under [n] meanwhile. *)
Theorem only_activate_writes_the_slot (cs : list (HostCall (W:=W))) (w : W) :
  let m := host_calls cs (new w) in
  (forall n t, tools m !! n = Some t -> In (CallRegister (Some t)) cs) /\
  (forall t, getActiveTool m = Some t ->
     In (CallRegister (Some t)) cs /\ exists n, In (CallActivate n) cs) /\
  (forall n t later,
     tools m !! n = Some t ->
     Forall (fun c => forall n', c <> CallActivate n') later ->
     getActiveTool (host_calls later (state_of (activate n m))) = Some t).
Proof.
  intros m. destruct (host_makes_up_no_tool cs w) as [Hreg Hact].
  split; [exact Hreg|]. split; [exact Hact|].
  intros n t later Hn Hlater. unfold getActiveTool.
  rewrite (slot_kept_calls later _ Hlater).
  fold m in Hn. rewrite (ToolSystemFacts.activate_known _ _ _ Hn).
  reflexivity.
Qed.

Lemma registry_grows_call c m n :
  is_Some (tools m !! n) -> is_Some (tools (state_of (host_call c m)) !! n).
Proof.
  intros Hreg. destruct c as [tool|n'|type e|type e]; cbn [host_call].
  - unfold register. destruct tool as [t|]; [|exact Hreg].
    destruct (name t) as [k| | |]; try exact Hreg.
    destruct (String.eqb k ""); [exact Hreg|]. cbn.
    rewrite lookup_insert. destruct (decide (k = n)); cbn; [eauto|exact Hreg].
  - destruct (tools m !! n') as [next|] eqn:Hn.
    + rewrite (ToolSystemFacts.activate_known _ _ _ Hn). exact Hreg.
    + rewrite (ToolSystemFacts.activate_unknown _ _ Hn). exact Hreg.
  - destruct (activeTool m) as [t|] eqn:Ht.
    + rewrite (ToolSystemFacts.dispatchPointer_active t) by exact Ht. exact Hreg.
    + rewrite ToolSystemFacts.dispatchPointer_idle by exact Ht. exact Hreg.
  - destruct (activeTool m) as [t|] eqn:Ht.
    + rewrite (ToolSystemFacts.dispatchKey_active t) by exact Ht. exact Hreg.
    + rewrite ToolSystemFacts.dispatchKey_idle by exact Ht. exact Hreg.
Qed.

(** X5: the registry only grows: no call on the host ever removes a
    name, so a name that [activate] once found is found by every later
    [activate]. *)
Theorem registry_never_shrinks (cs : list (HostCall (W:=W))) n : forall m,
  is_Some (tools m !! n) ->
  is_Some (tools (host_calls cs m) !! n) /\
  forall m', activate n (host_calls cs m) = Normal tt m' ->
    exists t, getActiveTool m' = Some t.
Proof.
  induction cs as [|c cs IH]; intros m Hreg.
  - split; [exact Hreg|]. intros m' Hact. destruct Hreg as [next Hn].
    change (host_calls [] m) with m in Hact.
    rewrite (ToolSystemFacts.activate_known _ _ _ Hn) in Hact.
    injection Hact as <-. eauto.
  - change (host_calls (c :: cs) m)
      with (host_calls cs (state_of (host_call c m))).
    apply IH, registry_grows_call, Hreg.
Qed.

Lemma colorChangeCallback_run win colors m :
  paperManager_notifies win = true ->
  ColorPanel.colorChangeCallback win colors m =
  match activeTool m with
  | Some t =>
      match onColorChange t with
      | Some h =>
          match h colors (world m) with
          | Returns w =>
              Normal tt (evolved m (activeTool m) w [EvProjectChanged])
          | Throws err w => Abrupt err (evolved m (activeTool m) w [])
          end
      | None =>
          Normal tt (evolved m (activeTool m) (world m) [EvProjectChanged])
      end
  | None => Normal tt (evolved m (activeTool m) (world m) [EvProjectChanged])
  end.
Proof.
  intros Hnotify.
  unfold ColorPanel.colorChangeCallback, getActiveTool,
    InputManager.notifyProjectChanged. rewrite Hnotify.
  unfold bind, read, run_handler, emit, ret, set_world, evolved.
  destruct m as [ts [t|] ss w0 es]; cbn; [|reflexivity].
  destruct (onColorChange t) as [h|]; [|reflexivity].
  cbn. destruct (h colors w0) as [w|err w]; cbn; [reflexivity|].
  rewrite app_nil_r. reflexivity.
Qed.

(** X6: the colour panel calls [onColorChange] of the active tool without
    a guard: when the handler throws, the exception leaves the callback and
    the project-changed notification is skipped; when it returns, or when
    there is no such handler or no active tool, the notification follows.
    Registry, active slot and sessions stay as they were either way. *)
Theorem colorChange_is_not_isolated win colors m :
  paperManager_notifies win = true ->
  let r := ColorPanel.colorChangeCallback win colors m in
  tools (state_of r) = tools m /\
  activeTool (state_of r) = activeTool m /\
  sessions (state_of r) = sessions m /\
  (forall t h err w,
     activeTool m = Some t -> onColorChange t = Some h ->
     h colors (world m) = Throws err w ->
     r = Abrupt err (evolved m (activeTool m) w [])) /\
  (forall t h w,
     activeTool m = Some t -> onColorChange t = Some h ->
     h colors (world m) = Returns w ->
     r = Normal tt (evolved m (activeTool m) w [EvProjectChanged])) /\
  ((forall t, activeTool m = Some t -> onColorChange t = None) ->
   r = Normal tt (evolved m (activeTool m) (world m) [EvProjectChanged])).
Proof.
  intros Hnotify r.
  pose proof (colorChangeCallback_run win colors m Hnotify) as Hrun.
  fold r in Hrun.
  destruct (activeTool m) as [t|] eqn:Ht.
  - destruct (onColorChange t) as [h|] eqn:Hh.
    + destruct (h colors (world m)) as [w|err w] eqn:Hh'; rewrite Hrun;
        (split; [reflexivity|]); (split; [reflexivity|]);
        (split; [reflexivity|]); split; [| split | | split].
      * intros t' h' err' w' [= <-] Hh2. congruence.
      * intros t' h' w' [= <-] Hh2 Hret. congruence.
      * intros Hnone. specialize (Hnone t eq_refl). congruence.
      * intros t' h' err' w' [= <-] Hh2 Hthrow. congruence.
      * intros t' h' w' [= <-] Hh2 Hret. congruence.
      * intros Hnone. specialize (Hnone t eq_refl). congruence.
    + rewrite Hrun. repeat split; intros; congruence.
  - rewrite Hrun. repeat split; intros; congruence.
Qed.

End WithWorld.
Lemma only_activate_writes_the_slot_witness :
  getActiveTool
    (host_calls
       [CallRegister (Some Samples.brush2);
        CallDispatchPointer pointerdown Samples.down7]
       (state_of
          (activate "Brush"
             (host_calls [CallRegister (Some Samples.brush)] (new 0))))) =
  Some Samples.brush.
Proof.
  destruct (only_activate_writes_the_slot
              [CallRegister (Some Samples.brush)] 0)
    as (_ & _ & Hstays).
  apply (Hstays "Brush").
  - vm_compute. reflexivity.
  - repeat constructor; discriminate.
Defined.

Lemma registry_never_shrinks_witness :
  is_Some (tools (host_calls Samples2.history Samples.host) !! "Brush").
Proof.
  destruct (registry_never_shrinks Samples2.history "Brush" Samples.host)
    as [Hkept _].
  - exists Samples.brush. vm_compute. reflexivity.
  - exact Hkept.
Defined.

Lemma colorChange_is_not_isolated_witness :
  ColorPanel.colorChangeCallback Samples.win Samples2.colors
    Samples2.host_tinted =
  Abrupt (JsError "no colour") Samples2.host_tinted.
Proof.
  destruct (colorChange_is_not_isolated Samples.win Samples2.colors
              Samples2.host_tinted eq_refl)
    as (_ & _ & _ & Hthrows & _).
  exact (Hthrows Samples2.tinted _ (JsError "no colour") 0
           eq_refl eq_refl eq_refl).
Defined.

End ToolSystemMore.

(** ** Streams of pointer events *)

Module InputManagerMore.
Import InputManager.

Section WithWorld.
Context {W : Type}.
Implicit Types (m : Machine W).

Lemma route_stream_cons win ev evs m :
  route_stream win (ev :: evs) m =
  route_stream win evs (state_of (routePointer win ev m)).
Proof. reflexivity. Qed.

(** X7: an ignored event (its target is draggable or inside the outline
    panel) is as good as never delivered: a stream of events leaves the
    machine exactly as the same stream without its ignored events does, with
    no default prevented, no session touched and no handler called for
    them. *)
Theorem ignored_events_leave_no_trace win evs : forall m,
  route_stream win evs m =
  route_stream win (List.filter (fun ev => negb (shouldIgnore ev)) evs) m.
Proof.
  induction evs as [|ev evs IH]; intros m; [reflexivity|].
  rewrite route_stream_cons. cbn [List.filter].
  destruct (shouldIgnore ev) eqn:Hig; cbn [negb].
  - rewrite InputManagerFacts.routePointer_ignored by exact Hig. apply IH.
  - rewrite route_stream_cons. apply IH.
Qed.

(** One deliverable event, in full. *)
Lemma route_deliverable win ev m :
  deliverable ev ->
  routePointer win ev m =
  Normal tt
    {| tools := tools m; activeTool := activeTool m;
       sessions :=
         session_update (normalise (ev_type ev)) (makePointerData win ev)
           (sessions m);
       world :=
         dispatch_world (normalise (ev_type ev)) (makePointerData win ev) m;
       effects :=
         effects m ++
         (EvPreventDefault :: capture_effects ev) ++
         dispatch_effects (normalise (ev_type ev)) (makePointerData win ev) m ++
         (if paperManager_notifies win
          then expected_notification (normalise (ev_type ev)) else []) |}.
Proof.
  intros [Hig Htarget].
  rewrite (InputManagerFacts.routePointer_dispatches win ev m Hig Htarget).
  unfold bind, dispatch_effects, dispatch_world.
  destruct (activeTool m) as [t|] eqn:Ht.
  - rewrite (ToolSystemFacts.dispatchPointer_active t) by exact Ht.
    unfold notifyProjectChanged, evolved, emit, ret, before_dispatch.
    cbn [effects tools activeTool sessions world]. rewrite ?Ht.
    destruct (paperManager_notifies win), (normalise (ev_type ev));
      cbn [expected_notification effects tools activeTool sessions world];
      rewrite <- ?app_assoc, ?app_nil_r; reflexivity.
  - rewrite ToolSystemFacts.dispatchPointer_idle by exact Ht.
    unfold notifyProjectChanged, evolved, emit, ret, before_dispatch.
    cbn [effects tools activeTool sessions world]. rewrite ?Ht.
    destruct (paperManager_notifies win), (normalise (ev_type ev));
      cbn [expected_notification effects tools activeTool sessions world app];
      rewrite <- ?app_assoc, ?app_nil_r; reflexivity.
Qed.

Lemma session_update_as_call win ev (ss : gmap Z (list PointerData)) :
  session_update (normalise (ev_type ev)) (makePointerData win ev) ss =
  PointerSessionManager.perform (tracker_call win ev) ss.
Proof. unfold tracker_call. destruct (normalise (ev_type ev)); reflexivity. Qed.

Lemma notifications_app (es es' : list (Event W)) :
  notifications (es ++ es') = notifications es + notifications es'.
Proof. unfold notifications. rewrite List.filter_app, length_app. reflexivity. Qed.

Lemma notifications_silent (es : list (Event W)) :
  Forall (fun e => is_projectChanged e = false) es -> notifications es = 0.
Proof.
  unfold notifications. induction 1 as [|e es He _ IH]; [reflexivity|].
  cbn. rewrite He. exact IH.
Qed.

Lemma invocations_capture ev : invocations (capture_effects (W:=W) ev) = [].
Proof.
  unfold capture_effects.
  destruct (ev_type ev), (ev_target ev) as [target|]; try reflexivity.
  destruct (has_setPointerCapture target); reflexivity.
Qed.

Lemma invocations_notification win type :
  invocations
    (if paperManager_notifies win
     then expected_notification (W:=W) type else []) = [].
Proof. destruct (paperManager_notifies win), type; reflexivity. Qed.

Lemma invocations_dispatch type data m :
  invocations (dispatch_effects type data m) =
  match activeTool m with
  | Some t => expected_call t (HPointer type data) (pointer_handler t type)
  | None => []
  end.
Proof.
  unfold dispatch_effects. destruct (activeTool m) as [t|]; [|reflexivity].
  rewrite ToolSystemFacts.invocations_guarded_call.
  destruct (pointer_handler t type); reflexivity.
Qed.

Lemma notifications_dispatch type data m :
  notifications (dispatch_effects type data m) = 0.
Proof.
  apply notifications_silent. unfold dispatch_effects.
  destruct (activeTool m); [apply InputManagerFacts.guarded_call_silent|].
  constructor.
Qed.

(** What a stream of deliverable events does, as an invariant over the
    stream. *)
Lemma route_stream_deliverable win evs : forall m,
  Forall deliverable evs ->
  exists es,
    effects (route_stream win evs m) = effects m ++ es /\
    tools (route_stream win evs m) = tools m /\
    activeTool (route_stream win evs m) = activeTool m /\
    sessions (route_stream win evs m) =
      PointerSessionManager.perform_all (tracker_call win <$> evs) (sessions m) /\
    invocations es = routed_calls (activeTool m) win evs /\
    (paperManager_notifies win = true ->
     notifications es = presses_and_releases evs).
Proof.
  induction evs as [|ev evs IH]; intros m Hall.
  - exists []. rewrite app_nil_r. repeat split.
    unfold routed_calls. destruct (activeTool m); reflexivity.
  - inversion Hall as [|? ? Hev Hevs]; subst.
    rewrite route_stream_cons, (route_deliverable win ev m Hev).
    cbn [state_of].
    set (m1 := {| tools := tools m |}).
    destruct (IH m1 Hevs) as (es & Heff & Htools & Hact & Hsess & Hinv & Hnot).
    eexists. split; [rewrite Heff; unfold m1; cbn [effects];
                     rewrite <- app_assoc; reflexivity|].
    split; [exact Htools|]. split; [exact Hact|]. split; [|split].
    + rewrite Hsess. unfold m1. cbn [sessions].
      rewrite session_update_as_call. reflexivity.
    + rewrite !ToolSystemFacts.invocations_app, Hinv.
      change (invocations (EvPreventDefault :: capture_effects ev))
        with (invocations (capture_effects (W:=W) ev)).
      rewrite invocations_capture, invocations_dispatch,
        invocations_notification, app_nil_r.
      unfold m1, routed_calls. cbn [activeTool app].
      destruct (activeTool m) as [t|]; reflexivity.
    + intros Hnotify. rewrite !notifications_app, (Hnot Hnotify).
      rewrite notifications_dispatch, Hnotify.
      rewrite (notifications_silent (EvPreventDefault :: capture_effects ev))
        by (constructor;
            [reflexivity|apply InputManagerFacts.capture_effects_silent]).
      unfold presses_and_releases. cbn [List.filter].
      destruct (ev_type ev); reflexivity.
Qed.

(** X8: the router feeds the tracker and the tool in arrival order: after
    any stream of deliverable events the tracker is in the state the
    corresponding [start]/[move]/[end] calls produce (cancel counting as
    end), the handlers called are those of the tool that was active, one
    per event that it handles and in the order of the events, registry and
    active slot are as before, and with a paper manager installed there is
    one project-changed notification per down, up or cancel. *)
Theorem stream_reaches_tracker_and_tool_in_order win evs m :
  Forall deliverable evs ->
  let m' := route_stream win evs m in
  tools m' = tools m /\
  activeTool m' = activeTool m /\
  sessions m' =
    PointerSessionManager.perform_all (tracker_call win <$> evs) (sessions m) /\
  invocations (new_effects m m') = routed_calls (activeTool m) win evs /\
  (paperManager_notifies win = true ->
   notifications (new_effects m m') = presses_and_releases evs).
Proof.
  intros Hall m'.
  destruct (route_stream_deliverable win evs m Hall)
    as (es & Heff & Htools & Hact & Hsess & Hinv & Hnot).
  fold m' in Heff, Htools, Hact, Hsess.
  rewrite (InputManagerFacts.new_effects_app m m' es Heff).
  repeat split; assumption.
Qed.

Lemma moves_extend_session id (ds : list PointerData) :
  forall arr (ss : gmap Z (list PointerData)),
  Forall (fun d => pointerId d = id) ds ->
  PointerSessionManager.perform_all (PointerSessionManager.CMove <$> ds)
    (<[id := arr]> ss) = <[id := arr ++ ds]> ss.
Proof.
  induction ds as [|d ds IH]; intros arr ss Hall.
  - rewrite app_nil_r. reflexivity.
  - apply Forall_cons in Hall as [Hd Hds].
    rewrite fmap_cons, PointerSessionFacts.perform_all_cons.
    cbn [PointerSessionManager.perform]. unfold PointerSessionManager.move.
    rewrite Hd, lookup_insert_eq, insert_insert_eq, (IH _ _ Hds).
    rewrite <- app_assoc. reflexivity.
Qed.

Lemma presses_app (evs evs' : list RawPointerEvent) :
  presses_and_releases (evs ++ evs') =
  presses_and_releases evs + presses_and_releases evs'.
Proof.
  unfold presses_and_releases. rewrite List.filter_app, length_app.
  reflexivity.
Qed.

Lemma tracker_calls_of_moves win id moves :
  Forall (fun ev => ev_type ev = RawPointerMove) moves ->
  Forall (fun ev => deliverable ev /\ ev_pointerId ev = id) moves ->
  tracker_call win <$> moves =
    PointerSessionManager.CMove <$> (makePointerData win <$> moves) /\
  Forall (fun d => pointerId d = id) (makePointerData win <$> moves) /\
  presses_and_releases moves = 0.
Proof.
  induction 1 as [|ev moves Hmove _ IH]; intros Hall.
  - repeat split. constructor.
  - apply Forall_cons in Hall as [[_ Hid] Hrest].
    destruct (IH Hrest) as (Hcalls & Hids & Hcount).
    rewrite !fmap_cons, Hcalls. unfold tracker_call at 1. rewrite Hmove.
    cbn [normalise]. split; [reflexivity|]. split.
    + constructor; [exact Hid|exact Hids].
    + unfold presses_and_releases in *. cbn [List.filter]. rewrite Hmove.
      exact Hcount.
Qed.

(** X9: a whole gesture through the router opens one session and closes
    it: while the pointer is down the tracker shows the canonical events
    routed so far, in order; after the release or cancel the tracker holds
    no session for the pointer and every other session is as before; and
    the gesture notifies project-changed exactly twice, however many moves
    it has. *)
Theorem gesture_opens_and_closes_its_session win id down moves fin m :
  gesture id down moves fin ->
  PointerSessionManager.get id
    (sessions (route_stream win (down :: moves) m)) =
    Some (makePointerData win <$> down :: moves) /\
  sessions (route_stream win (down :: moves ++ [fin]) m) =
    delete id (sessions m) /\
  (paperManager_notifies win = true ->
   notifications
     (new_effects m (route_stream win (down :: moves ++ [fin]) m)) = 2).
Proof.
  intros (Hall & Hdown & Hmoves & Hfin).
  apply Forall_cons in Hall as [[Hdeliv Hid] Hrest].
  apply Forall_app in Hrest as [Hmv Hlast].
  apply Forall_cons in Hlast as [[Hfdeliv Hfid] _].
  subst id.
  destruct (tracker_calls_of_moves win _ moves Hmoves Hmv)
    as (Hcalls & Hids & Hcount).
  assert (Hdlv : Forall deliverable moves)
    by (eapply Forall_impl; [exact Hmv|]; intros ? [? _]; assumption).
  assert (Hstart : tracker_call win down =
                   PointerSessionManager.CStart (makePointerData win down))
    by (unfold tracker_call; rewrite Hdown; reflexivity).
  assert (Hend : tracker_call win fin =
                 PointerSessionManager.CEnd (makePointerData win fin))
    by (unfold tracker_call; destruct Hfin as [-> | ->]; reflexivity).
  assert (Hmid :
    PointerSessionManager.perform_all (tracker_call win <$> down :: moves)
      (sessions m) =
    <[ev_pointerId down := makePointerData win <$> down :: moves]>
      (sessions m)).
  { rewrite fmap_cons, Hstart, PointerSessionFacts.perform_all_cons, Hcalls.
    cbn [PointerSessionManager.perform]. unfold PointerSessionManager.start.
    cbn [pointerId makePointerData].
    rewrite (moves_extend_session (ev_pointerId down)) by exact Hids.
    reflexivity. }
  split; [|split].
  - destruct (route_stream_deliverable win (down :: moves) m)
      as (_ & _ & _ & _ & Hsess & _); [constructor; assumption|].
    rewrite Hsess, Hmid. unfold PointerSessionManager.get.
    apply lookup_insert_eq.
  - destruct (route_stream_deliverable win (down :: moves ++ [fin]) m)
      as (_ & _ & _ & _ & Hsess & _).
    { constructor; [assumption|]. apply Forall_app. split; [assumption|].
      constructor; [assumption|constructor]. }
    rewrite Hsess.
    change (down :: moves ++ [fin]) with ((down :: moves) ++ [fin]).
    rewrite fmap_app.
    unfold PointerSessionManager.perform_all. rewrite foldl_app.
    fold (PointerSessionManager.perform_all (tracker_call win <$> down :: moves)
            (sessions m)).
    rewrite Hmid. cbn [fmap list_fmap foldl]. rewrite Hend.
    cbn [PointerSessionManager.perform]. unfold PointerSessionManager.end_.
    cbn [pointerId makePointerData]. rewrite Hfid, lookup_insert_eq.
    cbn [snd]. apply delete_insert_eq.
  - intros Hnotify.
    destruct (route_stream_deliverable win (down :: moves ++ [fin]) m)
      as (es & Heff & _ & _ & _ & _ & Hnot).
    { constructor; [assumption|]. apply Forall_app. split; [assumption|].
      constructor; [assumption|constructor]. }
    rewrite (InputManagerFacts.new_effects_app _ _ es Heff), (Hnot Hnotify).
    change (down :: moves ++ [fin]) with ([down] ++ moves ++ [fin]).
    rewrite !presses_app, Hcount.
    unfold presses_and_releases. cbn [List.filter]. rewrite Hdown.
    destruct Hfin as [-> | ->]; reflexivity.
Qed.

(** X10: a pointerdown without a target is not ignored, and it fails: the
    default is prevented, then the pointer capture throws a TypeError, and
    neither the tracker nor the tool nor the project-changed notification
    is reached. *)
Theorem pointerdown_without_target_throws win ev m :
  ev_type ev = RawPointerDown ->
  ev_target ev = None ->
  shouldIgnore ev = false /\
  exists msg m',
    routePointer win ev m = Abrupt (JsTypeError msg) m' /\
    new_effects m m' = [EvPreventDefault] /\
    sessions m' = sessions m /\
    world m' = world m /\
    tools m' = tools m /\ activeTool m' = activeTool m.
Proof.
  intros Htype Htarget.
  assert (Hig : shouldIgnore ev = false)
    by (unfold shouldIgnore; rewrite Htarget; reflexivity).
  split; [exact Hig|].
  unfold routePointer. rewrite Hig, Htype.
  unfold capturePointer. rewrite Htarget.
  unfold bind, emit, throw. cbn.
  eexists. eexists. split; [reflexivity|].
  split; [|repeat split].
  apply InputManagerFacts.new_effects_app. reflexivity.
Qed.

(** X11: key events go straight to the tool host: [handleKeyDown] and
    [handleKeyUp] always complete, call [onKeyDown] respectively [onKeyUp]
    of the active tool (if it has it) with the canonical key event, and
    never prevent a default, touch a session or notify project-changed. *)
Theorem key_events_are_forwarded_unfiltered ev m :
  (exists m',
     handleKeyDown ev m = Normal tt m' /\
     sessions m' = sessions m /\
     invocations (new_effects m m') =
       match activeTool m with
       | Some t => expected_call t (HKey keydown (makeKeyData ev)) (onKeyDown t)
       | None => []
       end /\
     Forall (fun e => match e with
                      | EvInvoke _ _ | EvConsoleError _ _ => True
                      | _ => False
                      end) (new_effects m m')) /\
  (exists m',
     handleKeyUp ev m = Normal tt m' /\
     sessions m' = sessions m /\
     invocations (new_effects m m') =
       match activeTool m with
       | Some t => expected_call t (HKey keyup (makeKeyData ev)) (onKeyUp t)
       | None => []
       end /\
     Forall (fun e => match e with
                      | EvInvoke _ _ | EvConsoleError _ _ => True
                      | _ => False
                      end) (new_effects m m')).
Proof.
  unfold handleKeyDown, handleKeyUp.
  split.
  - destruct (activeTool m) as [t|] eqn:Ht.
    + eexists. split; [apply ToolSystemFacts.dispatchKey_active, Ht|].
      rewrite ToolSystemFacts.new_effects_evolved,
        ToolSystemFacts.invocations_guarded_call.
      split; [reflexivity|]. split.
      * cbn [key_handler]. destruct (onKeyDown t); reflexivity.
      * cbn [key_handler]. destruct (onKeyDown t) as [h|]; cbn;
          [|constructor].
        destruct (h (makeKeyData ev) (world m)); repeat constructor.
    + exists m. split; [apply ToolSystemFacts.dispatchKey_idle, Ht|].
      unfold new_effects. rewrite drop_all. repeat split. constructor.
  - destruct (activeTool m) as [t|] eqn:Ht.
    + eexists. split; [apply ToolSystemFacts.dispatchKey_active, Ht|].
      rewrite ToolSystemFacts.new_effects_evolved,
        ToolSystemFacts.invocations_guarded_call.
      split; [reflexivity|]. split.
      * cbn [key_handler]. destruct (onKeyUp t); reflexivity.
      * cbn [key_handler]. destruct (onKeyUp t) as [h|]; cbn;
          [|constructor].
        destruct (h (makeKeyData ev) (world m)); repeat constructor.
    + exists m. split; [apply ToolSystemFacts.dispatchKey_idle, Ht|].
      unfold new_effects. rewrite drop_all. repeat split. constructor.
Qed.

End WithWorld.
Lemma stream_reaches_tracker_and_tool_in_order_witness :
  notifications
    (new_effects Samples.host
       (route_stream Samples.win
          [Samples2.down; Samples2.move; Samples2.cancel] Samples.host)) = 2.
Proof.
  destruct (stream_reaches_tracker_and_tool_in_order Samples.win
              [Samples2.down; Samples2.move; Samples2.cancel] Samples.host)
    as (_ & _ & _ & _ & Hnotes).
  - repeat constructor; discriminate.
  - exact (Hnotes eq_refl).
Defined.

Lemma gesture_opens_and_closes_its_session_witness :
  sessions
    (route_stream Samples.win
       [Samples2.down; Samples2.move; Samples2.cancel] Samples.host) =
  delete 7%Z (sessions Samples.host).
Proof.
  destruct (gesture_opens_and_closes_its_session Samples.win 7
              Samples2.down [Samples2.move] Samples2.cancel Samples.host)
    as (_ & Hclosed & _).
  - split; [|split; [reflexivity|split; [|right; reflexivity]]].
    + repeat constructor; discriminate.
    + repeat constructor.
  - exact Hclosed.
Defined.

Lemma pointerdown_without_target_throws_witness :
  exists msg m',
    routePointer Samples.win Samples2.stray_down Samples.host =
      Abrupt (JsTypeError msg) m' /\
    sessions m' = sessions Samples.host.
Proof.
  destruct (pointerdown_without_target_throws Samples.win Samples2.stray_down
              Samples.host eq_refl eq_refl)
    as (_ & msg & m' & Hthrows & _ & Hsessions & _).
  exists msg, m'. split; assumption.
Defined.

End InputManagerMore.

(** ** The imported hierarchy and the life of an overlay *)

Module OverlayCanvasMore.
Import OverlayCanvas.

(** Induction over items, through the lists of children. *)
Lemma Item_nested_ind (P : Item -> Prop) :
  (forall segs sc fc, P (Path segs sc fc)) ->
  (forall ch sc fc, P (CompoundPath ch sc fc)) ->
  (forall ch, Forall P ch -> P (Group ch)) ->
  P OtherItem ->
  forall it, P it.
Proof.
  intros HPath HCompound HGroup HOther.
  fix IH 1. intros [segs sc fc|ch sc fc|ch|].
  - apply HPath.
  - apply HCompound.
  - apply HGroup. induction ch as [|c ch IHch]; constructor.
    + apply IH.
    + exact IHch.
  - exact HOther.
Qed.

Lemma map_ext_Forall {A B} (f g : A -> B) (l : list A) :
  Forall (fun x => f x = g x) l -> map f l = map g l.
Proof. induction 1 as [|x l Hx _ IH]; cbn; [reflexivity|]. rewrite Hx, IH. reflexivity. Qed.

Lemma Forall_concat_map {A B} (P : B -> Prop) (f : A -> list B) (l : list A) :
  Forall (fun x => Forall P (f x)) l -> Forall P (concat (map f l)).
Proof.
  induction 1 as [|x l Hx _ IH]; cbn; [constructor|].
  apply Forall_app. split; assumption.
Qed.

Lemma applyColour_targets p s it :
  Forall (fun c => c = (Some p, Some s)) (paint_targets (applyColour p s it)).
Proof.
  induction it as [segs sc fc|ch sc fc|ch IH|] using Item_nested_ind;
    cbn [applyColour paint_targets]; try (repeat constructor).
  rewrite map_map. apply Forall_concat_map, IH.
Qed.

(** X12: [applyColour] gives every path and compound path that is reached
    through groups the stroke colour [primary] and the fill colour
    [secondary], and changes nothing else: shape, geometry and the inside
    of compound paths stay, and applying other colours afterwards simply
    replaces them. *)
Theorem applyColour_colours_exactly_the_leaves p s it :
  Forall (fun c => c = (Some p, Some s)) (paint_targets (applyColour p s it)) /\
  length (paint_targets (applyColour p s it)) = length (paint_targets it) /\
  uncoloured (applyColour p s it) = uncoloured it /\
  (forall p' s', applyColour p' s' (applyColour p s it) = applyColour p' s' it).
Proof.
  induction it as [segs sc fc|ch sc fc|ch IH|] using Item_nested_ind;
    cbn [applyColour paint_targets uncoloured].
  - repeat split. repeat constructor.
  - repeat split. repeat constructor.
  - split; [|split; [|split]].
    + rewrite map_map. apply Forall_concat_map.
      eapply Forall_impl; [exact IH|]. intros c (Hc & _). exact Hc.
    + induction IH as [|c ch (_ & Hc & _) _ IHch]; cbn; [reflexivity|].
      rewrite !length_app, Hc, IHch. reflexivity.
    + f_equal. rewrite map_map. apply map_ext_Forall.
      eapply Forall_impl; [exact IH|]. intros c (_ & _ & Hc & _). exact Hc.
    + intros p' s'. f_equal. rewrite map_map. apply map_ext_Forall.
      eapply Forall_impl; [exact IH|]. intros c (_ & _ & _ & Hc). apply Hc.
  - repeat split. constructor.
Qed.

(** Scaling changes no colour and colouring no geometry: the two
    steps [traceToPaper] takes on an imported item commute, and scaling
    leaves the colours of all nodes as they are. *)
Theorem scale_and_colour_commute k p s it :
  applyColour p s (scale_item k it) = scale_item k (applyColour p s it) /\
  paint_targets (scale_item k it) = paint_targets it.
Proof.
  induction it as [segs sc fc|ch sc fc|ch IH|] using Item_nested_ind;
    cbn [applyColour scale_item paint_targets].
  - split; reflexivity.
  - split; reflexivity.
  - split.
    + f_equal. rewrite !map_map. apply map_ext_Forall.
      eapply Forall_impl; [exact IH|]. intros c [Hc _]. exact Hc.
    + f_equal. rewrite map_map. apply map_ext_Forall.
      eapply Forall_impl; [exact IH|]. intros c [_ Hc]. exact Hc.
  - split; reflexivity.
Qed.

Lemma clear_listener o : resizeListener (clear o) = resizeListener o.
Proof. unfold clear. destruct (ctx o), (canvas o); reflexivity. Qed.

Lemma clear_scale o : scale (clear o) = scale o.
Proof. unfold clear. destruct (ctx o), (canvas o); reflexivity. Qed.

Lemma clear_size o : overlay_size (clear o) = overlay_size o.
Proof.
  unfold overlay_size, clear.
  destruct (ctx o); [destruct (canvas o) eqn:Hc|]; cbn; rewrite ?Hc;
    reflexivity.
Qed.

Lemma overlay_size_none o : overlay_size o = None <-> canvas o = None.
Proof. unfold overlay_size. destruct (canvas o); cbn; split; congruence. Qed.

(** What [catch_finally] keeps of the state the [try] block was left in. *)
Lemma catch_finally_frame out o :
  let r := catch_finally (out, o) in
  ctx (snd r) = ctx o /\ resizeListener (snd r) = resizeListener o /\
  scale (snd r) = scale o /\ overlay_size (snd r) = overlay_size o /\
  project (snd r) = project o /\
  fst r = match out with Return imported => imported | Raise _ => None end.
Proof.
  destruct out as [imported|err]; cbn [catch_finally fst snd];
    rewrite OverlayCanvasFacts.clear_ctx, clear_listener, clear_scale, clear_size,
      OverlayCanvasFacts.clear_project; repeat split.
Qed.

(** X13: a trace that succeeds returns the imported item scaled by
    [1 / scale] and coloured with the current primary and secondary colour,
    and adds exactly that item to the project; every path it reaches through
    groups carries those colours, which are the defaults [#007acc] and
    [#ff6b6b] when the page has no colours or an empty one. *)
Theorem traceToPaper_imports_coloured_item page svg imported meanwhile o :
  getCanvas o <> None ->
  potrace page = PotracePromise ->
  importSVG page svg = Imported (Some imported) ->
  let r := traceToPaper page (Resolved svg) meanwhile o in
  let item :=
    applyColour (page_primary page) (page_secondary page)
      (scale_item (PrimFloat.div 1 (getScale (meanwhile o))) imported) in
  fst r = Some item /\
  project (snd r) = project (meanwhile o) ++ [item] /\
  Forall (fun c => c = (Some (page_primary page), Some (page_secondary page)))
    (paint_targets item) /\
  (globalColors page = None ->
   page_primary page = "#007acc" /\ page_secondary page = "#ff6b6b") /\
  (forall c, globalColors page = Some c ->
     (primary c = "" -> page_primary page = "#007acc") /\
     (primary c <> "" -> page_primary page = primary c) /\
     (secondary c = "" -> page_secondary page = "#ff6b6b") /\
     (secondary c <> "" -> page_secondary page = secondary c)).
Proof.
  intros Hcanvas Hpotrace Himport r item.
  split; [|split; [|split; [|split]]].
  - unfold r, traceToPaper, trace_until_await.
    destruct (getCanvas o); [|contradiction]. rewrite Hpotrace.
    cbn [trace_after_await]. rewrite Himport. reflexivity.
  - unfold r, traceToPaper, trace_until_await.
    destruct (getCanvas o); [|contradiction]. rewrite Hpotrace.
    cbn [trace_after_await]. rewrite Himport. cbn [catch_finally snd].
    rewrite OverlayCanvasFacts.clear_project. reflexivity.
  - apply applyColour_targets.
  - intros Hnone. unfold page_primary, page_secondary. rewrite Hnone.
    split; reflexivity.
  - intros c Hc. unfold page_primary, page_secondary, or_default.
    rewrite Hc. cbn.
    destruct (String.eqb_spec (primary c) ""),
             (String.eqb_spec (secondary c) "");
      repeat split; intros; congruence.
Qed.

(** The shape of the overlay is not touched by a trace. *)
Lemma traceToPaper_shape page settled o :
  let r := traceToPaper page settled id o in
  ctx (snd r) = ctx o /\
  resizeListener (snd r) = resizeListener o /\
  overlay_size (snd r) = overlay_size o.
Proof.
  intros r. unfold r, traceToPaper, trace_until_await, trace_after_await, id.
  destruct (getCanvas o) as [canvasEl|];
    [destruct (potrace page) as [|err|];
       [| |destruct settled as [svg|err];
            [destruct (importSVG page svg) as [[imported|]|err]|]]|];
    match goal with
    | |- context [catch_finally (?out, ?o1)] =>
        destruct (catch_finally_frame out o1) as (H1 & H2 & _ & H4 & _)
    end;
    rewrite H1, H2, H4; repeat split.
Qed.

(** X14: when nothing else touches the overlay during the call,
    [traceToPaper] changes only pixels, console and project: context,
    resize listener, scale and pixel size stay; a call that returns nothing
    adds nothing to the project, and a call that returns an item added
    exactly that item at the end. *)
Theorem traceToPaper_touches_only_pixels_console_project page settled o :
  let r := traceToPaper page settled id o in
  ctx (snd r) = ctx o /\
  resizeListener (snd r) = resizeListener o /\
  scale (snd r) = scale o /\
  overlay_size (snd r) = overlay_size o /\
  (fst r = None -> project (snd r) = project o) /\
  (forall item, fst r = Some item -> project (snd r) = project o ++ [item]).
Proof.
  intros r. unfold r, traceToPaper, trace_until_await.
  destruct (getCanvas o) as [canvasEl|].
  - destruct (potrace page) as [|err|].
    + destruct (catch_finally_frame (Return None)
                  (with_console
                     (ConsoleError "OverlayCanvas: Potrace is not initialised"
                        None) o))
        as (H1 & H2 & H3 & H4 & H5 & H6).
      rewrite H1, H2, H3, H4, H5, H6. repeat split. intros; discriminate.
    + destruct (catch_finally_frame (Raise err) o)
        as (H1 & H2 & H3 & H4 & H5 & H6).
      rewrite H1, H2, H3, H4, H5, H6. repeat split. intros; discriminate.
    + unfold trace_after_await, id.
      destruct settled as [svg|err].
      * destruct (importSVG page svg) as [[imported|]|err].
        -- match goal with
           | |- context [catch_finally (?out, ?o1)] =>
               destruct (catch_finally_frame out o1)
                 as (H1 & H2 & H3 & H4 & H5 & H6)
           end.
           rewrite H1, H2, H3, H4, H5, H6. repeat split.
           ++ intros; discriminate.
           ++ intros item [= <-]. reflexivity.
        -- destruct (catch_finally_frame (Return None) o)
             as (H1 & H2 & H3 & H4 & H5 & H6).
           rewrite H1, H2, H3, H4, H5, H6. repeat split. intros; discriminate.
        -- destruct (catch_finally_frame (Raise err) o)
             as (H1 & H2 & H3 & H4 & H5 & H6).
           rewrite H1, H2, H3, H4, H5, H6. repeat split. intros; discriminate.
      * destruct (catch_finally_frame (Raise err) o)
          as (H1 & H2 & H3 & H4 & H5 & H6).
        rewrite H1, H2, H3, H4, H5, H6. repeat split. intros; discriminate.
  - destruct (catch_finally_frame (Return None)
                (with_console (ConsoleWarn "OverlayCanvas: No canvas to trace") o))
      as (H1 & H2 & H3 & H4 & H5 & H6).
    rewrite H1, H2, H3, H4, H5, H6. repeat split. intros; discriminate.
Qed.

Lemma consistent_transfer o o' :
  (canvas o' = None <-> canvas o = None) ->
  (ctx o = None -> ctx o' = None) ->
  resizeListener o' = resizeListener o ->
  overlay_consistent o -> overlay_consistent o'.
Proof.
  intros Hcanvas Hctx Hlistener [Hc Hl]. split.
  - intros Hnone. apply Hctx, Hc, Hcanvas, Hnone.
  - rewrite Hlistener, Hl. split; intros H Hnone; apply H, Hcanvas, Hnone.
Qed.

Lemma consistent_new k opts prj : overlay_consistent (new k opts prj).
Proof. split; [reflexivity|]. cbn. split; [discriminate|congruence]. Qed.

Lemma consistent_destroy o : overlay_consistent o -> overlay_consistent (destroy o).
Proof.
  intros [Hc Hl].
  assert (Hcanvas : canvas (destroy o) = None)
    by apply OverlayCanvasFacts.destroy_no_canvas.
  assert (Hlist : resizeListener (destroy o) = false).
  { unfold destroy. destruct (canvas o); cbn;
      destruct (resizeListener o) eqn:Hr; cbn; auto. }
  assert (Hctx : ctx (destroy o) = None).
  { unfold destroy. destruct (canvas o) eqn:Hcv; cbn;
      destruct (resizeListener o); cbn; auto. }
  split; [auto|]. rewrite Hlist, Hcanvas. split; [discriminate|congruence].
Qed.

Lemma updateSize_shape page o :
  (canvas (updateSize page o) = None <-> canvas o = None) /\
  (ctx o = None -> ctx (updateSize page o) = None) /\
  resizeListener (updateSize page o) = resizeListener o.
Proof.
  unfold updateSize.
  destruct (paper_canvas page) as [rect|]; [|tauto].
  destruct (canvas o) as [c|] eqn:Hc; [|rewrite Hc; tauto].
  cbn. destruct (ctx o) eqn:Hctx; cbn; repeat split; congruence.
Qed.

Lemma consistent_create page o :
  overlay_consistent o -> overlay_consistent (snd (create page o)).
Proof.
  intros Hok. unfold create.
  destruct (paper_canvas page) as [rect|] eqn:Hpc; cbn [snd].
  - split.
    + cbn. unfold updateSize. rewrite Hpc. cbn.
      destruct (ctx (destroy o)), (context2d page); cbn; discriminate.
    + cbn. unfold updateSize. rewrite Hpc. cbn.
      destruct (ctx (destroy o)), (context2d page); cbn;
        split; congruence.
  - revert Hok. apply consistent_transfer; [reflexivity|auto|reflexivity].
Qed.

Lemma consistent_clear o : overlay_consistent o -> overlay_consistent (clear o).
Proof.
  apply consistent_transfer.
  - rewrite <- !overlay_size_none, clear_size. reflexivity.
  - rewrite OverlayCanvasFacts.clear_ctx. auto.
  - apply clear_listener.
Qed.

Lemma consistent_paint f o : overlay_consistent o -> overlay_consistent (paint f o).
Proof.
  unfold paint. destruct (ctx o) eqn:Hctx; [|auto].
  destruct (canvas o) eqn:Hc; [|auto].
  apply consistent_transfer; cbn; [|congruence|reflexivity].
  rewrite Hc. split; discriminate.
Qed.

Lemma consistent_alter c2d o : overlay_consistent o -> overlay_consistent (alter c2d o).
Proof.
  unfold alter. destruct (ctx o) eqn:Hctx; [|auto].
  apply consistent_transfer; cbn; [reflexivity|congruence|reflexivity].
Qed.

Lemma consistent_trace page settled o :
  overlay_consistent o ->
  overlay_consistent (snd (traceToPaper page settled id o)).
Proof.
  destruct (traceToPaper_shape page settled o) as (Hctx & Hl & Hsize).
  apply consistent_transfer.
  - rewrite <- !overlay_size_none, Hsize. reflexivity.
  - rewrite Hctx. auto.
  - exact Hl.
Qed.

Lemma consistent_step s o : overlay_consistent o -> overlay_consistent (step s o).
Proof.
  intros Hok. destruct s as [page|page| | |f|c2d|page settled]; cbn [step].
  - apply consistent_create, Hok.
  - destruct (resizeListener o); [|exact Hok].
    destruct (updateSize_shape page o) as (Hc & Hctx & Hl).
    revert Hok. apply consistent_transfer; assumption.
  - apply consistent_clear, Hok.
  - apply consistent_destroy, Hok.
  - apply consistent_paint, Hok.
  - apply consistent_alter, Hok.
  - apply consistent_trace, Hok.
Qed.

Lemma consistent_steps l : forall o,
  overlay_consistent o -> overlay_consistent (steps l o).
Proof.
  induction l as [|s l IH]; intros o Hok; [exact Hok|].
  change (overlay_consistent (steps l (step s o))).
  apply IH, consistent_step, Hok.
Qed.

(** X15: an overlay is set up or torn down as a whole: in every state
    reached from [new OverlayCanvas(...)] there is a context only if there
    is a canvas, and a resize listener exactly when there is a canvas.
    [getImageData] returns [null] exactly when there is no context; with a
    context it throws an [IndexSizeError] exactly when the width or the
    height of the canvas is zero, a [SecurityError] exactly when they are
    not and the bitmap is not origin-clean, and returns the pixels
    otherwise. *)
Theorem overlay_is_set_up_or_torn_down k opts prj l :
  let o := steps l (new k opts prj) in
  (getContext o <> None -> getCanvas o <> None) /\
  (resizeListener o = true <-> getCanvas o <> None) /\
  (getImageData o = Got None <-> getContext o = None) /\
  (forall c2d w h,
     getContext o = Some c2d -> overlay_size o = Some (w, h) ->
     (getImageData o = DOMException "IndexSizeError" <->
      w = 0%Z \/ h = 0%Z) /\
     (getImageData o = DOMException "SecurityError" <->
      w <> 0%Z /\ h <> 0%Z /\ origin_clean c2d = false) /\
     ((exists data, getImageData o = Got (Some data)) <->
      w <> 0%Z /\ h <> 0%Z /\ origin_clean c2d = true)).
Proof.
  intros o.
  destruct (consistent_steps l (new k opts prj) (consistent_new k opts prj))
    as [Hc Hl].
  fold o in Hc, Hl.
  unfold getContext, getCanvas, getImageData, overlay_size.
  split; [|split; [|split]].
  - intros Hctx Hnone. apply Hctx, Hc, Hnone.
  - exact Hl.
  - destruct (ctx o) as [c2d|] eqn:Hctx; [|split; reflexivity].
    destruct (canvas o) as [c|] eqn:Hcanvas.
    + destruct ((width c =? 0)%Z || (height c =? 0)%Z);
        [|destruct (origin_clean c2d)]; split; discriminate.
    + specialize (Hc eq_refl). discriminate.
  - intros c2d w h Hctx Hsize. rewrite Hctx.
    destruct (canvas o) as [c|]; [|discriminate].
    cbn in Hsize. injection Hsize as <- <-.
    destruct (origin_clean c2d) eqn:Hclean;
      destruct (Z.eqb_spec (width c) 0) as [Hw|Hw];
      destruct (Z.eqb_spec (height c) 0) as [Hh|Hh];
      cbn [orb];
      repeat match goal with
             | |- _ /\ _ => split
             | |- _ <-> _ => split
             end;
      intros;
      repeat match goal with
             | H : _ /\ _ |- _ => destruct H
             | H : exists _, _ |- _ => destruct H
             | H : _ \/ _ |- _ => destruct H
             end;
      try discriminate; try congruence; eauto.
Qed.

(** X16: [destroy] is idempotent and final: from any reached state it
    leaves no canvas, no context and no listener, keeps the project, and
    after it a resize notification, [clear] and painting change nothing and
    [getImageData] and a trace find nothing. *)
Theorem destroy_tears_down_for_good k opts prj l :
  let o := steps l (new k opts prj) in
  destroy (destroy o) = destroy o /\
  getCanvas (destroy o) = None /\
  getContext (destroy o) = None /\
  resizeListener (destroy o) = false /\
  project (destroy o) = project o /\
  getImageData (destroy o) = Got None /\
  clear (destroy o) = destroy o /\
  (forall page, step (SResize page) (destroy o) = destroy o) /\
  (forall f, paint f (destroy o) = destroy o) /\
  (forall page settled, fst (traceToPaper page settled id (destroy o)) = None).
Proof.
  intros o.
  assert (Hok : overlay_consistent (destroy o))
    by apply consistent_destroy, consistent_steps, consistent_new.
  assert (Hcanvas : canvas (destroy o) = None)
    by apply OverlayCanvasFacts.destroy_no_canvas.
  assert (Hctx : ctx (destroy o) = None) by (apply Hok, Hcanvas).
  assert (Hlist : resizeListener (destroy o) = false).
  { destruct Hok as [_ Hl]. destruct (resizeListener (destroy o)); [|reflexivity].
    exfalso. apply (proj1 Hl eq_refl), Hcanvas. }
  split; [|split; [|split; [|split; [|split; [|split; [|split; [|split;
    [|split]]]]]]]].
  - unfold destroy at 1. rewrite Hcanvas, Hlist. reflexivity.
  - exact Hcanvas.
  - exact Hctx.
  - exact Hlist.
  - unfold destroy. destruct (canvas o); cbn;
      destruct (resizeListener o); reflexivity.
  - unfold getImageData. rewrite Hctx. reflexivity.
  - unfold clear. rewrite Hctx. reflexivity.
  - intros page. cbn [step]. rewrite Hlist. reflexivity.
  - intros f. unfold paint. rewrite Hctx. reflexivity.
  - intros page settled. unfold traceToPaper, trace_until_await, getCanvas.
    rewrite Hcanvas. reflexivity.
Qed.

Lemma blank_bitmap_length w h :
  length (blank_bitmap w h) = Z.to_nat (w * h).
Proof. unfold blank_bitmap. apply repeat_length. Qed.

Lemma destroy_idem o : destroy (destroy o) = destroy o.
Proof.
  unfold destroy.
  destruct (canvas o) eqn:Hc; cbn; destruct (resizeListener o) eqn:Hl; cbn;
    rewrite ?Hc, ?Hl; reflexivity.
Qed.

Lemma destroy_keeps o :
  scale (destroy o) = scale o /\ project (destroy o) = project o /\
  console (destroy o) = console o /\ potraceOptions (destroy o) = potraceOptions o.
Proof.
  unfold destroy. destruct (canvas o); cbn; destruct (resizeListener o);
    repeat split.
Qed.

(** The overlay [create] builds on a page with a host canvas. *)
Lemma create_on_host page rect o :
  paper_canvas page = Some rect ->
  snd (create page o) =
  {| canvas :=
       Some {| style_box := Some rect;
               width := dimension 300 (PrimFloat.mul (rect_width rect) (scale o));
               height := dimension 150 (PrimFloat.mul (rect_height rect) (scale o));
               bitmap :=
                 blank_bitmap
                   (dimension 300 (PrimFloat.mul (rect_width rect) (scale o)))
                   (dimension 150 (PrimFloat.mul (rect_height rect) (scale o))) |};
     ctx := if context2d page then Some new_context else None;
     resizeListener := true;
     scale := scale o;
     potraceOptions := potraceOptions o;
     project := project o;
     console := console o ++ [ConsoleLog "Overlay canvas created"] |} /\
  fst (create page o) = (if context2d page then Some new_context else None).
Proof.
  intros Hpc. destruct (destroy_keeps o) as (Hs & Hp & Hcon & Hopt).
  unfold create. rewrite Hpc. cbn [fst snd].
  unfold updateSize. rewrite Hpc.
  cbn [canvas with_canvas ctx scale]. rewrite Hs.
  destruct (ctx (destroy o)), (context2d page); cbn;
    unfold with_console, with_resizeListener, with_ctx, with_canvas;
    cbn [canvas ctx resizeListener scale potraceOptions project console];
    rewrite ?Hs, Hp, Hcon, Hopt; split; reflexivity.
Qed.

(** X17: [create] either keeps or replaces: when the page has no host
    canvas it returns nothing, warns, and leaves an existing overlay with its
    pixels, context and listener in place; when the page has one it starts
    from scratch, whatever was there: the new canvas covers the host
    rectangle, has the scaled pixel size and an empty bitmap of that size,
    the resize listener is registered, and the handle returned is the
    context kept in the overlay. *)
Theorem create_keeps_or_replaces page o :
  (paper_canvas page = None ->
   create page o =
     (None, with_console (ConsoleWarn "Paper canvas not found") o)) /\
  (forall rect,
     paper_canvas page = Some rect ->
     let w := dimension 300 (PrimFloat.mul (rect_width rect) (scale o)) in
     let h := dimension 150 (PrimFloat.mul (rect_height rect) (scale o)) in
     let o' := snd (create page o) in
     getCanvas o' =
       Some {| style_box := Some rect; width := w; height := h;
               bitmap := blank_bitmap w h |} /\
     length (blank_bitmap w h) = Z.to_nat (w * h) /\
     OverlayCanvas.cleared o' /\
     fst (create page o) = getContext o' /\
     (getContext o' <> None <-> context2d page = true) /\
     resizeListener o' = true /\
     project o' = project o /\
     scale o' = scale o /\
     snd (create page (destroy o)) = o').
Proof.
  split.
  - intros Hpc. unfold create. rewrite Hpc. reflexivity.
  - intros rect Hpc w h o'.
    destruct (create_on_host page rect o Hpc) as [Hsnd Hfst].
    destruct (create_on_host page rect (destroy o) Hpc) as [Hsnd' _].
    destruct (destroy_keeps o) as (Hs & Hp & Hcon & Hopt).
    rewrite Hs, Hp, Hcon, Hopt in Hsnd'.
    unfold o'. rewrite Hsnd', Hfst, Hsnd. unfold getCanvas, getContext.
    cbn [canvas ctx resizeListener project scale].
    split; [reflexivity|]. split; [apply blank_bitmap_length|].
    split; [unfold OverlayCanvas.cleared; cbn;
            apply OverlayCanvasFacts.cleared_blank_bitmap|].
    split; [reflexivity|]. split; [|repeat split].
    destruct (context2d page); split; congruence.
Qed.





(** X19: a resize notification loses what was painted: on an overlay that
    has a canvas (and so a listener) and a page that has the host canvas,
    the bitmap is reallocated at the new scaled size and is empty, and the
    context, if there is one, is back in the state of a new context (matrix,
    clip and origin-clean flag are reset); listener, project and scale stay.
    Afterwards [getImageData] returns the empty picture, unless the new
    width or height is zero, when it throws an [IndexSizeError]. *)
Theorem resize_loses_the_picture k opts prj l page rect :
  let o := steps l (new k opts prj) in
  getCanvas o <> None ->
  paper_canvas page = Some rect ->
  let o' := step (SResize page) o in
  let w := dimension 300 (PrimFloat.mul (rect_width rect) (scale o)) in
  let h := dimension 150 (PrimFloat.mul (rect_height rect) (scale o)) in
  overlay_size o' = Some (w, h) /\
  getContext o' =
    match getContext o with
    | Some _ => Some new_context
    | None => None
    end /\
  getImageData o' =
    match getContext o with
    | Some _ =>
        if (w =? 0)%Z || (h =? 0)%Z then DOMException "IndexSizeError"
        else Got (Some (repeat 0%Z (Z.to_nat (w * h))))
    | None => Got None
    end /\
  OverlayCanvas.cleared o' /\
  untransformed o' /\
  resizeListener o' = true /\
  project o' = project o /\ scale o' = scale o.
Proof.
  intros o Hcanvas Hpc o' w h.
  destruct (consistent_steps l (new k opts prj) (consistent_new k opts prj))
    as [_ Hl].
  fold o in Hl. unfold getCanvas in Hcanvas. apply Hl in Hcanvas as Hlist.
  unfold o'. cbn [step]. rewrite Hlist.
  unfold updateSize, getCanvas, getContext, getImageData, overlay_size,
    untransformed in *.
  rewrite Hpc. destruct (canvas o) as [c|]; [|contradiction].
  cbn [canvas with_canvas ctx]. fold w h.
  destruct (ctx o) as [c2d|] eqn:Hctx; cbn;
    rewrite ?Hctx;
    (split; [reflexivity|]); (split; [reflexivity|]);
    (split; [reflexivity|]);
    (split; [unfold OverlayCanvas.cleared; cbn;
             apply OverlayCanvasFacts.cleared_blank_bitmap|]);
    (split; [intros c0 Hc0; try discriminate;
             injection Hc0 as <-; reflexivity|]);
    repeat split; exact Hlist.
Qed.

Lemma traceToPaper_imports_coloured_item_witness :
  fst (traceToPaper Samples.page (Resolved "<svg/>") id Samples2.painted) =
  Some (applyColour "#007acc" "#ff6b6b"
          (scale_item (PrimFloat.div 1 0.25) Samples.traced_item)).
Proof.
  destruct (traceToPaper_imports_coloured_item Samples.page "<svg/>"
              Samples.traced_item id Samples2.painted)
    as (Hitem & _).
  - vm_compute. discriminate.
  - reflexivity.
  - reflexivity.
  - exact Hitem.
Defined.

Lemma traceToPaper_touches_only_pixels_console_project_witness :
  project
    (snd (traceToPaper Samples.page (Resolved "<svg/>") id
            (new 0.25 "" []))) = [].
Proof.
  destruct (traceToPaper_touches_only_pixels_console_project Samples.page
              (Resolved "<svg/>") (new 0.25 "" []))
    as (_ & _ & _ & _ & Hnothing & _).
  apply Hnothing. reflexivity.
Defined.

Lemma overlay_is_set_up_or_torn_down_witness :
  getCanvas Samples2.painted <> None.
Proof.
  destruct (overlay_is_set_up_or_torn_down 0.25 "" [] Samples.painted_overlay)
    as (Hcanvas & _).
  apply Hcanvas. vm_compute. discriminate.
Defined.

Lemma create_keeps_or_replaces_witness :
  create Samples2.bare_page Samples2.painted =
    (None,
     with_console (ConsoleWarn "Paper canvas not found") Samples2.painted) /\
  resizeListener (snd (create Samples.page (new 0.25 "" []))) = true.
Proof.
  split.
  - destruct (create_keeps_or_replaces Samples2.bare_page Samples2.painted)
      as [Hkeeps _].
    exact (Hkeeps eq_refl).
  - destruct (create_keeps_or_replaces Samples.page (new 0.25 "" []))
      as [_ Hreplaces].
    destruct (Hreplaces Samples.host_rect eq_refl)
      as (_ & _ & _ & _ & _ & Hlistener & _).
    exact Hlistener.
Defined.


Lemma resize_loses_the_picture_witness :
  OverlayCanvas.cleared (step (SResize Samples.page) Samples2.painted) /\
  getImageData (step (SResize Samples2.tiny_page) Samples2.painted) =
    DOMException "IndexSizeError".
Proof.
  split.
  - destruct (resize_loses_the_picture 0.25 "" [] Samples.painted_overlay
                Samples.page Samples.host_rect)
      as (_ & _ & _ & Hcleared & _).
    + vm_compute. discriminate.
    + reflexivity.
    + exact Hcleared.
  - destruct (resize_loses_the_picture 0.25 "" [] Samples.painted_overlay
                Samples2.tiny_page Samples2.tiny_rect)
      as (_ & _ & Hdata & _).
    + vm_compute. discriminate.
    + reflexivity.
    + refine (eq_trans Hdata _). vm_compute. reflexivity.
Defined.

End OverlayCanvasMore.

(** ** Listeners and the tool loader *)

Module PaperManagerFacts.
Import PaperManager.

Section WithWorld.
Context {W : Type}.
Implicit Types (s : State W) (ls : list (Listener W)).

Lemma same_but_world_refl s : same_but_world s s.
Proof. repeat split. Qed.

Lemma same_but_world_trans s1 s2 s3 :
  same_but_world s1 s2 -> same_but_world s2 s3 -> same_but_world s1 s3.
Proof.
  intros (H1 & H2 & H3 & H4 & H5 & H6 & H7) (K1 & K2 & K3 & K4 & K5 & K6 & K7).
  repeat split; congruence.
Qed.

Lemma call_listener_frame (l : Listener W) p s :
  same_but_world s (final (call_listener l p s)) /\
  calls (final (call_listener l p s)) = calls s ++ [(callback_id l, p)].
Proof.
  unfold call_listener, pm_bind, record_call, on_host, run_handler. cbn.
  destruct (callback l p (world (host s))); cbn; repeat split.
Qed.

(** A notification runs the callbacks registered for its type, in the
    order of registration, until one throws; it changes nothing but the
    world and the record of calls. *)
Lemma notify_each_frame type p ls : forall s,
  let r := notify_each type p ls s in
  same_but_world s (final r) /\
  exists cs,
    calls (final r) = calls s ++ cs /\
    cs `prefix_of` deliveries type p ls /\
    (forall s', r = Completed tt s' -> cs = deliveries type p ls).
Proof.
  induction ls as [|l ls IH]; intros s; cbn [notify_each].
  - split; [apply same_but_world_refl|]. exists []. rewrite app_nil_r.
    repeat split. reflexivity.
  - unfold pm_bind, deliveries. cbn [List.filter].
    destruct (type_eqb (listener_type l) type) eqn:Htype.
    + destruct (call_listener_frame l p s) as [Hsame Hcalls].
      destruct (call_listener l p s) as [[] s1|err s1] eqn:Hcall;
        cbn [final] in *.
      * destruct (IH s1) as (Hsame' & cs & Hcs & Hpre & Hall).
        split; [eapply same_but_world_trans; eassumption|].
        exists ((callback_id l, p) :: cs). split; [|split].
        -- rewrite Hcs, Hcalls, <- app_assoc. reflexivity.
        -- rewrite fmap_cons. apply prefix_cons, Hpre.
        -- intros s' Hr. rewrite fmap_cons. f_equal. eapply Hall, Hr.
      * split; [exact Hsame|]. exists [(callback_id l, p)].
        split; [exact Hcalls|]. split; [|discriminate].
        rewrite fmap_cons. apply prefix_cons, prefix_nil.
    + cbn [pm_ret]. apply IH.
Qed.

Lemma new_calls_app s s' cs : calls s' = calls s ++ cs -> new_calls s s' = cs.
Proof. intros H. unfold new_calls. rewrite H. apply drop_app_length. Qed.

Lemma notify_each_thrown type p ls : forall s err s',
  notify_each type p ls s = Thrown err s' ->
  exists l before,
    new_calls s s' = before ++ [(callback_id l, p)] /\
    l ∈ ls /\ listener_type l = type.
Proof.
  induction ls as [|l ls IH]; intros s err s' Hr; cbn [notify_each] in Hr.
  - discriminate.
  - unfold pm_bind in Hr.
    destruct (type_eqb (listener_type l) type) eqn:Htype.
    + destruct (call_listener_frame l p s) as [_ Hcalls].
      destruct (call_listener l p s) as [[] s1|err1 s1] eqn:Hcall;
        cbn [final] in Hcalls.
      * destruct (IH s1 err s' Hr) as (l' & before & Hnew & Hin & Hty).
        exists l', ((callback_id l, p) :: before). split; [|split].
        -- apply new_calls_app.
           destruct (notify_each_frame type p ls s1) as (_ & cs & Hc & _).
           rewrite Hr in Hc. cbn [final] in Hc.
           unfold new_calls in Hnew. rewrite Hc, drop_app_length in Hnew.
           rewrite Hc, Hcalls, Hnew, <- app_assoc. reflexivity.
        -- apply elem_of_cons. right. exact Hin.
        -- exact Hty.
      * injection Hr as <- <-. exists l, []. split; [|split].
        -- apply new_calls_app. exact Hcalls.
        -- apply elem_of_cons. left. reflexivity.
        -- destruct (listener_type l), type; (reflexivity || discriminate).
    + cbn [pm_ret] in Hr.
      destruct (IH s err s' Hr) as (l' & before & Hnew & Hin & Hty).
      exists l', before. split; [exact Hnew|]. split; [|exact Hty].
      apply elem_of_cons. right. exact Hin.
Qed.

Lemma notify_frame type p s :
  let r := notify type p s in
  same_but_world s (final r) /\
  exists cs,
    calls (final r) = calls s ++ cs /\
    cs `prefix_of` deliveries type p (eventListeners s) /\
    (forall s', r = Completed tt s' -> cs = deliveries type p (eventListeners s)).
Proof. apply notify_each_frame. Qed.

Lemma notify_each_app type p ls ls' s :
  notify_each type p (ls ++ ls') s =
  pm_bind (notify_each type p ls) (fun _ => notify_each type p ls') s.
Proof.
  revert s. induction ls as [|l ls IH]; intros s; [reflexivity|].
  cbn [app notify_each]. unfold pm_bind.
  destruct (if type_eqb (listener_type l) type then call_listener l p
            else pm_ret tt) as [[] s1|err s1] eqn:Hl.
  - rewrite IH. reflexivity.
  - reflexivity.
Qed.

Lemma type_eqb_refl type : type_eqb type type = true.
Proof. destruct type; reflexivity. Qed.

(** The round up to and including listener [l], when the listeners before
    it have returned. *)
Lemma notify_each_upto type p before l s s1 :
  listener_type l = type ->
  notify_each type p before s = Completed tt s1 ->
  notify_each type p (before ++ [l]) s = call_listener l p s1 /\
  calls s1 = calls s ++ deliveries type p before.
Proof.
  intros Hty Hbefore. split.
  - rewrite notify_each_app. unfold pm_bind at 1. rewrite Hbefore.
    cbn [notify_each]. rewrite Hty, type_eqb_refl. unfold pm_bind.
    destruct (call_listener l p s1) as [[] s2|err s2]; reflexivity.
  - destruct (notify_each_frame type p before s) as (_ & cs & Hcs & _ & Hall).
    rewrite Hbefore in Hcs, Hall. cbn [final] in Hcs.
    rewrite Hcs, (Hall s1 eq_refl). reflexivity.
Qed.

(** X20: a notification reaches the callbacks registered for its type in
    the order of registration, and no others, and changes nothing of
    registry, active tool, sessions, code and listeners.  A callback that
    throws ends the round: when the listeners before it have returned and it
    throws, [notify] throws what it threw and the listeners after it are not
    called; when it returns, the round goes on with the listeners after
    it. *)
Theorem notification_reaches_listeners_in_order type p s :
  let r := notify type p s in
  new_calls s (final r) `prefix_of` deliveries type p (eventListeners s) /\
  (forall s', r = Completed tt s' ->
     new_calls s s' = deliveries type p (eventListeners s)) /\
  (forall err s', r = Thrown err s' ->
     exists l before,
       new_calls s s' = before ++ [(callback_id l, p)] /\
       l ∈ eventListeners s /\ listener_type l = type) /\
  same_but_world s (final r) /\
  (forall before l after s1 err w,
     eventListeners s = before ++ l :: after ->
     listener_type l = type ->
     notify_each type p before s = Completed tt s1 ->
     callback l p (world (host s1)) = Throws err w ->
     exists s',
       r = Thrown err s' /\
       world (host s') = w /\
       new_calls s s' = deliveries type p before ++ [(callback_id l, p)]) /\
  (forall before l after s1 w,
     eventListeners s = before ++ l :: after ->
     listener_type l = type ->
     notify_each type p before s = Completed tt s1 ->
     callback l p (world (host s1)) = Returns w ->
     exists s2,
       notify_each type p (before ++ [l]) s = Completed tt s2 /\
       world (host s2) = w /\
       new_calls s s2 = deliveries type p before ++ [(callback_id l, p)] /\
       r = notify_each type p after s2).
Proof.
  intros r. destruct (notify_frame type p s) as (Hsame & cs & Hcs & Hpre & Hall).
  fold r in Hsame, Hcs, Hpre, Hall.
  rewrite (new_calls_app _ _ _ Hcs).
  split; [exact Hpre|]. split; [|split; [|split; [exact Hsame|split]]].
  - intros s' Hr. rewrite Hr in Hcs. cbn in Hcs.
    rewrite (new_calls_app _ _ _ Hcs). eapply Hall, Hr.
  - intros err s' Hr. apply (notify_each_thrown type p _ _ _ _ Hr).
  - intros before l after s1 err w Hls Hty Hbefore Hthrows.
    destruct (notify_each_upto type p before l s s1 Hty Hbefore)
      as [Hupto Hcalls].
    assert (Hr : r =
      pm_bind (notify_each type p (before ++ [l]))
        (fun _ => notify_each type p after) s).
    { unfold r, notify. rewrite Hls.
      change (before ++ l :: after) with (before ++ [l] ++ after).
      rewrite app_assoc. apply notify_each_app. }
    rewrite Hr. unfold pm_bind. rewrite Hupto.
    unfold call_listener, pm_bind, record_call, on_host, run_handler.
    cbn [host world]. rewrite Hthrows. eexists. split; [reflexivity|].
    split; [reflexivity|].
    apply new_calls_app. cbn [calls with_host]. rewrite Hcalls, app_assoc.
    reflexivity.
  - intros before l after s1 w Hls Hty Hbefore Hreturns.
    destruct (notify_each_upto type p before l s s1 Hty Hbefore)
      as [Hupto Hcalls].
    assert (Hr : r =
      pm_bind (notify_each type p (before ++ [l]))
        (fun _ => notify_each type p after) s).
    { unfold r, notify. rewrite Hls.
      change (before ++ l :: after) with (before ++ [l] ++ after).
      rewrite app_assoc. apply notify_each_app. }
    rewrite Hr. unfold pm_bind. rewrite Hupto.
    unfold call_listener, pm_bind, record_call, on_host, run_handler.
    cbn [host world]. rewrite Hreturns. eexists. split; [reflexivity|].
    split; [reflexivity|]. split; [|reflexivity].
    apply new_calls_app. cbn [calls with_host]. rewrite Hcalls, app_assoc.
    reflexivity.
Qed.

Lemma type_eqb_eq a b : type_eqb a b = true <-> a = b.
Proof. destruct a, b; cbn; split; congruence. Qed.

Lemma deliveries_app type p ls ls' :
  deliveries type p (ls ++ ls') = deliveries type p ls ++ deliveries type p ls'.
Proof. unfold deliveries. rewrite List.filter_app, fmap_app. reflexivity. Qed.

Lemma remove_filter_none type id ls :
  Forall (fun l => ~ registered_for type id l) ls ->
  List.filter
    (fun l => negb (type_eqb (listener_type l) type && Nat.eqb (callback_id l) id))
    ls = ls.
Proof.
  induction 1 as [|l ls Hl _ IH]; [reflexivity|]. cbn [List.filter].
  destruct (type_eqb (listener_type l) type) eqn:Ht;
    destruct (Nat.eqb_spec (callback_id l) id) as [Hid|Hid]; cbn;
    rewrite IH; try reflexivity.
  exfalso. apply Hl. split; [apply type_eqb_eq, Ht|exact Hid].
Qed.

(** X21: registering and unregistering listeners.  [removeEventListener]
    removes every entry of the callback for the type and no other, so
    afterwards a notification of that type does not reach the callback while
    every other delivery is as before; [addEventListener] does not
    deduplicate, so a callback added twice is called twice per notification,
    and one removal removes both entries; adding and removing a callback
    that was not registered restores the listeners. *)
Theorem listeners_register_and_unregister type id cb p s :
  Forall (fun l => ~ registered_for type id l)
    (eventListeners (removeEventListener type id s)) /\
  ((id, p) ∉
     deliveries type p (eventListeners (removeEventListener type id s))) /\
  (forall type' p',
     deliveries type' p' (eventListeners (removeEventListener type id s)) =
     List.filter
       (fun c => negb (type_eqb type' type && Nat.eqb (fst c) id))
       (deliveries type' p' (eventListeners s))) /\
  deliveries type p
    (eventListeners
       (addEventListener type id cb (addEventListener type id cb s))) =
    deliveries type p (eventListeners s) ++ [(id, p); (id, p)] /\
  removeEventListener type id
    (addEventListener type id cb (addEventListener type id cb s)) =
    removeEventListener type id s /\
  (Forall (fun l => ~ registered_for type id l) (eventListeners s) ->
   removeEventListener type id (addEventListener type id cb s) = s).
Proof.
  assert (Hgone : Forall (fun l => ~ registered_for type id l)
                    (eventListeners (removeEventListener type id s))).
  { unfold removeEventListener. cbn [eventListeners set_eventListeners].
    apply Forall_forall. intros l Hin [Ht Hid].
    apply list_elem_of_In, List.filter_In in Hin as [_ Hkeep].
    apply type_eqb_eq in Ht. apply Nat.eqb_eq in Hid.
    rewrite Ht, Hid in Hkeep. discriminate. }
  assert (Hother : forall type' p',
     deliveries type' p' (eventListeners (removeEventListener type id s)) =
     List.filter
       (fun c => negb (type_eqb type' type && Nat.eqb (fst c) id))
       (deliveries type' p' (eventListeners s))).
  { intros type' p'. unfold removeEventListener, deliveries.
    cbn [eventListeners set_eventListeners].
    induction (eventListeners s) as [|l ls IH]; [reflexivity|].
    cbn [List.filter].
    destruct (type_eqb (listener_type l) type') eqn:Ht'.
    - apply type_eqb_eq in Ht'. subst type'.
      destruct (type_eqb (listener_type l) type) eqn:Ht;
        destruct (Nat.eqb (callback_id l) id) eqn:Hid;
        cbn [negb andb List.filter fmap list_fmap fst];
        rewrite ?Ht, ?Hid; cbn [negb andb];
        rewrite ?(proj2 (type_eqb_eq _ _) eq_refl); cbn [fmap list_fmap];
        rewrite ?IH; reflexivity.
    - destruct (negb (type_eqb (listener_type l) type &&
                      Nat.eqb (callback_id l) id)); cbn [List.filter];
        rewrite ?Ht'; exact IH. }
  split; [exact Hgone|]. split; [|split; [exact Hother|split; [|split]]].
  - rewrite Hother. intros Hin.
    apply list_elem_of_In, List.filter_In in Hin as [_ Hkeep].
    cbn [fst] in Hkeep.
    rewrite (proj2 (type_eqb_eq type type) eq_refl), Nat.eqb_refl in Hkeep.
    discriminate.
  - unfold addEventListener. cbn [eventListeners set_eventListeners].
    rewrite !deliveries_app, <- app_assoc. f_equal.
    unfold deliveries. cbn [List.filter listener_type].
    rewrite (proj2 (type_eqb_eq type type) eq_refl). reflexivity.
  - unfold removeEventListener, addEventListener, set_eventListeners.
    cbn [eventListeners host currentToolName currentCode calls].
    f_equal. rewrite !List.filter_app. cbn [List.filter listener_type callback_id].
    rewrite (proj2 (type_eqb_eq type type) eq_refl), Nat.eqb_refl.
    cbn. rewrite !app_nil_r. reflexivity.
  - intros Hfresh.
    unfold removeEventListener, addEventListener, set_eventListeners.
    cbn [eventListeners host currentToolName currentCode calls].
    rewrite List.filter_app. cbn [List.filter listener_type callback_id].
    rewrite (proj2 (type_eqb_eq type type) eq_refl), Nat.eqb_refl.
    cbn. rewrite app_nil_r, (remove_filter_none _ _ _ Hfresh).
    destruct s. reflexivity.
Qed.

Lemma reported_after_refl s : reported_after s s.
Proof.
  repeat split. exists []. rewrite app_nil_r. split; [reflexivity|constructor].
Qed.

Lemma reported_after_trans s1 s2 s3 :
  reported_after s1 s2 -> reported_after s2 s3 -> reported_after s1 s3.
Proof.
  intros (H1 & H2 & H3 & H4 & H5 & H6 & es & He & Hes)
         (K1 & K2 & K3 & K4 & K5 & K6 & es' & He' & Hes').
  repeat split; try congruence.
  exists (es ++ es'). split; [rewrite He', He, app_assoc; reflexivity|].
  apply Forall_app. split; assumption.
Qed.

Lemma same_but_world_reported s s' : same_but_world s s' -> reported_after s s'.
Proof.
  intros (H1 & H2 & H3 & H4 & H5 & H6 & H7). repeat split; try assumption.
  exists []. rewrite app_nil_r. split; [exact H4|constructor].
Qed.

Lemma invocations_reports (es : list (Event W)) :
  Forall (fun e => exists msg err, e = EvConsoleError msg err) es ->
  invocations es = [].
Proof.
  induction 1 as [|e es (msg & err & ->) _ IH]; [reflexivity|]. exact IH.
Qed.

(** The [catch] blocks of [executeCode] and [loadTool]. *)
Lemma report_frame msg err s :
  let r := pm_bind (on_host (emit (EvConsoleError msg err)))
             (fun _ => notifyError (error_message err)) s in
  reported_after s (final r) /\
  effects (host (final r)) = effects (host s) ++ [EvConsoleError msg err] /\
  exists cs,
    calls (final r) = calls s ++ cs /\
    cs `prefix_of`
      deliveries error (Error (error_message err)) (eventListeners s) /\
    (forall s', r = Completed tt s' ->
       cs = deliveries error (Error (error_message err)) (eventListeners s)).
Proof.
  intros r.
  pose (s1 := with_host
                (evolved (host s) (activeTool (host s)) (world (host s))
                   [EvConsoleError msg err]) s).
  assert (Hr : r = notify error (Error (error_message err)) s1)
    by reflexivity.
  destruct (notify_frame error (Error (error_message err)) s1)
    as ((H1 & H2 & H3 & H4 & H5 & H6 & H7) & cs & Hcs & Hpre & Hall).
  rewrite Hr. split; [|split].
  - repeat split; try assumption.
    exists [EvConsoleError msg err]. split; [rewrite H4; reflexivity|].
    repeat constructor. eauto.
  - rewrite H4. reflexivity.
  - exists cs. split; [exact Hcs|]. split; [exact Hpre|exact Hall].
Qed.

Lemma executeCode_throws ld code s err w :
  compile_source ld code (world (host s)) = FactoryThrows err w ->
  executeCode ld code s =
  pm_bind
    (on_host (emit (EvConsoleError "Error executing custom tool code:" err)))
    (fun _ => notifyError (error_message err))
    (loaded s code (set_world w (host s))).
Proof.
  intros Hc. unfold executeCode, pm_try.
  unfold pm_bind at 1, set_currentCode. unfold pm_bind at 1, run_factory.
  cbn [host]. rewrite Hc. reflexivity.
Qed.

Lemma executeCode_bad_name ld code s t text w :
  compile_source ld code (world (host s)) = Built (AnObject t true) w ->
  name t = NameOther text ->
  executeCode ld code s =
  pm_bind
    (on_host (emit (EvConsoleError "Error executing custom tool code:"
                      (JsError "Tool must have a non-empty name property"))))
    (fun _ =>
       notifyError
         (error_message (JsError "Tool must have a non-empty name property")))
    (loaded s code (set_world w (host s))).
Proof.
  intros Hc Hn. unfold executeCode, pm_try.
  unfold pm_bind at 1, set_currentCode. unfold pm_bind at 1, run_factory.
  cbn [host]. rewrite Hc. unfold name_truthy. rewrite Hn.
  unfold pm_bind at 1, on_host, ToolSystem.register. rewrite Hn. reflexivity.
Qed.

Lemma executeCode_no_tool ld code s v w :
  compile_source ld code (world (host s)) = Built v w ->
  (v = NoObject \/
   exists t other, v = AnObject t other /\ name_truthy (name t) other = false) ->
  executeCode ld code s = Completed tt (loaded s code (set_world w (host s))).
Proof.
  intros Hc Hv. unfold executeCode, pm_try.
  unfold pm_bind at 1, set_currentCode. unfold pm_bind at 1, run_factory.
  cbn [host]. rewrite Hc.
  destruct Hv as [-> | (t & other & -> & Hfalsy)]; [reflexivity|].
  rewrite Hfalsy. reflexivity.
Qed.

(** The host once tool [t] of name [n] is registered and activated in
    world [w]. *)
Lemma register_activate_run (t : Tool W) n w (m : Machine W) :
  name t = NameString n -> n <> "" ->
  exists m',
    bind (ToolSystem.register (Some t)) (fun _ => ToolSystem.activate n)
      (set_world w m) = Normal tt m' /\
    tools m' = <[n := t]> (tools m) /\
    activeTool m' = Some t /\
    sessions m' = sessions m /\
    effects m' =
      effects m ++
      deactivation_effects (set_world w m) ++ [EvActiveSet t] ++
      activation_effects t (world_deactivated (set_world w m)).
Proof.
  intros Hn Hne. unfold bind.
  rewrite (ToolSystemFacts.register_valid t n (set_world w m) Hn Hne).
  rewrite (ToolSystemFacts.activate_known n t)
    by (cbn; apply lookup_insert_eq).
  eexists. split; [reflexivity|]. repeat split.
Qed.

Lemma executeCode_tool ld code s (t : Tool W) other n w :
  compile_source ld code (world (host s)) = Built (AnObject t other) w ->
  name t = NameString n -> n <> "" ->
  exists m',
    tools m' = <[n := t]> (tools (host s)) /\
    activeTool m' = Some t /\
    sessions m' = sessions (host s) /\
    effects m' =
      effects (host s) ++
      deactivation_effects (set_world w (host s)) ++ [EvActiveSet t] ++
      activation_effects t (world_deactivated (set_world w (host s))) /\
    executeCode ld code s =
    pm_try notifyProjectChanged
      (fun err =>
         pm_bind
           (on_host
              (emit (EvConsoleError "Error executing custom tool code:" err)))
           (fun _ => notifyError (error_message err)))
      (loaded s code m').
Proof.
  intros Hc Hn Hne.
  eexists. split; [|split; [|split; [|split]]]; cycle 4.
  - unfold executeCode, pm_try.
    unfold pm_bind at 1, set_currentCode. unfold pm_bind at 1, run_factory.
    cbn [host]. rewrite Hc. unfold name_truthy. rewrite Hn.
    destruct (String.eqb_spec n ""); [contradiction|]. cbn [negb].
    unfold pm_bind at 1, on_host. cbn [host with_host].
    rewrite (ToolSystemFacts.register_valid t n _ Hn Hne).
    unfold pm_bind at 1. cbn [host with_host].
    rewrite (ToolSystemFacts.activate_known n t)
      by (cbn; apply lookup_insert_eq).
    reflexivity.
  - reflexivity.
  - reflexivity.
  - reflexivity.
  - cbn. reflexivity.
Qed.

(** The tail of a successful load: the project-changed round, and the
    report if a listener throws. *)
Lemma load_tail_frame s :
  let r :=
    pm_try notifyProjectChanged
      (fun err =>
         pm_bind
           (on_host
              (emit (EvConsoleError "Error executing custom tool code:" err)))
           (fun _ => notifyError (error_message err))) s in
  reported_after s (final r).
Proof.
  intros r. unfold r, pm_try, notifyProjectChanged.
  destruct (notify_frame projectChanged ProjectChanged s) as (Hsame & _).
  destruct (notify projectChanged ProjectChanged s) as [[] s1|err s1];
    cbn [final] in *.
  - apply same_but_world_reported, Hsame.
  - eapply reported_after_trans; [apply same_but_world_reported, Hsame|].
    apply report_frame.
Qed.

(** X22: a load that fails keeps the tool that was active.  When the
    compiled source throws, or returns an object whose name is a truthy
    non-string (so that [register] rejects it), [executeCode] registers and
    activates nothing and calls no tool handler; it reports the error on the
    console and to the error listeners, in order, with the message of the
    error.  The code is stored as current code all the same. *)
Theorem failed_load_keeps_the_active_tool ld code s err w :
  compile ld code (world (host s)) = FactoryThrows err w \/
  (exists t text,
     compile ld code (world (host s)) = Built (AnObject t true) w /\
     name t = NameOther text /\
     err = JsError "Tool must have a non-empty name property") ->
  let r := executeCode ld code s in
  tools (host (final r)) = tools (host s) /\
  ToolSystem.getActiveTool (host (final r)) = ToolSystem.getActiveTool (host s) /\
  sessions (host (final r)) = sessions (host s) /\
  new_effects (host s) (host (final r)) =
    [EvConsoleError "Error executing custom tool code:" err] /\
  currentCode (final r) = code /\
  currentToolName (final r) = currentToolName s /\
  eventListeners (final r) = eventListeners s /\
  new_calls s (final r) `prefix_of`
    deliveries error (Error (error_message err)) (eventListeners s) /\
  (forall s', r = Completed tt s' ->
     new_calls s s' =
       deliveries error (Error (error_message err)) (eventListeners s)).
Proof.
  intros Hfail r.
  assert (Hrun : r =
    pm_bind
      (on_host (emit (EvConsoleError "Error executing custom tool code:" err)))
      (fun _ => notifyError (error_message err))
      (loaded s code (set_world w (host s)))).
  { destruct Hfail as [Hc | (t & text & Hc & Hn & ->)].
    - apply executeCode_throws, Hc.
    - eapply executeCode_bad_name; eassumption. }
  destruct (report_frame "Error executing custom tool code:" err
              (loaded s code (set_world w (host s))))
    as ((H1 & H2 & H3 & H4 & H5 & H6 & _) & Heff & cs & Hcs & Hpre & Hall).
  rewrite <- Hrun in H1, H2, H3, H4, H5, H6, Heff, Hcs, Hall.
  unfold ToolSystem.getActiveTool.
  repeat split; try assumption.
  - apply InputManagerFacts.new_effects_app. exact Heff.
  - rewrite (new_calls_app s (final r) cs Hcs). exact Hpre.
  - intros s' Hr. rewrite Hr in Hcs. cbn [final] in Hcs.
    rewrite (new_calls_app s s' cs Hcs). eapply Hall, Hr.
Qed.

(** X23: source that produces no tool is run for its effect only: when
    the compiled source returns no object, or an object without a truthy
    name, [executeCode] stores the code and keeps the world the source left,
    and that is all: nothing is registered or activated, no listener is
    called and no error is reported. *)
Theorem load_without_tool_is_silent ld code s v w :
  compile ld code (world (host s)) = Built v w ->
  (v = NoObject \/
   exists t other, v = AnObject t other /\ name_truthy (name t) other = false) ->
  exists s',
    executeCode ld code s = Completed tt s' /\
    tools (host s') = tools (host s) /\
    ToolSystem.getActiveTool (host s') = ToolSystem.getActiveTool (host s) /\
    world (host s') = w /\
    new_effects (host s) (host s') = [] /\
    new_calls s s' = [] /\
    currentCode s' = code /\
    currentToolName s' = currentToolName s.
Proof.
  intros Hc Hv. eexists. split; [eapply executeCode_no_tool; eassumption|].
  repeat split.
  - apply InputManagerFacts.new_effects_app. cbn. rewrite app_nil_r. reflexivity.
  - apply new_calls_app. cbn. rewrite app_nil_r. reflexivity.
Qed.

(** X24: a load that produces a tool with a non-empty string name
    registers it under that name and makes it the active tool, whatever the
    listeners do afterwards: the handlers called are the deactivation
    handler of the tool that was active (if any) and then the activation
    handler of the new tool, in the world the source left; [getActiveTool]
    returns the new instance and [getActiveToolName] its name. *)
Theorem load_registers_and_activates ld code s (t : Tool W) other n w :
  compile ld code (world (host s)) = Built (AnObject t other) w ->
  name t = NameString n -> n <> "" ->
  let s' := final (executeCode ld code s) in
  tools (host s') = <[n := t]> (tools (host s)) /\
  ToolSystem.getActiveTool (host s') = Some t /\
  ToolSystem.getActiveToolName (host s') = Some (NameString n) /\
  sessions (host s') = sessions (host s) /\
  currentCode s' = code /\
  currentToolName s' = currentToolName s /\
  invocations (new_effects (host s) (host s')) =
    match activeTool (host s) with
    | Some cur => expected_call cur HDeactivate (onDeactivate cur)
    | None => []
    end ++ expected_call t HActivate (onActivate t).
Proof.
  intros Hc Hn Hne s'.
  destruct (executeCode_tool ld code s t other n w Hc Hn Hne)
    as (m' & Htools & Hact & Hsess & Heff & Hrun).
  destruct (load_tail_frame (loaded s code m'))
    as (H1 & H2 & H3 & H4 & H5 & H6 & es & Hes & Hreports).
  rewrite <- Hrun in H1, H2, H3, H4, H5, H6, Hes. fold s' in H1, H2, H3, H4, H5, H6, Hes.
  cbn [loaded host currentToolName currentCode] in *.
  unfold ToolSystem.getActiveTool.
  split; [congruence|]. split; [congruence|]. split.
  { eapply ToolSystemFacts.getActiveToolName_named; [|exact Hn]. congruence. }
  split; [congruence|]. split; [exact H5|]. split; [exact H4|].
  rewrite (InputManagerFacts.new_effects_app (host s) (host s')
             ((deactivation_effects (set_world w (host s)) ++ [EvActiveSet t] ++
               activation_effects t (world_deactivated (set_world w (host s))))
              ++ es))
    by (rewrite Hes, Heff, <- !app_assoc; reflexivity).
  rewrite !ToolSystemFacts.invocations_app, (invocations_reports es Hreports).
  unfold deactivation_effects, activation_effects.
  cbn [set_world activeTool world].
  rewrite ToolSystemFacts.invocations_guarded_call, app_nil_r.
  destruct (activeTool (host s)) as [cur|]; [|reflexivity].
  rewrite ToolSystemFacts.invocations_guarded_call. reflexivity.
Qed.

(** The host effects of a load that produces a tool. *)
Lemma load_tool_effects ld code s (t : Tool W) other n w :
  compile_source ld code (world (host s)) = Built (AnObject t other) w ->
  name t = NameString n -> n <> "" ->
  let s' := final (executeCode ld code s) in
  exists es,
    effects (host s') = effects (host s) ++ es /\
    invocations es =
      match activeTool (host s) with
      | Some cur => expected_call cur HDeactivate (onDeactivate cur)
      | None => []
      end ++ expected_call t HActivate (onActivate t).
Proof.
  intros Hc Hn Hne s'.
  destruct (executeCode_tool ld code s t other n w Hc Hn Hne)
    as (m' & _ & _ & _ & Heff & Hrun).
  destruct (load_tail_frame (loaded s code m'))
    as (_ & _ & _ & _ & _ & _ & es & Hes & Hreports).
  rewrite <- Hrun in Hes. fold s' in Hes. cbn [loaded host] in Hes.
  eexists. split; [rewrite Hes, Heff, <- !app_assoc; reflexivity|].
  rewrite !ToolSystemFacts.invocations_app, (invocations_reports es Hreports).
  unfold deactivation_effects, activation_effects.
  cbn [set_world activeTool world].
  rewrite ToolSystemFacts.invocations_guarded_call, app_nil_r.
  destruct (activeTool (host s)) as [cur|]; [|reflexivity].
  rewrite ToolSystemFacts.invocations_guarded_call. reflexivity.
Qed.

Lemma load_tool_state ld code s (t : Tool W) other n w :
  compile_source ld code (world (host s)) = Built (AnObject t other) w ->
  name t = NameString n -> n <> "" ->
  let s' := final (executeCode ld code s) in
  activeTool (host s') = Some t /\
  sessions (host s') = sessions (host s) /\
  currentCode s' = code /\
  currentToolName s' = currentToolName s /\
  eventListeners s' = eventListeners s.
Proof.
  intros Hc Hn Hne s'.
  destruct (executeCode_tool ld code s t other n w Hc Hn Hne)
    as (m' & _ & Hact & Hsess & _ & Hrun).
  destruct (load_tail_frame (loaded s code m'))
    as (_ & H2 & H3 & H4 & H5 & H6 & _).
  rewrite <- Hrun in H2, H3, H4, H5, H6. fold s' in H2, H3, H4, H5, H6.
  cbn [loaded host currentToolName currentCode eventListeners] in *.
  repeat split; congruence.
Qed.

Lemma failed_load_fields ld code s err w :
  executeCode ld code s =
    pm_bind
      (on_host (emit (EvConsoleError "Error executing custom tool code:" err)))
      (fun _ => notifyError (error_message err))
      (loaded s code (set_world w (host s))) ->
  let s' := final (executeCode ld code s) in
  sessions (host s') = sessions (host s) /\
  currentCode s' = code /\
  currentToolName s' = currentToolName s /\
  eventListeners s' = eventListeners s.
Proof.
  intros Hrun s'.
  destruct (report_frame "Error executing custom tool code:" err
              (loaded s code (set_world w (host s))))
    as ((_ & _ & H3 & H4 & H5 & H6 & _) & _).
  rewrite <- Hrun in H3, H4, H5, H6. repeat split; assumption.
Qed.

(** X25: loading tool A and then tool B: the handlers called are the
    deactivation of whatever was active before, the activation of A, the
    deactivation of A and the activation of B, in that order and each once
    (where the tools have them), and afterwards B is the active tool and
    [getActiveToolName] returns its name. *)
Theorem load_A_then_B ld codeA codeB (A B : Tool W) nA nB s :
  (forall w, exists other w',
     compile ld codeA w = Built (AnObject A other) w') ->
  (forall w, exists other w',
     compile ld codeB w = Built (AnObject B other) w') ->
  name A = NameString nA -> nA <> "" ->
  name B = NameString nB -> nB <> "" ->
  let s1 := final (executeCode ld codeA s) in
  let s2 := final (executeCode ld codeB s1) in
  ToolSystem.getActiveTool (host s1) = Some A /\
  ToolSystem.getActiveTool (host s2) = Some B /\
  ToolSystem.getActiveToolName (host s2) = Some (NameString nB) /\
  invocations (new_effects (host s) (host s2)) =
    match activeTool (host s) with
    | Some cur => expected_call cur HDeactivate (onDeactivate cur)
    | None => []
    end ++
    expected_call A HActivate (onActivate A) ++
    expected_call A HDeactivate (onDeactivate A) ++
    expected_call B HActivate (onActivate B).
Proof.
  intros HA HB HnA HneA HnB HneB s1 s2.
  destruct (HA (world (host s))) as (oA & wA & HcA).
  destruct (HB (world (host s1))) as (oB & wB & HcB).
  destruct (load_tool_state ld codeA s A oA nA wA HcA HnA HneA)
    as (HactA & _).
  destruct (load_tool_state ld codeB s1 B oB nB wB HcB HnB HneB)
    as (HactB & _).
  assert (HnameB : ToolSystem.getActiveToolName (host s2) = Some (NameString nB))
    by (eapply ToolSystemFacts.getActiveToolName_named; [exact HactB|exact HnB]).
  destruct (load_tool_effects ld codeA s A oA nA wA HcA HnA HneA)
    as (es1 & He1 & Hi1).
  destruct (load_tool_effects ld codeB s1 B oB nB wB HcB HnB HneB)
    as (es2 & He2 & Hi2).
  fold s1 in HactA, He1. fold s2 in HactB, HnameB, He2.
  split; [exact HactA|]. split; [exact HactB|]. split; [exact HnameB|].
  rewrite (InputManagerFacts.new_effects_app (host s) (host s2) (es1 ++ es2))
    by (rewrite He2, He1, app_assoc; reflexivity).
  rewrite ToolSystemFacts.invocations_app, Hi1, Hi2.
  fold s1. rewrite HactA.
  rewrite <- !app_assoc. reflexivity.
Qed.

(** Whatever the source does, [executeCode] stores the code and keeps the
    name of the current tool, the listeners and the sessions. *)
Lemma executeCode_fields ld code s :
  let s' := final (executeCode ld code s) in
  currentCode s' = code /\ currentToolName s' = currentToolName s /\
  eventListeners s' = eventListeners s /\
  sessions (host s') = sessions (host s).
Proof.
  intros s'.
  destruct (compile_source ld code (world (host s))) as [v w|err w] eqn:Hc.
  - destruct v as [|t other].
    + unfold s'. rewrite (executeCode_no_tool ld code s NoObject w Hc)
        by (left; reflexivity). repeat split.
    + destruct (name_truthy (name t) other) eqn:Htruthy.
      * destruct (name t) as [n| | |text] eqn:Hn; cbn in Htruthy;
          try discriminate.
        -- assert (Hne : n <> "")
             by (destruct (String.eqb_spec n ""); [discriminate|assumption]).
           destruct (load_tool_state ld code s t other n w Hc Hn Hne)
             as (_ & Hs & Hcode & Hname & Hl).
           repeat split; assumption.
        -- subst other.
           destruct (failed_load_fields ld code s
                       (JsError "Tool must have a non-empty name property") w)
             as (Hs & Hcode & Hname & Hl).
           { eapply executeCode_bad_name; eassumption. }
           repeat split; assumption.
      * unfold s'. rewrite (executeCode_no_tool ld code s _ w Hc)
          by (right; eauto). repeat split.
  - destruct (failed_load_fields ld code s err w)
      as (Hs & Hcode & Hname & Hl); [apply executeCode_throws, Hc|].
    repeat split; assumption.
Qed.

(** The round that ends [loadTool], and the report if a listener
    throws. *)
Lemma tool_changed_round_frame p s :
  let r :=
    pm_try (notify toolChanged p)
      (fun err =>
         pm_bind (on_host (emit (EvConsoleError "Error loading tool:" err)))
           (fun _ => notifyError (error_message err))) s in
  reported_after s (final r).
Proof.
  intros r. unfold r, pm_try.
  destruct (notify_frame toolChanged p s) as (Hsame & _).
  destruct (notify toolChanged p s) as [[] s2|err s2]; cbn [final] in *.
  - apply same_but_world_reported, Hsame.
  - eapply reported_after_trans; [apply same_but_world_reported, Hsame|].
    apply report_frame.
Qed.

(** X26: [loadTool] with a name that is no template.  When the lookup
    [TOOL_TEMPLATES[toolName]] yields nothing, nothing changes: the current
    tool name and code, the registry and the active tool are as before, and
    the failure is reported on the console and to the error listeners with
    the message [Tool "<name>" not found].  When the name is a property that
    the object inherits ([toString], [constructor], ...), the lookup yields
    a value and no such error is raised: the name is stored as the current
    tool name, the current code becomes [undefined], nothing is registered
    or activated, and the load ends with the [toolChanged] round for that
    name and [undefined]. *)
Theorem loadTool_without_template ld toolName s :
  templates ld toolName = None ->
  let r := loadTool ld toolName s in
  let message := "Tool " +:+ dquote +:+ toolName +:+ dquote +:+ " not found" in
  (inherited ld toolName = false ->
   currentToolName (final r) = currentToolName s /\
   currentCode (final r) = currentCode s /\
   tools (host (final r)) = tools (host s) /\
   ToolSystem.getActiveTool (host (final r)) =
     ToolSystem.getActiveTool (host s) /\
   new_effects (host s) (host (final r)) =
     [EvConsoleError "Error loading tool:" (JsError message)] /\
   new_calls s (final r) `prefix_of`
     deliveries error (Error message) (eventListeners s) /\
   (forall s', r = Completed tt s' ->
      new_calls s s' = deliveries error (Error message) (eventListeners s))) /\
  (inherited ld toolName = true ->
   currentToolName (final r) = Some toolName /\
   currentCode (final r) = CodeUndefined /\
   tools (host (final r)) = tools (host s) /\
   ToolSystem.getActiveTool (host (final r)) =
     ToolSystem.getActiveTool (host s) /\
   sessions (host (final r)) = sessions (host s) /\
   exists s1,
     r =
       pm_try (notify toolChanged (ToolChanged toolName CodeUndefined))
         (fun err =>
            pm_bind (on_host (emit (EvConsoleError "Error loading tool:" err)))
              (fun _ => notifyError (error_message err))) s1 /\
     currentToolName s1 = Some toolName /\
     currentCode s1 = CodeUndefined /\
     eventListeners s1 = eventListeners s /\
     calls s1 = calls s /\
     tools (host s1) = tools (host s) /\
     activeTool (host s1) = activeTool (host s) /\
     sessions (host s1) = sessions (host s) /\
     world (host s1) = world (host s) /\
     effects (host s1) = effects (host s)).
Proof.
  intros Hnone r message. split; intros Hinh.
  - assert (Hrun : r =
      pm_bind
        (on_host (emit (EvConsoleError "Error loading tool:" (JsError message))))
        (fun _ => notifyError (error_message (JsError message))) s).
    { unfold r, loadTool, pm_try, template_found. rewrite Hnone, Hinh.
      reflexivity. }
    destruct (report_frame "Error loading tool:" (JsError message) s)
      as ((H1 & H2 & H3 & H4 & H5 & H6 & _) & Heff & cs & Hcs & Hpre & Hall).
    rewrite <- Hrun in H1, H2, H3, H4, H5, H6, Heff, Hcs, Hall.
    unfold ToolSystem.getActiveTool. cbn [error_message] in *.
    repeat split; try assumption.
    + apply InputManagerFacts.new_effects_app. exact Heff.
    + rewrite (new_calls_app s (final r) cs Hcs). exact Hpre.
    + intros s' Hr. rewrite Hr in Hcs. cbn [final] in Hcs.
      rewrite (new_calls_app s s' cs Hcs). eapply Hall, Hr.
  - pose (s0 := {| host := host s; currentToolName := Some toolName;
                   currentCode := CodeUndefined;
                   eventListeners := eventListeners s; calls := calls s |}).
    pose (s1 := loaded s0 CodeUndefined (set_world (world (host s0)) (host s0))).
    assert (Hrun : r =
      pm_try (notify toolChanged (ToolChanged toolName CodeUndefined))
        (fun err =>
           pm_bind (on_host (emit (EvConsoleError "Error loading tool:" err)))
             (fun _ => notifyError (error_message err))) s1).
    { unfold r, loadTool, pm_try, template_found. rewrite Hnone, Hinh.
      unfold pm_bind at 1, set_currentToolName.
      unfold pm_bind at 1, set_currentCode.
      unfold pm_bind at 1. cbn [currentCode].
      change (executeCode ld CodeUndefined _)
        with (executeCode ld CodeUndefined s0).
      rewrite (executeCode_no_tool ld CodeUndefined s0 NoObject
                 (world (host s0)) eq_refl) by (left; reflexivity).
      reflexivity. }
    destruct (tool_changed_round_frame (ToolChanged toolName CodeUndefined) s1)
      as (H1 & H2 & H3 & H4 & H5 & H6 & _).
    rewrite <- Hrun in H1, H2, H3, H4, H5, H6.
    unfold ToolSystem.getActiveTool.
    split; [exact H4|]. split; [exact H5|]. split; [exact H1|].
    split; [exact H2|]. split; [exact H3|].
    exists s1. split; [exact Hrun|]. repeat split.
Qed.

(** X27: loading a template stores its name and code, runs [executeCode]
    on the code, and after that only calls listeners and reports: the
    registry, the active tool and the sessions are the ones [executeCode]
    left, and name and code stay stored also when the code fails to load. *)
Theorem known_template_is_stored_and_executed ld toolName template s :
  templates ld toolName = Some template ->
  let r := loadTool ld toolName s in
  let s0 :=
    {| host := host s; currentToolName := Some toolName;
       currentCode := template_code template;
       eventListeners := eventListeners s; calls := calls s |} in
  let executed := final (executeCode ld (template_code template) s0) in
  currentToolName (final r) = Some toolName /\
  currentCode (final r) = template_code template /\
  tools (host (final r)) = tools (host executed) /\
  ToolSystem.getActiveTool (host (final r)) =
    ToolSystem.getActiveTool (host executed) /\
  sessions (host (final r)) = sessions (host s) /\
  eventListeners (final r) = eventListeners s.
Proof.
  intros Hsome r s0 executed.
  destruct (executeCode_fields ld (template_code template) s0)
    as (Hcode & Hname & Hl & Hs).
  fold executed in Hcode, Hname, Hl, Hs.
  assert (Hafter : reported_after executed (final r)).
  { unfold r, loadTool, pm_try, template_found. rewrite Hsome.
    unfold pm_bind at 1, set_currentToolName.
    unfold pm_bind at 1, set_currentCode.
    unfold pm_bind at 1. cbn [currentCode].
    change (executeCode ld (template_code template) _)
      with (executeCode ld (template_code template) s0).
    unfold executed.
    destruct (executeCode ld (template_code template) s0) as [[] s1|err s1];
      cbn [final].
    - unfold notifyToolChanged.
      destruct (notify_frame toolChanged
                  (ToolChanged toolName (currentCode s1)) s1) as (Hsame & _).
      destruct (notify toolChanged (ToolChanged toolName (currentCode s1)) s1)
        as [[] s2|err s2]; cbn [final] in *.
      + apply same_but_world_reported, Hsame.
      + eapply reported_after_trans; [apply same_but_world_reported, Hsame|].
        apply report_frame.
    - apply report_frame. }
  destruct Hafter as (H1 & H2 & H3 & H4 & H5 & H6 & _).
  unfold s0 in Hname, Hl, Hs.
  cbn [currentToolName eventListeners host] in Hname, Hl, Hs.
  unfold ToolSystem.getActiveTool.
  repeat split; congruence.
Qed.

(** X28: [updateCode] runs the code and then tells the code listeners,
    also when the code fails to load: once [executeCode] has returned, the
    [codeChanged] listeners are called in the order of registration with the
    new code, and registry, active tool and console stay as [executeCode]
    left them.  Only an exception that leaves [executeCode], which an error
    listener has thrown, skips the notification.  The code is the current
    code in every case. *)
Theorem updateCode_notifies_after_any_load ld code s :
  let r := updateCode ld code s in
  let p := CodeChanged code in
  currentCode (final r) = code /\
  currentToolName (final r) = currentToolName s /\
  eventListeners (final r) = eventListeners s /\
  (forall s1,
     executeCode ld code s = Completed tt s1 ->
     same_but_world s1 (final r) /\
     new_calls s1 (final r) `prefix_of`
       deliveries codeChanged p (eventListeners s) /\
     (forall s', r = Completed tt s' ->
        new_calls s1 s' = deliveries codeChanged p (eventListeners s))) /\
  (forall err s1,
     executeCode ld code s = Thrown err s1 -> r = Thrown err s1).
Proof.
  intros r p.
  destruct (executeCode_fields ld code s) as (Hcode & Hname & Hl & _).
  unfold r, updateCode, pm_bind.
  destruct (executeCode ld code s) as [[] s1|err s1] eqn:He; cbn [final] in *.
  - unfold notifyCodeChanged. fold p.
    destruct (notify_frame codeChanged p s1)
      as (Hsame & cs & Hcs & Hpre & Hall).
    pose proof Hsame as (_ & _ & _ & _ & H5 & H6 & H7).
    split; [congruence|]. split; [congruence|]. split; [congruence|]. split.
    + intros s1' [= <-]. split; [exact Hsame|]. split.
      * rewrite (new_calls_app _ _ cs Hcs), <- Hl. exact Hpre.
      * intros s' Hr. rewrite Hr in Hcs. cbn [final] in Hcs.
        rewrite (new_calls_app _ _ cs Hcs), <- Hl. eapply Hall, Hr.
    + intros err s1' [=].
  - split; [assumption|]. split; [assumption|]. split; [assumption|]. split.
    + intros s1' [=].
    + intros err' s1' [= <- <-]. reflexivity.
Qed.

(** X29: [loadTool] tells the tool listeners once [executeCode] has
    returned on the template's code: the [toolChanged] listeners are called
    in the order of registration with the tool name and the template's code,
    and when they all return [loadTool] completes with nothing else done.  A
    [toolChanged] listener that throws is reported as a failure of the load:
    on the console under [Error loading tool:], and to the error listeners
    with the message of what it threw. *)
Theorem loadTool_notifies_tool_changed ld toolName template s s1 :
  templates ld toolName = Some template ->
  let s0 :=
    {| host := host s; currentToolName := Some toolName;
       currentCode := template_code template;
       eventListeners := eventListeners s; calls := calls s |} in
  executeCode ld (template_code template) s0 = Completed tt s1 ->
  let r := loadTool ld toolName s in
  let p := ToolChanged toolName (template_code template) in
  (forall s2,
     notify toolChanged p s1 = Completed tt s2 ->
     r = Completed tt s2 /\
     new_calls s1 s2 = deliveries toolChanged p (eventListeners s) /\
     effects (host s2) = effects (host s1)) /\
  (forall err s2,
     notify toolChanged p s1 = Thrown err s2 ->
     new_effects (host s1) (host (final r)) =
       [EvConsoleError "Error loading tool:" err] /\
     exists tc ec,
       new_calls s1 (final r) = tc ++ ec /\
       tc `prefix_of` deliveries toolChanged p (eventListeners s) /\
       ec `prefix_of`
         deliveries error (Error (error_message err)) (eventListeners s) /\
       (forall s', r = Completed tt s' ->
          ec = deliveries error (Error (error_message err)) (eventListeners s))).
Proof.
  intros Hsome s0 He r p.
  destruct (executeCode_fields ld (template_code template) s0)
    as (Hcode & _ & Hl & _).
  rewrite He in Hcode, Hl. cbn [final] in Hcode, Hl.
  unfold s0 in Hl. cbn [eventListeners] in Hl.
  assert (Hr : r =
    pm_try (notify toolChanged p)
      (fun err =>
         pm_bind (on_host (emit (EvConsoleError "Error loading tool:" err)))
           (fun _ => notifyError (error_message err))) s1).
  { unfold r, loadTool, pm_try, template_found. rewrite Hsome.
    unfold pm_bind at 1, set_currentToolName.
    unfold pm_bind at 1, set_currentCode.
    unfold pm_bind at 1. cbn [currentCode].
    change (executeCode ld (template_code template) _)
      with (executeCode ld (template_code template) s0).
    rewrite He. unfold notifyToolChanged. rewrite Hcode. reflexivity. }
  destruct (notify_frame toolChanged p s1)
    as (Hsame & tc & Htc & Hpre & Hall).
  destruct Hsame as (_ & _ & _ & Heff & _ & _ & Hl2).
  split.
  - intros s2 Hn. rewrite Hn in Htc, Heff, Hall. cbn [final] in Htc, Heff.
    split; [|split].
    + rewrite Hr. unfold pm_try. rewrite Hn. reflexivity.
    + rewrite (new_calls_app _ _ tc Htc), <- Hl. apply (Hall s2 eq_refl).
    + exact Heff.
  - intros err s2 Hn. rewrite Hn in Htc, Heff, Hl2. cbn [final] in Htc, Heff, Hl2.
    destruct (report_frame "Error loading tool:" err s2)
      as (_ & Heff2 & ec & Hec & Hpre2 & Hall2).
    assert (Hr2 : r =
      pm_bind (on_host (emit (EvConsoleError "Error loading tool:" err)))
        (fun _ => notifyError (error_message err)) s2).
    { rewrite Hr. unfold pm_try. rewrite Hn. reflexivity. }
    rewrite <- Hr2 in Heff2, Hec, Hall2.
    split.
    + apply InputManagerFacts.new_effects_app. rewrite Heff2, Heff. reflexivity.
    + exists tc, ec. split; [|split; [|split]].
      * apply new_calls_app. rewrite Hec, Htc, app_assoc. reflexivity.
      * rewrite <- Hl. exact Hpre.
      * rewrite <- Hl, <- Hl2. exact Hpre2.
      * intros s' Hs'. rewrite <- Hl, <- Hl2. apply (Hall2 s' Hs').
Qed.

End WithWorld.
Lemma notification_reaches_listeners_in_order_witness :
  exists s',
    notify error (Error "boom") Samples2.manager_failing =
      Thrown (JsError "listener failed") s' /\
    new_calls Samples2.manager_failing s' = [(5, Error "boom")].
Proof.
  destruct (notification_reaches_listeners_in_order error (Error "boom")
              Samples2.manager_failing)
    as (_ & _ & _ & _ & Hthrows & _).
  destruct (Hthrows [] Samples2.failing_listener [Samples2.later_listener]
              Samples2.manager_failing (JsError "listener failed") 0)
    as (s' & Hr & _ & Hcalls); try reflexivity.
  exists s'. split; assumption.
Defined.

Lemma listeners_register_and_unregister_witness :
  removeEventListener error 1
    (addEventListener error 1 (fun _ w => Returns w)
       (new Samples.host)) =
  new Samples.host.
Proof.
  destruct (listeners_register_and_unregister error 1 (fun _ w => Returns w)
              (Error "boom") (new Samples.host))
    as (_ & _ & _ & _ & _ & Hrestores).
  apply Hrestores. constructor.
Defined.

Lemma failed_load_keeps_the_active_tool_witness :
  ToolSystem.getActiveTool
    (host (final (executeCode Samples2.loader "return {" Samples2.manager))) =
  Some Samples.brush.
Proof.
  destruct (failed_load_keeps_the_active_tool Samples2.loader "return {"
              Samples2.manager (JsError "Unexpected token") 0)
    as (_ & Hactive & _).
  - left. reflexivity.
  - exact Hactive.
Defined.

Lemma load_without_tool_is_silent_witness :
  exists s',
    executeCode Samples2.loader "nothing" Samples2.manager = Completed tt s' /\
    new_calls Samples2.manager s' = [].
Proof.
  destruct (load_without_tool_is_silent Samples2.loader "nothing"
              Samples2.manager NoObject 1)
    as (s' & Hrun & _ & _ & _ & _ & Hcalls & _).
  - reflexivity.
  - left. reflexivity.
  - exists s'. split; assumption.
Defined.

Lemma load_registers_and_activates_witness :
  ToolSystem.getActiveToolName
    (host (final (executeCode Samples2.loader "eraser" Samples2.manager))) =
  Some (NameString "Eraser").
Proof.
  destruct (load_registers_and_activates Samples2.loader "eraser"
              Samples2.manager Samples2.eraser true "Eraser" 0)
    as (_ & _ & Hname & _).
  - reflexivity.
  - reflexivity.
  - discriminate.
  - exact Hname.
Defined.

Lemma load_A_then_B_witness :
  ToolSystem.getActiveTool
    (host
       (final
          (executeCode Samples2.loader "eraser"
             (final (executeCode Samples2.loader "brush" Samples2.manager))))) =
  Some Samples2.eraser.
Proof.
  destruct (load_A_then_B Samples2.loader "brush" "eraser"
              Samples.brush Samples2.eraser "Brush" "Eraser" Samples2.manager)
    as (_ & Hactive & _).
  - intros w. exists true, w. reflexivity.
  - intros w. exists true, w. reflexivity.
  - reflexivity.
  - discriminate.
  - reflexivity.
  - discriminate.
  - exact Hactive.
Defined.

Lemma loadTool_without_template_witness :
  currentToolName (final (loadTool Samples2.loader "lasso" Samples2.manager)) =
    None /\
  currentToolName
    (final (loadTool Samples2.loader "toString" Samples2.manager)) =
    Some "toString" /\
  currentCode (final (loadTool Samples2.loader "toString" Samples2.manager)) =
    CodeUndefined.
Proof.
  split; [|split].
  - destruct (loadTool_without_template Samples2.loader "lasso"
                Samples2.manager eq_refl)
      as [Hmissing _].
    destruct (Hmissing eq_refl) as (Hname & _). exact Hname.
  - destruct (loadTool_without_template Samples2.loader "toString"
                Samples2.manager eq_refl)
      as [_ Hinherited].
    destruct (Hinherited eq_refl) as (Hname & _). exact Hname.
  - destruct (loadTool_without_template Samples2.loader "toString"
                Samples2.manager eq_refl)
      as [_ Hinherited].
    destruct (Hinherited eq_refl) as (_ & Hcode & _). exact Hcode.
Defined.

Lemma known_template_is_stored_and_executed_witness :
  currentToolName (final (loadTool Samples2.loader "brush" Samples2.manager)) =
  Some "brush".
Proof.
  destruct (known_template_is_stored_and_executed Samples2.loader "brush"
              {| template_name := "Brush";
                 template_description := "Free-hand drawing tool";
                 template_code := "brush" |}
              Samples2.manager)
    as (Hname & _).
  - reflexivity.
  - exact Hname.
Defined.

Lemma updateCode_notifies_after_any_load_witness :
  new_calls
    (final (executeCode Samples2.loader "return {" Samples2.manager))
    (final (updateCode Samples2.loader "return {" Samples2.manager)) =
  [(3, CodeChanged "return {")].
Proof.
  destruct (updateCode_notifies_after_any_load Samples2.loader "return {"
              Samples2.manager)
    as (_ & _ & _ & Hnotified & _).
  destruct (Hnotified
              (final (executeCode Samples2.loader "return {" Samples2.manager)))
    as (_ & _ & Hall).
  - vm_compute. reflexivity.
  - apply Hall. vm_compute. reflexivity.
Defined.

Lemma loadTool_notifies_tool_changed_witness :
  loadTool Samples2.loader "brush" Samples2.manager =
  Completed tt
    (final
       (notify toolChanged (ToolChanged "brush" "brush")
          (final
             (executeCode Samples2.loader "brush"
                (Samples2.manager_with "brush" "brush"))))).
Proof.
  destruct (loadTool_notifies_tool_changed Samples2.loader "brush"
              {| template_name := "Brush";
                 template_description := "Free-hand drawing tool";
                 template_code := "brush" |}
              Samples2.manager
              (final
                 (executeCode Samples2.loader "brush"
                    (Samples2.manager_with "brush" "brush"))))
    as (Hreturns & _).
  - reflexivity.
  - vm_compute. reflexivity.
  - destruct (Hreturns
                (final
                   (notify toolChanged (ToolChanged "brush" "brush")
                      (final
                         (executeCode Samples2.loader "brush"
                            (Samples2.manager_with "brush" "brush"))))))
      as (Hcompleted & _).
    + vm_compute. reflexivity.
    + exact Hcompleted.
Defined.

End PaperManagerFacts.
